(** * Document-to-chunk pipeline: a shallow embedding and its properties

    The development follows the Python sources under
    [saas-api/cmd/docling]:

    - [chunking.py]        : [MarkdownChunker] (streaming chunk writer and the
                             table title / header-row heuristic);
    - [document_process.py]: [chunk_json_directly] (the JSON fast path);
    - [doclingbackup.py]   : [DocumentPipeline.process] and
                             [DocumentPipeline.process_batch];
    - [md_converter.py]    : [save_markdown_async], [convert_single_async].

    Conventions.

    - Python [str] values are modelled as [string]; each character stands
      for one code point below 256.
    - External collaborators (the conversion engine, the chunker, the
      tokenizer, [json.loads], the file system) appear as explicit inputs of
      the functions that consume their results: a record of what each call
      returns, with [None] or [false] where the call raises.
    - A [try]/[except] is modelled where it stands: a step that may raise
      returns an [option] or a sum, and the handler's code is the other
      branch.  In the streaming chunk writer a write to the open file is
      taken to succeed; in the JSON fast path the save may raise at each of
      its steps.
    - A JSON file written piece by piece is kept as the sequence of JSON
      tokens written; a file is a document when the token sequence reads
      back as one value.
    - Definitions come first, module by module; the lemmas and theorems
      about them follow. *)

From Stdlib Require Import String Ascii List Arith Lia Bool.
From stdpp Require Import gmap strings.
Import ListNotations.

(* ===================================================================== *)
(** * Python string primitives used by the sources *)
(* ===================================================================== *)

Module PyStr.

(** [str.isspace] on one character, for code points below 256:
    TAB..CR, FS..US, SPACE, NEL and NBSP. *)
Definition isspace (c : ascii) : bool :=
  let n := nat_of_ascii c in
  ((9 <=? n) && (n <=? 13)) || ((28 <=? n) && (n <=? 32))
  || (n =? 133) || (n =? 160).

Definition is_empty (s : string) : bool :=
  match s with EmptyString => true | String _ _ => false end.

(** [s.lstrip(chars)] for a set of characters given as a predicate. *)
Fixpoint lstrip_by (p : ascii -> bool) (s : string) : string :=
  match s with
  | EmptyString => EmptyString
  | String c r => if p c then lstrip_by p r else s
  end.

Fixpoint rstrip_by (p : ascii -> bool) (s : string) : string :=
  match s with
  | EmptyString => EmptyString
  | String c r =>
      let r' := rstrip_by p r in
      if is_empty r' && p c then EmptyString else String c r'
  end.

(** [s.strip()] *)
Definition strip (s : string) : string := rstrip_by isspace (lstrip_by isspace s).

(** [s.lstrip('#')] *)
Definition lstrip_hash (s : string) : string :=
  lstrip_by (fun c => Ascii.eqb c "#"%char) s.

(** [s.startswith(p)] *)
Definition startswith (p s : string) : bool := String.prefix p s.

Fixpoint rev (s : string) : string :=
  match s with
  | EmptyString => EmptyString
  | String c r => rev r +:+ String c EmptyString
  end.

(** [s.endswith(p)] *)
Definition endswith (p s : string) : bool := String.prefix (rev p) (rev s).

(** [s.split('\n')]: never empty, the last piece may be [""]. *)
Fixpoint split_nl (s : string) : list string :=
  match s with
  | EmptyString => [EmptyString]
  | String c r =>
      if Ascii.eqb c "010"%char then EmptyString :: split_nl r
      else match split_nl r with
           | h :: t => String c h :: t
           | [] => [String c EmptyString]
           end
  end.

(** [str.lower] on one character, for code points below 256. *)
Definition lower_char (c : ascii) : ascii :=
  let n := nat_of_ascii c in
  if ((65 <=? n) && (n <=? 90))
     || ((192 <=? n) && (n <=? 222) && negb (n =? 215))
  then ascii_of_nat (n + 32) else c.

Fixpoint lower (s : string) : string :=
  match s with
  | EmptyString => EmptyString
  | String c r => String (lower_char c) (lower r)
  end.

(** [sub in s] *)
Fixpoint contains (sub s : string) : bool :=
  String.prefix sub s
  || match s with
     | EmptyString => false
     | String _ r => contains sub r
     end.

(** [' '.join(l)] *)
Fixpoint join_sp (l : list string) : string :=
  match l with
  | [] => EmptyString
  | [x] => x
  | x :: r => x +:+ " " +:+ join_sp r
  end.

(** Decimal rendering of a natural number, as [str(n)] does. *)
Definition digit (n : nat) : ascii := ascii_of_nat (48 + n mod 10).

Fixpoint digits_fuel (fuel n : nat) (acc : string) : string :=
  match fuel with
  | 0 => acc
  | S f =>
      let acc' := String (digit n) acc in
      if n <? 10 then acc' else digits_fuel f (n / 10) acc'
  end.

Definition str_of_nat (n : nat) : string := digits_fuel (S n) n EmptyString.

Fixpoint zeros (k : nat) : string :=
  match k with 0 => EmptyString | S k' => String "0"%char (zeros k') end.

(** [f"{n:04d}"] for [n >= 0]: zero-padded to width four, never truncated. *)
Definition fmt_04d (n : nat) : string :=
  let s := str_of_nat n in zeros (4 - String.length s) +:+ s.

(** ** [pathlib] *)

(** The text before and after the last occurrence of [c] in [s]. *)
Fixpoint split_last (c : ascii) (s : string) : option (string * string) :=
  match s with
  | EmptyString => None
  | String a r =>
      match split_last c r with
      | Some (before, after) => Some (String a before, after)
      | None => if Ascii.eqb a c then Some (EmptyString, r) else None
      end
  end.

(** [Path(p).name], for a path without trailing separator. *)
Definition path_name (p : string) : string :=
  match split_last "/" p with Some (_, n) => n | None => p end.

(** [Path(p).parent] *)
Definition path_parent (p : string) : string :=
  match split_last "/" p with
  | Some (d, _) => if is_empty d then "/" else d
  | None => "."
  end.

(** [Path(p).stem] and [Path(p).suffix]: the suffix starts at the last dot
    of the name unless that dot is the first or the last character. *)
Definition stem_suffix (p : string) : string * string :=
  let n := path_name p in
  match split_last "." n with
  | Some (st, ext) =>
      if is_empty st || is_empty ext then (n, EmptyString)
      else (st, String "."%char ext)
  | None => (n, EmptyString)
  end.

Definition path_stem (p : string) : string := fst (stem_suffix p).
Definition path_suffix (p : string) : string := snd (stem_suffix p).

(** [Path(p).with_suffix(suffix)] *)
Definition with_suffix (p suffix : string) : string :=
  match split_last "/" p with
  | Some (d, _) => d +:+ "/" +:+ path_stem p +:+ suffix
  | None => path_stem p +:+ suffix
  end.

(** [dir / name], for [dir] in the form [pathlib] prints a directory (no
    trailing and no doubled separator) and a [name] without separator. *)
Definition path_join (dir name : string) : string := dir +:+ "/" +:+ name.

(** No line break inside [s]. *)
Fixpoint no_newline (s : string) : bool :=
  match s with
  | EmptyString => true
  | String c r => negb (Ascii.eqb c "010"%char) && no_newline r
  end.

End PyStr.

(* ===================================================================== *)
(** * The table heuristic: [_extract_markdown_table_title_and_header] *)
(* ===================================================================== *)

Module TableHeuristic.
Import PyStr.

(** [line_stripped.startswith('|') and not line_stripped.startswith('|--')] *)
Definition is_table_line (ls : string) : bool :=
  startswith "|" ls && negb (startswith "|--" ls).

(** The first loop: the line indices at which a table starts.  [i] is the
    index of the head of [lines], [in_table] the loop-carried flag. *)
Fixpoint find_table_starts (lines : list string) (i : nat) (in_table : bool)
  : list nat :=
  match lines with
  | [] => []
  | line :: rest =>
      let ls := strip line in
      if is_table_line ls && negb in_table then
        i :: find_table_starts rest (S i) true
      else if negb (is_table_line ls) && negb (startswith "|--" ls) then
        find_table_starts rest (S i) false
      else find_table_starts rest (S i) in_table
  end.

(** [range(hi - 1, max(-1, hi - 1 - n), -1)]: at most [n] indices below
    [hi], descending, stopping at 0. *)
Fixpoint down_from (hi n : nat) {struct n} : list nat :=
  match n with
  | 0 => []
  | S n' => match hi with
            | 0 => []
            | S h => h :: down_from h n'
            end
  end.

Definition line_at (lines : list string) (i : nat) : string :=
  strip (nth i lines EmptyString).

(** The subtitle test of the inner loop. *)
Definition is_subtitle (s : string) : bool :=
  negb (is_empty s) && startswith "(" s && endswith ")" s.

(** [for j in range(i + 1, table_start_idx)]: first matching line. *)
Fixpoint find_subtitle (lines : list string) (j n : nat) : option string :=
  match n with
  | 0 => None
  | S n' =>
      let s := line_at lines j in
      if is_subtitle s then Some s else find_subtitle lines (S j) n'
  end.

(** The [elif] test for a title without a heading marker. *)
Definition fallback_ok (line : string) : bool :=
  negb (startswith "|" line)
  && (10 <? String.length line) && (String.length line <? 150)
  && negb (startswith "*" line).

(** The backward loop.  Returns [(table_title, subtitle,
    potential_title_without_hash)] as they stand when the loop ends. *)
Fixpoint scan_back (lines : list string) (start : nat) (idxs : list nat)
         (potential : option string)
  : option string * option string * option string :=
  match idxs with
  | [] => (None, None, potential)
  | i :: rest =>
      let line := line_at lines i in
      if is_empty line then scan_back lines start rest potential
      else if startswith "##" line then
        (Some (strip (lstrip_hash line)),
         find_subtitle lines (S i) (start - S i),
         potential)
      else if fallback_ok line then
        scan_back lines start rest
          (match potential with Some _ => potential | None => Some line end)
      else scan_back lines start rest potential
  end.

(** Python truthiness of an optional string. *)
Definition truthy (o : option string) : bool :=
  match o with Some s => negb (is_empty s) | None => false end.

Definition header_indicators : list string :=
  ["2023"; "2024"; "2025"; "2026"; "fy"; "year"; "march"; "quarter";
   "q1"; "q2"; "q3"; "q4"; "june"; "september"; "december"].

(** [' '.join([str(cell).lower() for cell in row])] *)
Definition row_text (row : list string) : string := join_sp (map lower row).

Definition row_matches (row : list string) : bool :=
  existsb (fun ind => contains ind (row_text row)) header_indicators.

Definition detect_header_rows (table_data : list (list string)) : nat :=
  if 3 <=? length table_data then
    let n2 := if row_matches (nth 1 table_data []) then 2 else 1 in
    if (n2 =? 2) && row_matches (nth 2 table_data []) then 3 else n2
  else 1.

(** [_extract_markdown_table_title_and_header(table_idx, table_data)] with
    [self.markdown_content] passed explicitly.  The result is
    [(table_title, num_header_rows, subtitle)].  On a string and a list of
    lists of strings no step of the body raises, so the handler that
    returns [(None, 1, None)] has no counterpart here. *)
Definition extract_markdown_table_title_and_header
           (markdown_content : option string)
           (table_idx : nat) (table_data : list (list string))
  : option string * nat * option string :=
  match markdown_content, table_data with
  | None, _ => (None, 1, None)
  | _, [] => (None, 1, None)
  | Some content, _ :: _ =>
      if is_empty content then (None, 1, None)
      else
        let lines := split_nl content in
        let table_starts := find_table_starts lines 0 false in
        match nth_error table_starts table_idx with
        | None => (None, 1, None)
        | Some table_start_idx =>
            let '(table_title, subtitle, potential) :=
              scan_back lines table_start_idx (down_from table_start_idx 4) None in
            let table_title :=
              if negb (truthy table_title) && truthy potential
              then potential else table_title in
            (table_title, detect_header_rows table_data, subtitle)
        end
  end.

Definition title_of (r : option string * nat * option string) : option string :=
  fst (fst r).
Definition header_rows_of (r : option string * nat * option string) : nat :=
  snd (fst r).
Definition subtitle_of (r : option string * nat * option string) : option string :=
  snd r.

Definition nl : string := String "010"%char EmptyString.

(** The document and grid of the specification's worked example. *)
Definition example_markdown : string :=
  "## Revenue by Segment" +:+ String "010"%char
  ("(in millions)" +:+ String "010"%char
  ("|A|B|" +:+ String "010"%char
  ("|-|-|" +:+ String "010"%char
  ("|2024|2025|" +:+ String "010"%char "|10|20|")))).

Definition example_grid : list (list string) :=
  [["A"; "B"]; ["2024"; "2025"]; ["10"; "20"]].

(** ** Notions used to state the properties *)

(** A line that may serve as a title without a heading marker. *)
Definition plain_title_line (s : string) : Prop :=
  startswith "|" s = false /\ 10 < String.length s /\ String.length s < 150
  /\ startswith "*" s = false.

(** A parenthesised subtitle line. *)
Definition parenthesised (s : string) : Prop :=
  startswith "(" s = true /\ endswith ")" s = true.

(** Documents used as test inputs. *)
Definition bare_heading_markdown : string :=
  "##" +:+ nl +:+ "Quarterly revenue summary" +:+ nl +:+ "|A|B|".

Definition prose_markdown : string := "Quarterly figures are listed below.".

Definition thirty_char_line : string := "Segment revenue, in millions:.".

Definition plain_line_markdown (line : string) : string :=
  line +:+ nl +:+ "|A|B|" +:+ nl +:+ "|1|2|".

(** The closest line of [idxs] that passes the fallback test. *)
Fixpoint first_fallback (lines : list string) (idxs : list nat) : option string :=
  match idxs with
  | [] => None
  | i :: rest =>
      if fallback_ok (line_at lines i) then Some (line_at lines i)
      else first_fallback lines rest
  end.

Definition keep_or (potential later : option string) : option string :=
  match potential with Some _ => potential | None => later end.

Definition table_starts_of (content : string) : list nat :=
  find_table_starts (split_nl content) 0 false.

(** The row's lowercased, space-joined text contains a fiscal token. *)
Definition has_fiscal_token (row : list string) : Prop :=
  exists tok pre post,
    In tok header_indicators /\ row_text row = pre +:+ tok +:+ post.

(** A qualifying plain line, four blank lines, then the table. *)
Definition distant_title_markdown : string :=
  thirty_char_line +:+ nl +:+ nl +:+ nl +:+ nl +:+ nl
  +:+ "|A|B|" +:+ nl +:+ "|1|2|".

(** A qualifying plain line, four bullet lines, then the table. *)
Definition bulleted_markdown : string :=
  thirty_char_line +:+ nl +:+ "* first note" +:+ nl +:+ "* second note" +:+ nl
  +:+ "* third note" +:+ nl +:+ "* fourth note" +:+ nl
  +:+ "|A|B|" +:+ nl +:+ "|1|2|".

End TableHeuristic.


(* ===================================================================== *)
(** * Files, locks and the operations performed on them *)
(* ===================================================================== *)

Module Fs.

(** Operations on paths.  [A] is what one [write] call hands over. *)
Inductive fs_op (A : Type) : Type :=
| OpLockAcquire (path : string)          (* enter [async with lock] *)
| OpLockRelease (path : string)          (* leave it *)
| OpMkdir (path : string)
| OpOpenW (path : string)                (* [open(path, 'w')]: create or truncate *)
| OpWrite (path : string) (data : A)
| OpClose (path : string)
| OpRead (path : string)
| OpRename (src dst : string)
| OpUnlink (path : string).

Arguments OpLockAcquire {A} path.
Arguments OpLockRelease {A} path.
Arguments OpMkdir {A} path.
Arguments OpOpenW {A} path.
Arguments OpWrite {A} path data.
Arguments OpClose {A} path.
Arguments OpRead {A} path.
Arguments OpRename {A} src dst.
Arguments OpUnlink {A} path.

(** A file is the sequence of the data written to it since it was last
    opened for writing. *)
Definition apply_op {A : Type} (fs : gmap string (list A)) (op : fs_op A)
  : gmap string (list A) :=
  match op with
  | OpOpenW p => <[p := []]> fs
  | OpWrite p data => <[p := default [] (fs !! p) ++ [data]]> fs
  | OpRename src dst =>
      match fs !! src with
      | Some c => <[dst := c]> (delete src fs)
      | None => fs
      end
  | OpUnlink p => delete p fs
  | _ => fs
  end.

Definition apply_ops {A : Type} (fs : gmap string (list A)) (ops : list (fs_op A))
  : gmap string (list A) := fold_left apply_op ops fs.

(** The discipline "lock the path, write a temporary file, rename it into
    place", checked on a sequence of operations: [path] itself is never
    opened for writing nor written, and a rename onto [path] happens only
    while the lock of [path] is held ([held]). *)
Fixpoint disciplined {A : Type} (path : string) (held : bool) (ops : list (fs_op A))
  : bool :=
  match ops with
  | [] => true
  | OpLockAcquire p :: r =>
      disciplined path (if String.eqb p path then true else held) r
  | OpLockRelease p :: r =>
      disciplined path (if String.eqb p path then false else held) r
  | OpOpenW p :: r => negb (String.eqb p path) && disciplined path held r
  | OpWrite p _ :: r => negb (String.eqb p path) && disciplined path held r
  | OpRename _ dst :: r =>
      (negb (String.eqb dst path) || held) && disciplined path held r
  | _ :: r => disciplined path held r
  end.

(** Whether an operation takes a lock or renames a file. *)
Definition is_lock_or_rename {A : Type} (op : fs_op A) : bool :=
  match op with
  | OpLockAcquire _ | OpLockRelease _ | OpRename _ _ => true
  | _ => false
  end.

(** Whether an operation creates or changes a file or directory. *)
Definition is_write_op {A : Type} (op : fs_op A) : bool :=
  match op with
  | OpMkdir _ | OpOpenW _ | OpWrite _ _ | OpRename _ _ => true
  | _ => false
  end.

End Fs.

(* ===================================================================== *)
(** * Python values, serialisation and the output token stream *)
(* ===================================================================== *)

Module PyVal.

(** The Python values that reach [json.dumps] in the sources.  [PSet]
    stands for a value the encoder rejects with [TypeError]. *)
#[warnings="-register-all"]
Inductive pyval : Type :=
| PNone
| PBool (b : bool)
| PInt (n : nat)
| PStr (s : string)
| PList (l : list pyval)
| PDict (d : list (string * pyval))
| PSet (l : list pyval).

(** [isinstance(v, list)] and [isinstance(v, dict)] *)
Definition is_list (v : pyval) : bool :=
  match v with PList _ => true | _ => false end.
Definition is_dict (v : pyval) : bool :=
  match v with PDict _ => true | _ => false end.

(** Whether [json.dumps] accepts the value. *)
Fixpoint serializable (v : pyval) : bool :=
  match v with
  | PSet _ => false
  | PList l => forallb serializable l
  | PDict d => forallb (fun kv => serializable (snd kv)) d
  | _ => true
  end.

(** [json.dumps(v, ...)]: the document text for [v], identified with [v]
    itself; [None] when the encoder raises. *)
Definition json_dumps (v : pyval) : option pyval :=
  if serializable v then Some v else None.

(** [d[k] = v] on a dict kept in insertion order. *)
Fixpoint dict_set (d : list (string * pyval)) (k : string) (v : pyval)
  : list (string * pyval) :=
  match d with
  | [] => [(k, v)]
  | (k', v') :: r =>
      if String.eqb k' k then (k, v) :: r else (k', v') :: dict_set r k v
  end.

(** [d.get(k)] *)
Fixpoint dict_get (d : list (string * pyval)) (k : string) : option pyval :=
  match d with
  | [] => None
  | (k', v) :: r => if String.eqb k' k then Some v else dict_get r k
  end.

(** The ["Index"] entry of a chunk object. *)
Definition index_of (v : pyval) : option nat :=
  match v with
  | PDict d => match dict_get d "Index" with
               | Some (PInt n) => Some n
               | _ => None
               end
  | _ => None
  end.

(** ** Output tokens

    A file written piecewise is kept as the sequence of JSON tokens that
    the written text consists of; white space and indentation are not
    kept.  [Value v] is the text [json.dumps] produced for [v]. *)
Inductive piece : Type :=
| LBrace | RBrace | LBracket | RBracket | Comma
| Key (k : string)
| Value (v : pyval).

(** ** Reading a token stream back as one JSON document *)

Fixpoint parse_value (fuel : nat) (ts : list piece) : option (pyval * list piece) :=
  match fuel with
  | 0 => None
  | S f =>
      match ts with
      | Value v :: r => Some (v, r)
      | LBracket :: RBracket :: r => Some (PList [], r)
      | LBracket :: r =>
          match parse_elements f r with
          | Some (vs, r') => Some (PList vs, r')
          | None => None
          end
      | LBrace :: RBrace :: r => Some (PDict [], r)
      | LBrace :: r =>
          match parse_members f r with
          | Some (d, r') => Some (PDict d, r')
          | None => None
          end
      | _ => None
      end
  end
with parse_elements (fuel : nat) (ts : list piece)
     : option (list pyval * list piece) :=
  match fuel with
  | 0 => None
  | S f =>
      match parse_value f ts with
      | Some (v, RBracket :: r) => Some ([v], r)
      | Some (v, Comma :: r) =>
          match parse_elements f r with
          | Some (vs, r') => Some (v :: vs, r')
          | None => None
          end
      | _ => None
      end
  end
with parse_members (fuel : nat) (ts : list piece)
     : option (list (string * pyval) * list piece) :=
  match fuel with
  | 0 => None
  | S f =>
      match ts with
      | Key k :: r =>
          match parse_value f r with
          | Some (v, RBrace :: r') => Some ([(k, v)], r')
          | Some (v, Comma :: r') =>
              match parse_members f r' with
              | Some (d, r'') => Some ((k, v) :: d, r'')
              | None => None
              end
          | _ => None
          end
      | _ => None
      end
  end.

(** [json.loads] of a whole file: one value and nothing after it. *)
Definition parse_document (ts : list piece) : option pyval :=
  match parse_value (S (length ts)) ts with
  | Some (v, []) => Some v
  | _ => None
  end.

(** The payloads of the [Value] tokens, in order. *)
Fixpoint values_of (ts : list piece) : list pyval :=
  match ts with
  | [] => []
  | Value v :: r => v :: values_of r
  | _ :: r => values_of r
  end.

End PyVal.

(* ===================================================================== *)
(** * The streaming chunk writer: [MarkdownChunker.process_markdown_file] *)
(* ===================================================================== *)

Module Writer.
Import PyStr PyVal TableHeuristic Fs.

(** One element of [doc.tables], as far as the loop body consults it. *)
Record table_item := {
  t_data : list (list string);   (* [_extract_table_structure(table)] *)
  t_fallback_title : string;     (* [_extract_table_title(...)] *)
  t_table_id : string;           (* first [uuid.uuid4()] of the body *)
  t_chunk_id : string            (* second [uuid.uuid4()] of the body *)
}.

(** One element yielded by [chunker.chunk(dl_doc=doc)]. *)
Record text_item := {
  c_clean : string;          (* [chunk_text_for_embedding] *)
  c_is_table : bool;         (* a [doc_items] label mentions "table" *)
  c_section_title : string;  (* [section_title] after lines 330-361 *)
  c_id : string              (* [uuid.uuid4()] *)
}.

(** What the chunk iterator does at each step: yield an item, or raise. *)
Inductive text_event :=
| Yield (c : text_item)
| Raise.

(** The converted document. *)
Record document := {
  tables : list table_item;
  chunks : list text_event
}.

(** The inputs of one call.  [name] and [id] are the values after the
    defaults (file name, fresh UUID) have been filled in; [metadata] is the
    caller's dictionary, [[]] when none is given. *)
Record request := {
  markdown_content : option string;       (* the text read from the file *)
  conversion : option document;           (* [None]: reading or converting raised *)
  name : string;
  id : string;
  metadata : list (string * pyval)
}.

(** The loop-carried variables and the writes issued so far. *)
Record wstate := {
  writes : list (list piece);
  Index : nat;
  is_first_chunk : bool
}.

Definition write (data : list piece) (st : wstate) : wstate :=
  {| writes := writes st ++ [data]; Index := Index st;
     is_first_chunk := is_first_chunk st |}.

(** The four header writes. *)
Definition header_writes (name id : string) : list (list piece) :=
  [ [LBrace];
    [Key "name"; Value (PStr name); Comma];
    [Key "id"; Value (PStr id); Comma];
    [Key "chunks"; LBracket] ].

Definition footer_writes : list (list piece) := [ [RBracket]; [RBrace] ].

(** [if not is_first_chunk: write(',\n') else: is_first_chunk = False] *)
Definition separator (st : wstate) : wstate :=
  if is_first_chunk st
  then {| writes := writes st; Index := Index st; is_first_chunk := false |}
  else write [Comma] st.

(** The write of the serialised chunk followed by [Index += 1]. *)
Definition commit (text : pyval) (st : wstate) : wstate :=
  {| writes := writes st ++ [[Value text]]; Index := S (Index st);
     is_first_chunk := is_first_chunk st |}.

Definition rows_value (rows : list (list string)) : pyval :=
  PList (map (fun row => PList (map PStr row)) rows).

Definition chunk_metadata (metadata : list (string * pyval))
           (section_title content_type : string) : pyval :=
  PDict (dict_set (dict_set metadata "section_title" (PStr section_title))
                  "content_type" (PStr content_type)).

Definition whole_table_chunk (metadata : list (string * pyval))
           (t : table_item) (title : string) (index : nat) : pyval :=
  PDict [ ("id", PStr (t_chunk_id t));
          ("Index", PInt index);
          ("table", PDict [ ("id", PStr (t_table_id t));
                            ("title", PStr title);
                            ("body", rows_value (t_data t)) ]);
          ("metadata", chunk_metadata metadata title "table") ].

(** One iteration of the table loop, its [try]/[except] included: an
    exception leaves the iteration where it is and the loop goes on. *)
Definition table_step (md : option string) (metadata : list (string * pyval))
           (table_idx : nat) (t : table_item) (st : wstate) : wstate :=
  match t_data t with
  | [] => st
  | _ :: _ =>
      let markdown_title :=
        title_of (extract_markdown_table_title_and_header md table_idx (t_data t)) in
      let section_title :=
        match markdown_title with
        | Some s => if is_empty s then t_fallback_title t else s
        | None => t_fallback_title t
        end in
      let st1 := separator st in
      match json_dumps (whole_table_chunk metadata t section_title (Index st)) with
      | Some text => commit text st1
      | None => st1
      end
  end.

Fixpoint table_loop (md : option string) (metadata : list (string * pyval))
         (table_idx : nat) (ts : list table_item) (st : wstate) : wstate :=
  match ts with
  | [] => st
  | t :: rest =>
      table_loop md metadata (S table_idx) rest
                 (table_step md metadata table_idx t st)
  end.

Definition chunk_obj (metadata : list (string * pyval))
           (c : text_item) (index : nat) : pyval :=
  PDict [ ("id", PStr (c_id c));
          ("content", PStr (c_clean c));
          ("Index", PInt index);
          ("metadata",
           chunk_metadata metadata
             (String.substring 0 100 (c_section_title c)) "text") ].

(** The text loop has no handler of its own: an exception reaches the
    handler of the whole function.  The result is the state reached and
    whether the loop ran to its end. *)
Fixpoint text_loop (metadata : list (string * pyval))
         (cs : list text_event) (st : wstate) : wstate * bool :=
  match cs with
  | [] => (st, true)
  | Raise :: _ => (st, false)
  | Yield c :: rest =>
      if is_empty (c_clean c) || (String.length (strip (c_clean c)) <? 10)
      then text_loop metadata rest st
      else if c_is_table c then text_loop metadata rest st
      else
        let st1 := separator st in
        match json_dumps (chunk_obj metadata c (Index st)) with
        | Some text => text_loop metadata rest (commit text st1)
        | None => (st1, false)
        end
  end.

(** The result of a call: the returned count, whether the normal return
    was reached, and the writes issued on the output file ([None] when the
    file was never opened). *)
Record run := {
  returned : nat;
  completed : bool;
  issued : option (list (list piece))
}.

Definition process_markdown_file (rq : request) : run :=
  match conversion rq with
  | None => {| returned := 0; completed := false; issued := None |}
  | Some doc =>
      let st0 := {| writes := header_writes (name rq) (id rq);
                    Index := 0; is_first_chunk := true |} in
      let st1 := table_loop (markdown_content rq) (metadata rq) 0 (tables doc) st0 in
      let '(st2, ok) := text_loop (metadata rq) (chunks doc) st1 in
      if ok then
        {| returned := Index st2; completed := true;
           issued := Some (writes st2 ++ footer_writes) |}
      else
        {| returned := 0; completed := false; issued := Some (writes st2) |}
  end.

(** The content of the output file after the call. *)
Definition file_content (r : run) : list piece :=
  match issued r with
  | Some ws => concat ws
  | None => []
  end.

(** The tokens between the header and the footer, and the chunk objects
    among them. *)
Definition header_length : nat := length (concat (header_writes "" "")).

Definition written_chunks (r : run) : list pyval :=
  values_of (skipn header_length (file_content r)).

(** ** The document a well-formed output denotes *)

(** Array elements with a separator between neighbours and none after the
    last. *)
Fixpoint elements (cs : list pyval) : list piece :=
  match cs with
  | [] => []
  | c :: r => match r with
              | [] => [Value c]
              | _ :: _ => Value c :: Comma :: elements r
              end
  end.

Definition expected_document (name id : string) (cs : list pyval) : pyval :=
  PDict [("name", PStr name); ("id", PStr id); ("chunks", PList cs)].

(** ** Invariants of the two loops *)

(** The tokens written after the header. *)
Definition body_of (name id : string) (st : wstate) (b : list piece) : Prop :=
  concat (writes st) = concat (header_writes name id) ++ b.

(** The chunk objects among [b] carry the indices [0 .. Index st - 1]. *)
Definition indexed (st : wstate) (b : list piece) : Prop :=
  map index_of (values_of b) = map Some (seq 0 (Index st)).

Definition index_inv (name id : string) (st : wstate) : Prop :=
  exists b, body_of name id st b /\ indexed st b.

(** The state in which the text loop leaves the writer. *)
Definition final_state (rq : request) (doc : document) : wstate * bool :=
  text_loop (metadata rq) (chunks doc)
    (table_loop (markdown_content rq) (metadata rq) 0 (tables doc)
       {| writes := header_writes (name rq) (id rq); Index := 0;
          is_first_chunk := true |}).

Definition is_nil (cs : list pyval) : bool :=
  match cs with [] => true | _ :: _ => false end.

(** The committed chunks [cs] are exactly what follows the header. *)
Definition separated (name id : string) (st : wstate) (cs : list pyval) : Prop :=
  concat (writes st) = concat (header_writes name id) ++ elements cs
  /\ is_first_chunk st = is_nil cs.

(** ** Sample inputs *)

Definition revenue_table : table_item :=
  {| t_data := example_grid; t_fallback_title := "Page 1 - Table 1";
     t_table_id := "t-1"; t_chunk_id := "c-1" |}.

Definition costs_table : table_item :=
  {| t_data := [["C"; "D"]; ["3"; "4"]]; t_fallback_title := "Page 1 - Table 2";
     t_table_id := "t-2"; t_chunk_id := "c-2" |}.

(** A table for which no extraction method produced rows. *)
Definition unreadable_table : table_item :=
  {| t_data := []; t_fallback_title := "Page 1 - Table 3";
     t_table_id := "t-3"; t_chunk_id := "c-3" |}.

Definition prose_chunk : text_item :=
  {| c_clean := "Revenue grew in every segment."; c_is_table := false;
     c_section_title := "Revenue by Segment"; c_id := "c-4" |}.

Definition short_chunk : text_item :=
  {| c_clean := "n/a"; c_is_table := false;
     c_section_title := "Unknown Section"; c_id := "c-5" |}.

Definition table_chunk : text_item :=
  {| c_clean := "A B 2024 2025 10 20"; c_is_table := true;
     c_section_title := "Revenue by Segment"; c_id := "c-6" |}.

(** Two tables, one of them unreadable; three yielded chunks, two of them
    skipped. *)
Definition sample_request : request :=
  {| markdown_content := Some example_markdown;
     conversion := Some {| tables := [unreadable_table; revenue_table];
                           chunks := [Yield short_chunk; Yield table_chunk;
                                      Yield prose_chunk] |};
     name := "report.md"; id := "doc-1";
     metadata := [("source", PStr "upload")] |}.

(** Two readable tables, no prose, and caller metadata holding a set. *)
Definition set_metadata_request : request :=
  {| markdown_content := Some example_markdown;
     conversion := Some {| tables := [revenue_table; costs_table];
                           chunks := [Yield table_chunk] |};
     name := "report.md"; id := "doc-1";
     metadata := [("tags", PSet [PStr "finance"])] |}.

(** A document without tables or text. *)
Definition empty_request : request :=
  {| markdown_content := Some EmptyString;
     conversion := Some {| tables := []; chunks := [] |};
     name := "empty.md"; id := "doc-0"; metadata := [] |}.

(** ** File-system view of a run *)

(** The operations the call performs on the output path: the file is opened
    for writing under its own name, written piece by piece, and closed
    (also by the handler, when the text loop raises). *)
Definition process_markdown_file_ops (output_json_path : string) (rq : request)
  : list (fs_op (list piece)) :=
  match issued (process_markdown_file rq) with
  | None => []
  | Some ws =>
      OpOpenW output_json_path :: map (OpWrite output_json_path) ws
      ++ [OpClose output_json_path]
  end.

(** The tokens of a stored file. *)
Definition tokens_at (fs : gmap string (list (list piece))) (path : string)
  : option (list piece) :=
  match fs !! path with
  | Some ws => Some (concat ws)
  | None => None
  end.

End Writer.

(* ===================================================================== *)
(** * The JSON fast path: [chunk_json_directly] and [chunk_document] *)
(* ===================================================================== *)

Module JsonDirect.
Import PyStr PyVal Fs.

(** The [Chunk] dataclass. *)
Record Chunk := {
  chunk_id : string;
  content : string;
  content_type : string;
  page_number : option nat;
  section_title : option string;
  chunk_index : option nat
}.

Definition opt_int (o : option nat) : pyval :=
  match o with Some n => PInt n | None => PNone end.
Definition opt_str (o : option string) : pyval :=
  match o with Some s => PStr s | None => PNone end.

(** [dataclasses.asdict] *)
Definition asdict (c : Chunk) : pyval :=
  PDict [ ("chunk_id", PStr (chunk_id c));
          ("content", PStr (content c));
          ("content_type", PStr (content_type c));
          ("page_number", opt_int (page_number c));
          ("section_title", opt_str (section_title c));
          ("chunk_index", opt_int (chunk_index c)) ].

(** What the function obtains from outside. *)
Record env := {
  read_text : string -> option string;    (* [open(p).read()]; [None]: it raises *)
  (** [AutoTokenizer.from_pretrained] and [HuggingFaceTokenizer] return. *)
  tokenizer_loads : string -> bool;
  json_loads : string -> option pyval;    (* [None]: [json.JSONDecodeError] *)
  json_dumps_text : pyval -> string;      (* [json.dumps(v, indent=2, ensure_ascii=False)] *)
  mkdir_ok : string -> bool;              (* [Path(p).mkdir(parents=True, exist_ok=True)] returns *)
  open_ok : string -> bool;               (* [open(p, 'w', encoding='utf-8')] returns *)
  (** [json.dump(v, f, indent=2, ensure_ascii=False)]: [None] when it
      returns; otherwise it raises (a string that cannot be encoded as
      UTF-8, a full disk) after these pieces have reached the file. *)
  dump_stops : pyval -> option (list piece);
  exists_file : string -> bool;           (* [Path(p).exists()] *)
  (** [None]: the scheme is not http(s).  Otherwise the result of
      [download_file_from_url] and the source name taken from the URL. *)
  url_download : string -> option (option string * string);
  staged_result : string -> nat           (* what the staged branch returns *)
}.

Inductive exn := OSError | TokenizerError | UnboundLocalError | UnicodeEncodeError.

(** The loop over [enumerate(json_data)], from index [k]. *)
Fixpoint array_chunks (e : env) (source_name : string) (k : nat)
         (items : list pyval) : list Chunk :=
  match items with
  | [] => []
  | item :: rest =>
      {| chunk_id := source_name +:+ "_chunk_" +:+ fmt_04d k;
         content := json_dumps_text e item;
         content_type := "json_array_item";
         page_number := Some 1;
         section_title := Some ("Item " +:+ str_of_nat (k + 1));
         chunk_index := Some k |}
      :: array_chunks e source_name (S k) rest
  end.

Definition single_chunk (source_name formatted_content kind title : string) : Chunk :=
  {| chunk_id := source_name +:+ "_chunk_0000";
     content := formatted_content;
     content_type := kind;
     page_number := Some 1;
     section_title := Some title;
     chunk_index := Some 0 |}.

(** The [if isinstance(json_data, list) ... elif ... else] cascade. *)
Definition build_chunks (e : env) (source_name : string) (json_data : pyval)
           (formatted_content : string) : list Chunk :=
  match json_data with
  | PList items => array_chunks e source_name 0 items
  | PDict _ => [single_chunk source_name formatted_content "json_object" "JSON Object"]
  | _ => [single_chunk source_name formatted_content "json" "JSON Data"]
  end.

(** [if temp_file: Path(temp_file).unlink()] *)
Definition cleanup (temp_file : option string) : list (fs_op (list piece)) :=
  match temp_file with
  | Some t => if is_empty t then [] else [OpUnlink t]
  | None => []
  end.

(** The save of [chunks] goes through: the directory is made, the file is
    opened and [json.dump] returns. *)
Definition save_succeeds (e : env) (output_json : string) (chunks : list Chunk)
  : bool :=
  mkdir_ok e (path_parent output_json) && open_ok e output_json
  && match dump_stops e (PList (map asdict chunks)) with
     | None => true
     | Some _ => false
     end.

(** The body of the [try] block: the operations performed and either the
    exception that ends it or the value it returns.  [json_data] is the
    local variable of that name: it is bound only if [json.loads] returns.
    The save can raise at each of its three steps; the [with] statement
    closes the file when [json.dump] raises. *)
Definition try_body (e : env) (input_path source_name output_json
                     embedding_model : string) (temp_file : option string)
  : list (fs_op (list piece)) * (exn + (list Chunk)) :=
  match read_text e input_path with
  | None => ([], inl OSError)
  | Some json_content =>
      if negb (tokenizer_loads e embedding_model)
      then ([OpRead input_path], inl TokenizerError)
      else
        let json_data := json_loads e json_content in
        let formatted_content :=
          match json_data with
          | Some d => json_dumps_text e d
          | None => json_content
          end in
        match json_data with
        | None => ([OpRead input_path], inl UnboundLocalError)
        | Some d =>
            let chunks := build_chunks e source_name d formatted_content in
            if negb (mkdir_ok e (path_parent output_json))
            then ([OpRead input_path], inl OSError)
            else if negb (open_ok e output_json)
            then ([OpRead input_path; OpMkdir (path_parent output_json)],
                  inl OSError)
            else
              match dump_stops e (PList (map asdict chunks)) with
              | Some written =>
                  ([OpRead input_path;
                    OpMkdir (path_parent output_json);
                    OpOpenW output_json;
                    OpWrite output_json written;
                    OpClose output_json],
                   inl UnicodeEncodeError)
              | None =>
                  ([OpRead input_path;
                    OpMkdir (path_parent output_json);
                    OpOpenW output_json;
                    OpWrite output_json [Value (PList (map asdict chunks))];
                    OpClose output_json] ++ cleanup temp_file,
                   inr chunks)
              end
        end
  end.

(** [chunk_json_directly]: the returned count, the chunks saved, and the
    operations performed. *)
Definition chunk_json_directly (e : env) (input_path source_name output_json
                                embedding_model : string)
           (temp_file : option string)
  : nat * list Chunk * list (fs_op (list piece)) :=
  match try_body e input_path source_name output_json embedding_model temp_file with
  | (ops, inr chunks) => (length chunks, chunks, ops)
  | (ops, inl _) => (0, [], ops ++ cleanup temp_file)
  end.

(** Calls that leave the module: file operations and the staged engine. *)
Inductive effect :=
| FsOp (op : fs_op (list piece))
| EngineConvert (source : string).

Definition is_engine_call (x : effect) : bool :=
  match x with EngineConvert _ => true | FsOp _ => false end.

(** [chunk_document], up to the point where the JSON branch returns.  The
    branch for all other formats (tokenizer, converter, chunker, save) is
    summarised by its engine call and its result. *)
Definition dispatch (e : env) (input_path source_name output_json
                     embedding_model : string) (temp_file : option string)
  : nat * list effect :=
  if String.eqb (lower (path_suffix input_path)) ".json" then
    let '(n, _, ops) :=
      chunk_json_directly e input_path source_name output_json
                          embedding_model temp_file in
    (n, map FsOp ops)
  else (staged_result e input_path, [EngineConvert input_path]).

Definition chunk_document (e : env) (input_file output_json embedding_model : string)
  : nat * list effect :=
  match url_download e input_file with
  | Some (None, _) => (0, [])
  | Some (Some temp_file, source_name) =>
      dispatch e temp_file source_name output_json embedding_model (Some temp_file)
  | None =>
      if exists_file e input_file
      then dispatch e input_file (path_name input_file) output_json
                    embedding_model None
      else (0, [])
  end.

(** ** A reader and a printer for plain JSON

    They stand in for [json.loads] and [json.dumps] in the sample
    environments only, and cover what the sample texts hold: objects
    without repeated keys, arrays, strings without escapes, unsigned
    integers without a leading zero, and the three literals.  Negative
    numbers, fractions, exponents and escapes are refused; an object with a
    repeated key is read with both entries, where [json.loads] keeps the
    last. *)

Definition dq : string := String "034"%char EmptyString.

Definition json_ws (c : ascii) : bool :=
  let n := nat_of_ascii c in (n =? 32) || (n =? 9) || (n =? 10) || (n =? 13).

Definition is_digit (c : ascii) : bool :=
  let n := nat_of_ascii c in (48 <=? n) && (n <=? 57).

(** After an opening quote: the literal and what follows the closing quote. *)
Fixpoint lex_string (s : string) : option (string * string) :=
  match s with
  | EmptyString => None
  | String c r =>
      if Ascii.eqb c "034"%char then Some (EmptyString, r)
      else if Ascii.eqb c "\"%char then None
      else match lex_string r with
           | Some (lit, rest) => Some (String c lit, rest)
           | None => None
           end
  end.

Fixpoint lex_digits (s : string) (acc : nat) : nat * string :=
  match s with
  | EmptyString => (acc, EmptyString)
  | String c r =>
      if is_digit c then lex_digits r (10 * acc + (nat_of_ascii c - 48))
      else (acc, s)
  end.

Fixpoint drop (n : nat) (s : string) : string :=
  match n, s with
  | S n', String _ r => drop n' r
  | _, _ => s
  end.

Definition push (p : piece) (o : option (list piece)) : option (list piece) :=
  match o with Some ts => Some (p :: ts) | None => None end.

Fixpoint lex (fuel : nat) (s : string) : option (list piece) :=
  match fuel with
  | 0 => None
  | S f =>
      match s with
      | EmptyString => Some []
      | String c r =>
          if json_ws c then lex f r
          else if Ascii.eqb c "{"%char then push LBrace (lex f r)
          else if Ascii.eqb c "}"%char then push RBrace (lex f r)
          else if Ascii.eqb c "["%char then push LBracket (lex f r)
          else if Ascii.eqb c "]"%char then push RBracket (lex f r)
          else if Ascii.eqb c ","%char then push Comma (lex f r)
          else if Ascii.eqb c "034"%char then
            match lex_string r with
            | Some (lit, rest) =>
                match lstrip_by json_ws rest with
                | String ":"%char rest' => push (Key lit) (lex f rest')
                | _ => push (Value (PStr lit)) (lex f rest)
                end
            | None => None
            end
          else if is_digit c then
            if Ascii.eqb c "0"%char
               && match r with String d _ => is_digit d | EmptyString => false end
            then None
            else
              let '(n, rest) := lex_digits s 0 in push (Value (PInt n)) (lex f rest)
          else if startswith "true" s then push (Value (PBool true)) (lex f (drop 4 s))
          else if startswith "false" s then push (Value (PBool false)) (lex f (drop 5 s))
          else if startswith "null" s then push (Value PNone) (lex f (drop 4 s))
          else None
      end
  end.

Definition plain_json_loads (s : string) : option pyval :=
  match lex (S (String.length s)) s with
  | Some ts => parse_document ts
  | None => None
  end.

Fixpoint spaces (n : nat) : string :=
  match n with 0 => EmptyString | S n' => String " "%char (spaces n') end.

Fixpoint join_lines (l : list string) : string :=
  match l with
  | [] => EmptyString
  | x :: r => match r with
              | [] => x
              | _ :: _ => x +:+ "," +:+ String "010"%char (join_lines r)
              end
  end.

Definition bracketed (opening closing : string) (lvl : nat) (items : list string)
  : string :=
  match items with
  | [] => opening +:+ closing
  | _ :: _ =>
      opening +:+ String "010"%char (join_lines items)
      +:+ String "010"%char (spaces (2 * lvl)) +:+ closing
  end.

(** [json.dumps(v, indent=2)] at nesting level [lvl]. *)
Fixpoint plain_json_dumps (lvl : nat) (v : pyval) : string :=
  match v with
  | PNone => "null"
  | PBool true => "true"
  | PBool false => "false"
  | PInt n => str_of_nat n
  | PStr s => dq +:+ s +:+ dq
  | PList l =>
      bracketed "[" "]" lvl
        (map (fun x => spaces (2 * S lvl) +:+ plain_json_dumps (S lvl) x) l)
  | PDict d =>
      bracketed "{" "}" lvl
        (map (fun kv => spaces (2 * S lvl) +:+ dq +:+ fst kv +:+ dq +:+ ": "
                        +:+ plain_json_dumps (S lvl) (snd kv)) d)
  | PSet _ => EmptyString
  end.

(** ** Sample inputs *)

(** The text [[{"a":1},{"a":2}]]. *)
Definition two_items_text : string :=
  "[{" +:+ dq +:+ "a" +:+ dq +:+ ":1},{" +:+ dq +:+ "a" +:+ dq +:+ ":2}]".

(** A text that is not JSON. *)
Definition broken_text : string := "{not json".

(** A machine with two files and a tokenizer cache holding one model. *)
Definition sample_env : env :=
  {| read_text := fun p =>
       if String.eqb p "data/items.json" then Some two_items_text
       else if String.eqb p "data/broken.json" then Some broken_text
       else None;
     tokenizer_loads := fun m => String.eqb m "intfloat/multilingual-e5-base";
     json_loads := plain_json_loads;
     json_dumps_text := plain_json_dumps 0;
     mkdir_ok := fun _ => true;
     open_ok := fun _ => true;
     dump_stops := fun _ => None;
     exists_file := fun p =>
       String.eqb p "data/items.json" || String.eqb p "data/broken.json"
       || String.eqb p "data/report.pdf";
     url_download := fun _ => None;
     staged_result := fun _ => 3 |}.

(** The same machine without network and with an empty tokenizer cache:
    [AutoTokenizer.from_pretrained] raises for every model. *)
Definition offline_env : env :=
  {| read_text := read_text sample_env;
     tokenizer_loads := fun _ => false;
     json_loads := plain_json_loads;
     json_dumps_text := plain_json_dumps 0;
     mkdir_ok := fun _ => true;
     open_ok := fun _ => true;
     dump_stops := fun _ => None;
     exists_file := exists_file sample_env;
     url_download := fun _ => None;
     staged_result := fun _ => 3 |}.

(** The same machine with an output volume on which nothing can be
    created. *)
Definition read_only_env : env :=
  {| read_text := read_text sample_env;
     tokenizer_loads := tokenizer_loads sample_env;
     json_loads := plain_json_loads;
     json_dumps_text := plain_json_dumps 0;
     mkdir_ok := fun _ => false;
     open_ok := fun _ => false;
     dump_stops := fun _ => None;
     exists_file := exists_file sample_env;
     url_download := fun _ => None;
     staged_result := fun _ => 3 |}.

End JsonDirect.


(* ===================================================================== *)
(** * The orchestrator: [DocumentPipeline.process] and [process_batch] *)
(* ===================================================================== *)

Module Pipeline.
Import PyStr PyVal Fs Writer.

(** ** [md_converter.save_markdown_async] *)

(** The operations of one call: the lock of the path is taken, the text
    goes to a temporary file, and the temporary file is renamed. *)
Definition save_markdown_async_ops (content output_path : string)
  : list (fs_op string) :=
  let temp_file := with_suffix output_path ".tmp" in
  [ OpLockAcquire output_path;
    OpOpenW temp_file; OpWrite temp_file content; OpClose temp_file;
    OpRename temp_file output_path;
    OpLockRelease output_path ].

(** ** The pipeline object and its surroundings *)

(** One item returned by [extract_and_ocr_images]. *)
Record ocr_item := {
  image_index : nat;
  extracted_text : string;
  image_format : string
}.

(** What a call obtains from outside. *)
Record world := {
  validate_input_ok : string -> bool;   (* [validate_input] returns *)
  engine_succeeds : string -> bool;     (* the conversion returns with status SUCCESS *)
  markdown_request : string -> request; (* what the chunker reads and converts *)
  ocr_results : string -> option (list ocr_item)  (* [None]: it raises *)
}.

(** [self.temp_dir] and [self.cleanup_temp]. *)
Record pipeline := {
  temp_dir : string;
  cleanup_temp : bool
}.

(** The part of the file system the calls share. *)
Record pstate := {
  temp_dir_exists : bool;
  files : gmap string (list (list piece))
}.

(** The dictionary a call returns ([total_chunks] is the sum of the two
    counts; [markdown_path] and [name] are left out). *)
Record result := {
  success : bool;
  error : option string;
  input_source : string;
  output_json : option string;
  num_chunks : nat;
  num_ocr_chunks : nat
}.

Definition total_chunks (r : result) : nat := num_chunks r + num_ocr_chunks r.

Definition failed (source message : string) : result :=
  {| success := false; error := Some message; input_source := source;
     output_json := None; num_chunks := 0; num_ocr_chunks := 0 |}.

Definition succeeded (source output : string) (n n_ocr : nat) : result :=
  {| success := true; error := None; input_source := source;
     output_json := Some output; num_chunks := n; num_ocr_chunks := n_ocr |}.

(** [convert_single_async(input_source, Path(self.temp_dir), config)]: the
    path of the markdown file, or [None].  Every exception is caught inside
    and turned into [None]; the markdown is saved into the temporary
    directory, which must exist for the save to succeed. *)
Definition convert_single_async (w : world) (pl : pipeline) (st : pstate)
           (input_source : string) : option string :=
  if negb (validate_input_ok w input_source) then None
  else if negb (engine_succeeds w input_source) then None
  else if temp_dir_exists st
       then Some (path_join (temp_dir pl) (path_stem input_source +:+ ".md"))
       else None.

(** The chunk built for one OCR result. *)
Definition ocr_chunk (id name : option string) (item : ocr_item) : pyval :=
  let opt (o : option string) :=
    match o with Some s => PStr s | None => PNone end in
  let prefix :=
    match id with
    | Some s => if is_empty s then "doc" else s
    | None => "doc"
    end in
  PDict [ ("id", PStr (prefix +:+ "_ocr_" +:+ str_of_nat (image_index item)));
          ("text", PStr (extracted_text item));
          ("metadata",
           PDict [ ("id", opt id); ("name", opt name);
                   ("type", PStr "image_ocr");
                   ("image_index", PInt (image_index item));
                   ("image_format", PStr (image_format item)) ]) ].

(** The late append: [json.load] of the whole file, [data['chunks'].append]
    for each OCR result, [json.dump] over the same path.  [None] when an
    exception is raised before the file is reopened. *)
Definition ocr_append (fs : gmap string (list (list piece))) (path : string)
           (new_chunks : list pyval)
  : option (list (fs_op (list piece))) :=
  match tokens_at fs path with
  | None => None
  | Some ts =>
      match parse_document ts with
      | Some (PDict d) =>
          match dict_get d "chunks" with
          | Some (PList cs) =>
              let data := PDict (dict_set d "chunks" (PList (cs ++ new_chunks))) in
              Some [ OpRead path; OpOpenW path; OpWrite path [Value data];
                     OpClose path ]
          | _ => None
          end
      | _ => None
      end
  end.

(** The [finally] clause. *)
Definition finally_cleanup (pl : pipeline) (st : pstate) : pstate :=
  if cleanup_temp pl && temp_dir_exists st
  then {| temp_dir_exists := false; files := files st |}
  else st.

Definition is_markdown_source (input_source : string) : bool :=
  let sfx := lower (path_suffix input_source) in
  String.eqb sfx ".md" || String.eqb sfx ".markdown".

(** [DocumentPipeline.process], for an output path that is not a
    directory: the returned dictionary, the operations on the output path,
    and the state left behind.  The markdown file itself (kept or removed
    at the end) is not tracked.  Where the source reports [str(e)] of an
    exception raised by a library, the message is a fixed text standing
    for it. *)
Definition process (w : world) (pl : pipeline) (input_source output_json_path : string)
           (id name : option string) (ocr : bool) (st : pstate)
  : result * list (fs_op (list piece)) * pstate :=
  let markdown_path :=
    if is_markdown_source input_source then Some input_source
    else convert_single_async w pl st input_source in
  match markdown_path with
  | None =>
      (failed input_source
         ("Failed to convert '" +:+ input_source +:+ "' to markdown"),
       [], finally_cleanup pl st)
  | Some mp =>
      let rq := markdown_request w mp in
      let n := returned (process_markdown_file rq) in
      let ops1 := process_markdown_file_ops output_json_path rq in
      let st1 := {| temp_dir_exists := temp_dir_exists st;
                    files := apply_ops (files st) ops1 |} in
      if ocr then
        match ocr_results w mp with
        | None =>
            (failed input_source "image extraction raised", ops1,
             finally_cleanup pl st1)
        | Some [] =>
            (succeeded input_source output_json_path n 0, ops1,
             finally_cleanup pl st1)
        | Some (item :: items) =>
            match ocr_append (files st1) output_json_path
                             (map (ocr_chunk id name) (item :: items)) with
            | None =>
                (failed input_source "chunk file could not be loaded", ops1,
                 finally_cleanup pl st1)
            | Some ops2 =>
                (succeeded input_source output_json_path n
                           (length (item :: items)),
                 ops1 ++ ops2,
                 finally_cleanup pl
                   {| temp_dir_exists := temp_dir_exists st;
                      files := apply_ops (files st1) ops2 |})
            end
        end
      else
        (succeeded input_source output_json_path n 0, ops1,
         finally_cleanup pl st1)
  end.

(** [process_one(source)] without the semaphore. *)
Definition process_one (w : world) (pl : pipeline) (output_dir : string)
           (ocr : bool) (source : string) (st : pstate)
  : result * list (fs_op (list piece)) * pstate :=
  process w pl source
          (path_join output_dir (path_stem source +:+ "_chunks.json"))
          None None ocr st.

(** [process_batch] with the jobs run one after the other in input order,
    which is the schedule the semaphore enforces for [max_concurrent = 1].
    [asyncio.gather] returns the results in input order under every
    schedule.  For [max_concurrent > 1] the jobs interleave on the one
    pipeline they share; this function does not describe those runs (the
    admission of jobs under any bound is [Gate] below). *)
Fixpoint process_batch (w : world) (pl : pipeline) (input_sources : list string)
         (output_dir : string) (ocr : bool) (st : pstate)
  : list result * pstate :=
  match input_sources with
  | [] => ([], st)
  | source :: rest =>
      let '(r, _, st1) := process_one w pl output_dir ocr source st in
      let '(rs, st2) := process_batch w pl rest output_dir ocr st1 in
      (r :: rs, st2)
  end.

(** ** Sample inputs *)

(** A machine on which [missing.pdf] does not exist and every other source
    converts to the same two-chunk document. *)
Definition sample_world : world :=
  {| validate_input_ok := fun s => negb (String.eqb s "missing.pdf");
     engine_succeeds := fun _ => true;
     markdown_request := fun _ => sample_request;
     ocr_results := fun _ => Some [ {| image_index := 1;
                                       extracted_text := "Total 42";
                                       image_format := "png" |} ] |}.

(** A pipeline constructed without [temp_dir]: it made its own directory
    and removes it. *)
Definition own_temp_pipeline : pipeline :=
  {| temp_dir := "/tmp/doc_pipeline_k3"; cleanup_temp := true |}.

(** A pipeline constructed with a caller-supplied directory. *)
Definition given_temp_pipeline : pipeline :=
  {| temp_dir := "/srv/scratch"; cleanup_temp := false |}.

Definition fresh_state : pstate := {| temp_dir_exists := true; files := ∅ |}.

End Pipeline.

(* ===================================================================== *)
(** * The admission gate of [process_batch] *)
(* ===================================================================== *)

Module Gate.

(** Where a [process_one] task stands: before [async with semaphore],
    inside it (the call of [self.process] is in flight), or past it. *)
Inductive task := Waiting | Running | Done.

(** The semaphore counter and the tasks created by [asyncio.gather]. *)
Record sched := {
  sem_value : nat;
  tasks : list task
}.

(** [asyncio.Semaphore(max_concurrent)] and one task per source. *)
Definition start (max_concurrent : nat) (sources : nat) : sched :=
  {| sem_value := max_concurrent; tasks := replicate sources Waiting |}.

(** One scheduling step: a waiting task acquires the semaphore, which is
    possible only while the counter is positive, or a running task leaves
    the [async with] block and releases it. *)
Inductive step : sched -> sched -> Prop :=
| step_acquire (s : sched) (i : nat) (v : nat) :
    tasks s !! i = Some Waiting ->
    sem_value s = S v ->
    step s {| sem_value := v; tasks := <[i := Running]> (tasks s) |}
| step_release (s : sched) (i : nat) :
    tasks s !! i = Some Running ->
    step s {| sem_value := S (sem_value s); tasks := <[i := Done]> (tasks s) |}.

(** Reachability in any number of steps. *)
Inductive reachable (s0 : sched) : sched -> Prop :=
| reach_refl : reachable s0 s0
| reach_step (s s' : sched) : reachable s0 s -> step s s' -> reachable s0 s'.

(** The number of calls of [self.process] in flight. *)
Fixpoint count_running (ts : list task) : nat :=
  match ts with
  | [] => 0
  | Running :: r => S (count_running r)
  | _ :: r => count_running r
  end.

Definition in_flight (s : sched) : nat := count_running (tasks s).

(** Ten sources under [max_concurrent = 3], after three tasks were admitted
    and one of them finished. *)
Definition ten_sources_later : sched :=
  {| sem_value := 1;
     tasks := [Done; Running; Running; Waiting; Waiting; Waiting; Waiting;
               Waiting; Waiting; Waiting] |}.

End Gate.

(* ===================================================================== *)
(** * Reading chunk objects back *)
(* ===================================================================== *)

Module WriterView.
Import PyStr PyVal TableHeuristic Writer.

(** [chunk["metadata"]] *)
Definition metadata_of (v : pyval) : option (list (string * pyval)) :=
  match v with
  | PDict d => match dict_get d "metadata" with
               | Some (PDict m) => Some m
               | _ => None
               end
  | _ => None
  end.

(** [chunk["metadata"]["content_type"]] *)
Definition content_type_of (v : pyval) : option string :=
  match metadata_of v with
  | Some m => match dict_get m "content_type" with
              | Some (PStr s) => Some s
              | _ => None
              end
  | None => None
  end.

(** [chunk[key]] when it is a string. *)
Definition str_field (key : string) (v : pyval) : option string :=
  match v with
  | PDict d => match dict_get d key with
               | Some (PStr s) => Some s
               | _ => None
               end
  | _ => None
  end.

(** [chunk["table"]["body"]] *)
Definition table_body (v : pyval) : option pyval :=
  match v with
  | PDict d => match dict_get d "table" with
               | Some (PDict t) => dict_get t "body"
               | _ => None
               end
  | _ => None
  end.

(** The chunk objects the table loop and the text loop can write with the
    caller metadata [md]. *)
Definition table_chunk_of (md : list (string * pyval)) (v : pyval) : Prop :=
  exists t title k, t_data t <> [] /\ v = whole_table_chunk md t title k.

Definition text_chunk_of (md : list (string * pyval)) (v : pyval) : Prop :=
  exists c k,
    10 <= String.length (strip (c_clean c)) /\ c_is_table c = false
    /\ v = chunk_obj md c k.




(** The chunk objects written so far are [vs], in this order. *)
Definition body_values (name id : string) (st : wstate) (vs : list pyval) : Prop :=
  exists b, body_of name id st b /\ values_of b = vs.

(** No closing brace has been written. *)
Definition brace_free (st : wstate) : Prop := ~ In RBrace (concat (writes st)).

(** A run whose chunk iterator raises after one chunk was written. *)
Definition interrupted_request : request :=
  {| markdown_content := Some example_markdown;
     conversion := Some {| tables := [revenue_table];
                           chunks := [Yield prose_chunk; Raise] |};
     name := "report.md"; id := "doc-1";
     metadata := [("content_type", PStr "memo"); ("source", PStr "upload")] |}.

(** A caller who passes its own [section_title] and [content_type]. *)
Definition titled_request : request :=
  {| markdown_content := Some example_markdown;
     conversion := Some {| tables := [revenue_table];
                           chunks := [Yield prose_chunk] |};
     name := "report.md"; id := "doc-1";
     metadata := [("section_title", PStr "Draft"); ("content_type", PStr "memo");
                  ("source", PStr "upload")] |}.

End WriterView.

(* ===================================================================== *)
(** * Table utilities of [MarkdownChunker] *)
(* ===================================================================== *)

Module TableTools.
Import PyStr.

(** [sep.join(l)] *)
Fixpoint join (sep : string) (l : list string) : string :=
  match l with
  | [] => EmptyString
  | x :: r => match r with
              | [] => x
              | _ :: _ => x +:+ sep +:+ join sep r
              end
  end.

(** [s.split(c)] for a one-character separator. *)
Fixpoint split_on (c : ascii) (s : string) : list string :=
  match s with
  | EmptyString => [EmptyString]
  | String a r =>
      if Ascii.eqb a c then EmptyString :: split_on c r
      else match split_on c r with
           | h :: t => String a h :: t
           | [] => [String a EmptyString]
           end
  end.

(** [all(c in '-|: ' for c in line)] *)
Definition separator_char (c : ascii) : bool :=
  Ascii.eqb c "-" || Ascii.eqb c "|" || Ascii.eqb c ":" || Ascii.eqb c " ".

Fixpoint all_chars (p : ascii -> bool) (s : string) : bool :=
  match s with
  | EmptyString => true
  | String c r => p c && all_chars p r
  end.

(** [if cells and not cells[0]: cells = cells[1:]] *)
Definition drop_empty_head (cells : list string) : list string :=
  match cells with
  | c :: r => if is_empty c then r else cells
  | [] => []
  end.

(** [if cells and not cells[-1]: cells = cells[:-1]] *)
Definition drop_empty_last (cells : list string) : list string :=
  match cells with
  | [] => []
  | _ :: _ => if is_empty (List.last cells EmptyString)
              then removelast cells else cells
  end.

(** The body of the loop of [_parse_markdown_table] for one line: the row
    it appends, if any. *)
Definition parse_row (line : string) : option (list string) :=
  let line := strip line in
  if is_empty line then None
  else if all_chars separator_char line then None
  else
    let cells := map strip (split_on "|" line) in
    match drop_empty_last (drop_empty_head cells) with
    | [] => None
    | c :: r => Some (c :: r)
    end.

Fixpoint collect_rows (lines : list string) : list (list string) :=
  match lines with
  | [] => []
  | line :: rest =>
      match parse_row line with
      | Some row => row :: collect_rows rest
      | None => collect_rows rest
      end
  end.

(** [_parse_markdown_table(markdown)] *)
Definition parse_markdown_table (markdown : string) : list (list string) :=
  collect_rows (split_nl (strip markdown)).




(** [max(len(row) for row in table_data)] *)
Definition max_cols (table_data : list (list string)) : nat :=
  fold_right (fun row m => Nat.max (length row) m) 0 table_data.

(** One entry of [col_widths]. *)
Definition col_width (table_data : list (list string)) (col_idx : nat) : nat :=
  Nat.max
    (fold_left (fun max_width row =>
                  if col_idx <? length row
                  then Nat.max max_width (String.length (nth col_idx row EmptyString))
                  else max_width)
               table_data 0)
    3.

Definition col_widths (table_data : list (list string)) : list nat :=
  map (col_width table_data) (seq 0 (max_cols table_data)).

Fixpoint repeat_char (c : ascii) (n : nat) : string :=
  match n with 0 => EmptyString | S n' => String c (repeat_char c n') end.

(** [s.ljust(w)] *)
Definition ljust (w : nat) (s : string) : string :=
  s +:+ repeat_char " " (w - String.length s).

(** [row + [''] * (max_cols - len(row))] *)
Definition padded_row (n : nat) (row : list string) : list string :=
  row ++ repeat EmptyString (n - length row).

(** The line of one row. *)
Definition row_line (widths : list nat) (row : list string) : string :=
  let formatted_cells :=
    map (fun wc => ljust (fst wc) (snd wc))
        (combine widths (padded_row (length widths) row)) in
  "| " +:+ join " | " formatted_cells +:+ " |".

Definition separator_line (widths : list nat) : string :=
  "|" +:+ join "|" (map (fun w => repeat_char "-" (w + 2)) widths) +:+ "|".

(** [markdown_lines] as it stands before the final join. *)
Definition table_markdown_lines (table_data : list (list string)) : list string :=
  let widths := col_widths table_data in
  match table_data with
  | [] => []
  | first :: rest =>
      row_line widths first :: separator_line widths
      :: map (row_line widths) rest
  end.

(** [_table_to_markdown(table_data)] *)
Definition table_to_markdown (table_data : list (list string)) : string :=
  join (String "010"%char EmptyString) (table_markdown_lines table_data).


(** A cell that survives a trip through the markdown form: already
    stripped, and without a pipe or a line break. *)
Definition plain_char (c : ascii) : bool :=
  negb (Ascii.eqb c "|") && negb (Ascii.eqb c "010").

Definition clean_cell (c : string) : bool :=
  String.eqb (strip c) c && all_chars plain_char c.

(** Some cell of the row has a character outside ['-|: ']. *)
Definition has_content (row : list string) : bool :=
  existsb (fun c => negb (all_chars separator_char c)) row.

(** The text of a row line after its first pipe. *)
Fixpoint cells_line (formatted_cells : list string) : string :=
  match formatted_cells with
  | [] => EmptyString
  | f :: r => " " +:+ f +:+ " |" +:+ cells_line r
  end.

Definition sample_table : list (list string) :=
  [["Item"; "FY24"; "FY23"]; ["Revenue"; "1,200"]; [""; "n/a"; "7"]].

End TableTools.

(* ===================================================================== *)
(** * The staged branch of [chunk_document]: its chunk loop *)
(* ===================================================================== *)

Module StagedChunks.
Import PyStr JsonDirect.

(** One element of [chunk_obj.meta.doc_items]: its label, and for each
    entry of its [prov] the [page_no] attribute if it has one. *)
Record doc_item := {
  label : option string;
  prov : list (option nat)
}.

(** One chunk yielded by the chunker.  A chunk without [meta] has no
    [doc_items] and no [headings]. *)
Record staged_item := {
  contextualized : option string;  (* [contextualize(chunk)]; [None]: it raises *)
  doc_items : list doc_item;
  headings : list string
}.

(** ['table' in str(item.label).lower()] for some item. *)
Definition is_table (it : staged_item) : bool :=
  existsb (fun d => match label d with
                    | Some l => contains "table" (lower l)
                    | None => false
                    end) (doc_items it).

(** The first [page_no] among the [prov] of the first item, else 1. *)
Fixpoint first_page (prov : list (option nat)) : option nat :=
  match prov with
  | [] => None
  | Some p :: _ => Some p
  | None :: r => first_page r
  end.

Definition page_of (it : staged_item) : nat :=
  match doc_items it with
  | [] => 1
  | first_item :: _ => match first_page (prov first_item) with
                       | Some p => p
                       | None => 1
                       end
  end.

(** [str(headings[-1])[:100]], or the sentinel. *)
Definition section_of (it : staged_item) : string :=
  match headings it with
  | [] => "Unknown Section"
  | _ :: _ => String.substring 0 100 (List.last (headings it) EmptyString)
  end.

(** The body of the loop for one chunk: the [Chunk] appended, if any.  An
    exception and a short text both leave the list and the index as they
    are. *)
Definition staged_step (source_name : string) (chunk_index : nat)
           (it : staged_item) : option Chunk :=
  match contextualized it with
  | None => None
  | Some text =>
      if is_empty text || (String.length (strip text) <? 10) then None
      else Some {| chunk_id := source_name +:+ "_chunk_" +:+ fmt_04d chunk_index;
                   content := text;
                   content_type := if is_table it then "table" else "text";
                   page_number := Some (page_of it);
                   section_title := Some (section_of it);
                   chunk_index := Some chunk_index |}
  end.

(** The loop, from [chunk_index = k]. *)
Fixpoint staged_loop (source_name : string) (k : nat) (items : list staged_item)
  : list Chunk :=
  match items with
  | [] => []
  | it :: rest =>
      match staged_step source_name k it with
      | Some c => c :: staged_loop source_name (S k) rest
      | None => staged_loop source_name k rest
      end
  end.

Definition sample_items : list staged_item :=
  [ {| contextualized := Some "Revenue grew in every segment.";
       doc_items := [ {| label := Some "text"; prov := [None; Some 4] |} ];
       headings := ["Overview"; "Revenue"] |};
    {| contextualized := None; doc_items := []; headings := [] |};
    {| contextualized := Some "n/a"; doc_items := []; headings := [] |};
    {| contextualized := Some "| A | B | 2024 | 2025 |";
       doc_items := [ {| label := Some "DocItemLabel.TABLE"; prov := [] |} ];
       headings := [] |} ].

End StagedChunks.

(* ===================================================================== *)
(** * [md_converter]: unique file names *)
(* ===================================================================== *)

Module Converter.
Import PyStr.

(** [output_dir / f"{base_name}{extension}"] for the first try and
    [output_dir / f"{base_name}_{counter}{extension}"] afterwards. *)
Definition candidate (base_name output_dir extension : string) (k : nat) : string :=
  match k with
  | 0 => path_join output_dir (base_name +:+ extension)
  | S _ => path_join output_dir (base_name +:+ "_" +:+ str_of_nat k +:+ extension)
  end.

(** The [while output_file.exists()] loop: [k] is the number of names tried
    so far, so the next one is made from [counter = S k]. *)
Fixpoint unique_loop (fuel : nat) (existing : gset string)
         (base_name output_dir extension : string) (k : nat) : option string :=
  match fuel with
  | 0 => None
  | S f =>
      let output_file := candidate base_name output_dir extension k in
      if decide (output_file ∈ existing)
      then unique_loop f existing base_name output_dir extension (S k)
      else Some output_file
  end.

(** [get_unique_filename(base_name, output_dir, extension)] on a directory
    tree whose existing paths are [existing]. *)
Definition get_unique_filename (existing : gset string)
           (base_name output_dir extension : string) : option string :=
  unique_loop (S (size existing)) existing base_name output_dir extension 0.

End Converter.

(* ===================================================================== *)
(** * [extract_and_ocr_images] and the exit status of a batch *)
(* ===================================================================== *)

Module Ocr.
Import PyStr TableTools Pipeline.

(** One match of the image pattern and what recognition returned for it:
    the recognised lines, or [None] when decoding or recognition raised. *)
Record image := {
  img_format : string;
  recognised : option (list string)
}.

(** [process_single_image(idx, img_format, base64_data)] *)
Definition process_single_image (idx : nat) (img : image) : option ocr_item :=
  match recognised img with
  | None => None
  | Some [] => None
  | Some (l :: ls) =>
      let extracted_text := join (String "010"%char EmptyString) (l :: ls) in
      if is_empty (strip extracted_text) then None
      else Some {| image_index := idx;
                   extracted_text := strip extracted_text;
                   image_format := img_format img |}
  end.

(** The gathered results with the [None] entries filtered out; [idx] is
    the index of the first image, 1 for the whole list. *)
Fixpoint ocr_from (idx : nat) (matches : list image) : list ocr_item :=
  match matches with
  | [] => []
  | img :: rest =>
      match process_single_image idx img with
      | Some r => r :: ocr_from (S idx) rest
      | None => ocr_from (S idx) rest
      end
  end.

Definition extract_and_ocr_images (matches : list image) : list ocr_item :=
  ocr_from 1 matches.

End Ocr.
(* ===================================================================== *)
(** * Properties of the string primitives *)
(* ===================================================================== *)

Module PyStrFacts.
Import PyStr.


Lemma is_empty_false (s : string) : is_empty s = false <-> s <> EmptyString.
Proof. destruct s; simpl; split; congruence. Qed.

Lemma prefix_app (p s : string) :
  String.prefix p s = true <-> exists t, s = p +:+ t.
Proof.
  revert s; induction p as [|a p IH]; intros s; simpl.
  - destruct s; split; eauto.
  - destruct s as [|b s]; simpl.
    + split; [discriminate | intros [t Ht]; discriminate].
    + destruct (ascii_dec a b) as [->|Hne].
      * rewrite IH. split; intros [t Ht]; exists t.
        -- now rewrite Ht.
        -- now injection Ht.
      * split; [discriminate | intros [t Ht]].
        injection Ht as Hba _. now subst.
Qed.

(** [contains] decides the substring relation. *)
Lemma contains_spec (sub s : string) :
  contains sub s = true <-> exists pre post, s = pre +:+ sub +:+ post.
Proof.
  induction s as [|c s IH]; cbn [contains].
  - rewrite orb_false_r, prefix_app. split.
    + intros [t Ht]. exists EmptyString, t. exact Ht.
    + intros [pre [post H]]. destruct pre; simpl in H; [eauto | discriminate].
  - rewrite orb_true_iff. split.
    + intros [H | H].
      * apply (prefix_app sub (String c s)) in H. destruct H as [t Ht].
        exists EmptyString, t. exact Ht.
      * apply IH in H. destruct H as [pre [post H]].
        exists (String c pre), post. simpl. now rewrite H.
    + intros [pre [post H]]. destruct pre as [|d pre]; simpl in H.
      * left. apply (prefix_app sub (String c s)). eauto.
      * right. apply IH. injection H as _ H. eauto.
Qed.

(** Splitting at the first newline. *)
Lemma split_nl_nonempty (s : string) : split_nl s <> [].
Proof.
  induction s as [|c s IH]; simpl; [discriminate|].
  destruct (Ascii.eqb c "010"); [discriminate|].
  destruct (split_nl s); discriminate.
Qed.

Lemma split_nl_first_line (l rest : string) :
  no_newline l = true ->
  split_nl (l +:+ String "010"%char rest) = l :: split_nl rest.
Proof.
  induction l as [|c l IH]; simpl; intros H.
  - reflexivity.
  - apply andb_true_iff in H as [Hc Hl]. apply negb_true_iff in Hc.
    rewrite Hc, (IH Hl). reflexivity.
Qed.

Lemma startswith_longer (c : ascii) (p s : string) :
  startswith (String c EmptyString) s = false ->
  startswith (String c p) s = false.
Proof.
  unfold startswith. destruct s as [|b s]; simpl; [reflexivity|].
  destruct (ascii_dec c b); [destruct s; discriminate | reflexivity].
Qed.

End PyStrFacts.

(* ===================================================================== *)
(** * Properties of the table heuristic *)
(* ===================================================================== *)

Module TableHeuristicFacts.
Import PyStr PyStrFacts TableHeuristic.

(** ** The scan window *)

Lemma down_from_split (n hi : nat) (l1 l2 : list nat) (i : nat) :
  down_from hi n = l1 ++ i :: l2 ->
  i < hi /\ hi <= i + n /\ (forall j, In j l1 <-> i < j < hi).
Proof.
  revert hi l1. induction n as [|n IH]; intros hi l1 H.
  - destruct l1; simpl in H; discriminate.
  - destruct hi as [|h]; [destruct l1; simpl in H; discriminate|].
    destruct l1 as [|a l1]; simpl in H; injection H as Ha Hrest.
    + subst. split; [lia|]. split; [lia|].
      intros j. simpl. split; [tauto | lia].
    + subst a. destruct (IH _ _ Hrest) as (Hlt & Hle & Hin).
      split; [lia|]. split; [lia|].
      intros j. simpl. rewrite Hin. split.
      * intros [<- | Hj]; lia.
      * intros Hj. destruct (Nat.eq_dec h j) as [->|Hne]; [now left | right; lia].
Qed.

Lemma down_from_In (n hi i : nat) :
  In i (down_from hi n) <-> i < hi /\ hi <= i + n.
Proof.
  revert hi. induction n as [|n IH]; intros hi; simpl.
  - split; [intros [] | lia].
  - destruct hi as [|h]; simpl; [split; [intros [] | lia]|].
    rewrite IH. split.
    + intros [<- | H]; lia.
    + intros H. destruct (Nat.eq_dec h i); [now left | right; lia].
Qed.

(** ** The subtitle loop *)

Lemma find_subtitle_some (lines : list string) (n j : nat) (s : string) :
  find_subtitle lines j n = Some s ->
  exists k, j <= k < j + n /\ line_at lines k = s /\ is_subtitle s = true
            /\ forall k', j <= k' < k -> is_subtitle (line_at lines k') = false.
Proof.
  revert j. induction n as [|n IH]; intros j H; simpl in H; [discriminate|].
  destruct (is_subtitle (line_at lines j)) eqn:E.
  - injection H as <-. exists j.
    split; [lia|]. split; [reflexivity|]. split; [exact E|].
    intros k' Hk'. lia.
  - destruct (IH _ H) as (k & Hk & Hl & Hs & Hfirst).
    exists k. split; [lia|]. split; [exact Hl|]. split; [exact Hs|].
    intros k' Hk'. destruct (Nat.eq_dec k' j) as [->|]; [exact E|].
    apply Hfirst. lia.
Qed.

Lemma find_subtitle_none (lines : list string) (n j : nat) :
  find_subtitle lines j n = None ->
  forall k, j <= k < j + n -> is_subtitle (line_at lines k) = false.
Proof.
  revert j. induction n as [|n IH]; intros j H k Hk; simpl in H; [lia|].
  destruct (is_subtitle (line_at lines j)) eqn:E; [discriminate|].
  destruct (Nat.eq_dec k j) as [->|]; [exact E|].
  apply (IH _ H). lia.
Qed.

Lemma is_subtitle_spec (s : string) :
  is_subtitle s = true <->
  startswith "(" s = true /\ endswith ")" s = true.
Proof.
  unfold is_subtitle. rewrite !andb_true_iff, negb_true_iff. split.
  - tauto.
  - intros [H1 H2]. repeat split; auto. destruct s; [discriminate | reflexivity].
Qed.

(** ** The backward loop *)

Lemma fallback_ok_nonempty (s : string) : fallback_ok s = true -> is_empty s = false.
Proof.
  unfold fallback_ok. rewrite !andb_true_iff, Nat.ltb_lt.
  intros [[[_ H] _] _]. destruct s; [simpl in H; lia | reflexivity].
Qed.

Lemma heading_nonempty (s : string) : startswith "##" s = true -> is_empty s = false.
Proof. destruct s; [discriminate | reflexivity]. Qed.

Lemma scan_back_no_heading (lines : list string) (start : nat)
      (idxs : list nat) (potential : option string) :
  (forall i, In i idxs -> startswith "##" (line_at lines i) = false) ->
  scan_back lines start idxs potential
  = (None, None, keep_or potential (first_fallback lines idxs)).
Proof.
  revert potential. induction idxs as [|i rest IH]; intros potential Hno; simpl.
  - destruct potential; reflexivity.
  - rewrite (Hno i (or_introl eq_refl)).
    assert (Hrest : forall j, In j rest -> startswith "##" (line_at lines j) = false)
      by (intros j Hj; apply Hno; now right).
    destruct (is_empty (line_at lines i)) eqn:Eempty.
    + destruct (fallback_ok (line_at lines i)) eqn:Efb.
      * apply fallback_ok_nonempty in Efb. congruence.
      * apply IH, Hrest.
    + destruct (fallback_ok (line_at lines i)) eqn:Efb.
      * rewrite (IH _ Hrest). destruct potential; reflexivity.
      * apply IH, Hrest.
Qed.

Lemma scan_back_heading (lines : list string) (start : nat)
      (l1 l2 : list nat) (i : nat) (potential : option string) :
  (forall j, In j l1 -> startswith "##" (line_at lines j) = false) ->
  startswith "##" (line_at lines i) = true ->
  scan_back lines start (l1 ++ i :: l2) potential
  = (Some (strip (lstrip_hash (line_at lines i))),
     find_subtitle lines (S i) (start - S i),
     keep_or potential (first_fallback lines l1)).
Proof.
  revert potential. induction l1 as [|a l1 IH]; intros potential Hno Hh; simpl.
  - rewrite Hh, (heading_nonempty _ Hh). destruct potential; reflexivity.
  - rewrite (Hno a (or_introl eq_refl)).
    assert (Hrest : forall j, In j l1 -> startswith "##" (line_at lines j) = false)
      by (intros j Hj; apply Hno; now right).
    destruct (is_empty (line_at lines a)) eqn:Eempty.
    + destruct (fallback_ok (line_at lines a)) eqn:Efb.
      * apply fallback_ok_nonempty in Efb. congruence.
      * apply IH; auto.
    + destruct (fallback_ok (line_at lines a)) eqn:Efb.
      * rewrite (IH _ Hrest Hh). destruct potential; reflexivity.
      * apply IH; auto.
Qed.

Lemma first_fallback_none (lines : list string) (idxs : list nat) :
  (forall j, In j idxs -> fallback_ok (line_at lines j) = false) ->
  first_fallback lines idxs = None.
Proof.
  induction idxs as [|i rest IH]; intros H; simpl; [reflexivity|].
  rewrite (H i (or_introl eq_refl)). apply IH. intros j Hj. apply H. now right.
Qed.

Lemma first_fallback_first (lines : list string) (l1 l2 : list nat) (i : nat) :
  (forall j, In j l1 -> fallback_ok (line_at lines j) = false) ->
  fallback_ok (line_at lines i) = true ->
  first_fallback lines (l1 ++ i :: l2) = Some (line_at lines i).
Proof.
  induction l1 as [|a l1 IH]; intros H Hi; simpl.
  - now rewrite Hi.
  - rewrite (H a (or_introl eq_refl)). apply IH; auto.
    intros j Hj. apply H. now right.
Qed.

(** ** The function past its guards *)

Lemma extract_anchored (content : string) (idx start : nat)
      (grid : list (list string)) :
  content <> EmptyString -> grid <> [] ->
  nth_error (table_starts_of content) idx = Some start ->
  extract_markdown_table_title_and_header (Some content) idx grid
  = let '(table_title, subtitle, potential) :=
      scan_back (split_nl content) start (down_from start 4) None in
    (if negb (truthy table_title) && truthy potential then potential else table_title,
     detect_header_rows grid, subtitle).
Proof.
  intros Hc Hg Hstart. unfold extract_markdown_table_title_and_header.
  destruct grid as [|row grid]; [congruence|].
  apply is_empty_false in Hc. rewrite Hc.
  unfold table_starts_of in Hstart. rewrite Hstart. reflexivity.
Qed.

Lemma extract_unanchored (md : option string) (idx : nat)
      (grid : list (list string)) :
  (forall content, md = Some content ->
     content = EmptyString \/ length (table_starts_of content) <= idx) ->
  extract_markdown_table_title_and_header md idx grid = (None, 1, None).
Proof.
  intros H. unfold extract_markdown_table_title_and_header.
  destruct md as [content|]; [|reflexivity].
  destruct grid as [|row grid]; [reflexivity|].
  destruct (H content eq_refl) as [-> | Hlen]; [reflexivity|].
  destruct (is_empty content); [reflexivity|].
  apply nth_error_None in Hlen. unfold table_starts_of in Hlen.
  now rewrite Hlen.
Qed.

(** ** Header rows *)

Lemma row_matches_spec (row : list string) :
  row_matches row = true <-> has_fiscal_token row.
Proof.
  unfold row_matches, has_fiscal_token. rewrite existsb_exists. split.
  - intros [tok [Hin Hc]]. apply contains_spec in Hc as [pre [post Hc]]. eauto.
  - intros (tok & pre & post & Hin & Heq). exists tok. split; [exact Hin|].
    apply contains_spec. eauto.
Qed.

Lemma detect_header_rows_cases (grid : list (list string)) :
  detect_header_rows grid
  = if 3 <=? length grid then
      if row_matches (nth 1 grid []) then
        if row_matches (nth 2 grid []) then 3 else 2
      else 1
    else 1.
Proof.
  unfold detect_header_rows.
  destruct (3 <=? length grid); [|reflexivity].
  destruct (row_matches (nth 1 grid [])); simpl; [|reflexivity].
  destruct (row_matches (nth 2 grid [])); reflexivity.
Qed.

End TableHeuristicFacts.

(* ===================================================================== *)
(** * Table heuristic: title, subtitle and header rows *)
(* ===================================================================== *)

Module TableHeuristicClaims.
Import PyStr PyStrFacts TableHeuristic TableHeuristicFacts.

Lemma fallback_ok_spec (s : string) : fallback_ok s = true <-> plain_title_line s.
Proof.
  unfold fallback_ok, plain_title_line.
  rewrite !andb_true_iff, !negb_true_iff, !Nat.ltb_lt. tauto.
Qed.

Lemma fallback_ok_not (s : string) : ~ plain_title_line s -> fallback_ok s = false.
Proof.
  intros H. destruct (fallback_ok s) eqn:E; [|reflexivity].
  apply fallback_ok_spec in E. contradiction.
Qed.

Lemma truthy_some (s : string) : s <> EmptyString -> truthy (Some s) = true.
Proof. intros H. simpl. apply is_empty_false in H. now rewrite H. Qed.

Lemma window_split (start i : nat) :
  i < start -> start <= i + 4 ->
  exists l1 l2, down_from start 4 = l1 ++ i :: l2
                /\ forall j, In j l1 <-> i < j < start.
Proof.
  intros H1 H2.
  assert (Hin : In i (down_from start 4)) by (apply down_from_In; lia).
  apply in_split in Hin as (l1 & l2 & Heq).
  exists l1, l2. split; [exact Heq|].
  apply (down_from_split _ _ _ _ _ Heq).
Qed.

(** C6, as stated, fails on a heading that consists of ['#'] only: the
    heading is the first [##] line of the backward scan, yet the title is
    the plain line below it. *)
Lemma C6_counterexample :
  let lines := split_nl bare_heading_markdown in
  nth_error (table_starts_of bare_heading_markdown) 0 = Some 2
  /\ startswith "##" (line_at lines 0) = true
  /\ startswith "##" (line_at lines 1) = false
  /\ title_of (extract_markdown_table_title_and_header
                 (Some bare_heading_markdown) 0 [["A"; "B"]])
     = Some "Quarterly revenue summary"
  /\ title_of (extract_markdown_table_title_and_header
                 (Some bare_heading_markdown) 0 [["A"; "B"]])
     <> Some (strip (lstrip_hash (line_at lines 0))).
Proof. vm_compute. repeat split; discriminate. Qed.

(** C6 (amended).  For a table anchored at line [start], let [i] be the
    closest line among the four lines before the anchor whose stripped
    text starts with [##].  If the heading text (leading ['#'] removed,
    then stripped) is not empty, it is the returned title.  The returned
    subtitle is the first line strictly between heading and anchor whose
    stripped text starts with ['('] and ends with [')'], and there is none
    exactly when no such line exists.  On the worked example the result is
    title "Revenue by Segment" and subtitle "(in millions)". *)
Theorem C6_heading_title_and_subtitle
        (content : string) (idx start i : nat) (grid : list (list string)) :
  content <> EmptyString -> grid <> [] ->
  nth_error (table_starts_of content) idx = Some start ->
  i < start -> start <= i + 4 ->
  startswith "##" (line_at (split_nl content) i) = true ->
  (forall j, i < j < start ->
             startswith "##" (line_at (split_nl content) j) = false) ->
  let lines := split_nl content in
  let heading := strip (lstrip_hash (line_at lines i)) in
  let r := extract_markdown_table_title_and_header (Some content) idx grid in
  (heading <> EmptyString -> title_of r = Some heading)
  /\ (heading = EmptyString ->
      (forall k, i < k < start -> plain_title_line (line_at lines k) ->
                 (forall j, k < j < start -> ~ plain_title_line (line_at lines j)) ->
                 title_of r = Some (line_at lines k))
      /\ ((forall k, i < k < start -> ~ plain_title_line (line_at lines k)) ->
          title_of r = Some EmptyString))
  /\ (forall s, subtitle_of r = Some s <->
        exists k, i < k < start /\ line_at lines k = s /\ parenthesised s
                  /\ forall k', i < k' < k -> ~ parenthesised (line_at lines k'))
  /\ extract_markdown_table_title_and_header (Some example_markdown) 0 example_grid
     = (Some "Revenue by Segment", 2, Some "(in millions)").
Proof.
  intros Hc Hg Hstart Hlt Hle Hhead Hfirst lines heading r.
  destruct (window_split start i Hlt Hle) as (l1 & l2 & Hwin & Hl1).
  assert (Hr : r = (if negb (truthy (Some heading))
                       && truthy (keep_or None (first_fallback lines l1))
                    then keep_or None (first_fallback lines l1) else Some heading,
                    detect_header_rows grid,
                    find_subtitle lines (S i) (start - S i))).
  { unfold r. rewrite (extract_anchored content idx start grid Hc Hg Hstart).
    rewrite Hwin. fold lines.
    rewrite (scan_back_heading lines start l1 l2 i None); [reflexivity| |exact Hhead].
    intros j Hj. apply Hfirst, Hl1, Hj. }
  split; [|split; [|split]].
  - intros Hne. rewrite Hr. unfold title_of. cbn [fst].
    now rewrite (truthy_some heading Hne).
  - intros Hempty. rewrite Hr, Hempty. unfold title_of. cbn [fst truthy is_empty negb andb keep_or].
    split.
    + intros k Hk Hplain Hclosest.
      assert (Hin : In k l1) by (apply Hl1, Hk).
      apply in_split in Hin as (a & b & Hab).
      assert (Hsplit : down_from start 4 = a ++ k :: (b ++ i :: l2))
        by (rewrite Hwin, Hab, <- app_assoc; reflexivity).
      destruct (down_from_split _ _ _ _ _ Hsplit) as (_ & _ & Ha).
      rewrite Hab, (first_fallback_first lines a b k).
      * rewrite truthy_some; [reflexivity|].
        destruct Hplain as (_ & Hlen & _).
        intros Hnil. rewrite Hnil in Hlen. simpl in Hlen. lia.
      * intros j Hj. apply fallback_ok_not, Hclosest, Ha, Hj.
      * now apply fallback_ok_spec.
    + intros Hnone. rewrite first_fallback_none; [reflexivity|].
      intros j Hj. apply fallback_ok_not, Hnone, Hl1, Hj.
  - intros s. rewrite Hr. unfold subtitle_of. cbn [snd]. split.
    + intros Hs. apply find_subtitle_some in Hs as (k & Hk & Hline & Hsub & Hmin).
      exists k. split; [lia|]. split; [exact Hline|].
      split; [now apply is_subtitle_spec|].
      intros k' Hk' Hp. apply is_subtitle_spec in Hp.
      rewrite Hmin in Hp; [discriminate | lia].
    + intros (k & Hk & Hline & Hp & Hmin).
      destruct (find_subtitle lines (S i) (start - S i)) as [s'|] eqn:E.
      * apply find_subtitle_some in E as (k0 & Hk0 & Hline0 & Hsub0 & Hmin0).
        destruct (Nat.lt_trichotomy k k0) as [Hlt0 | [-> | Hgt0]].
        -- apply is_subtitle_spec in Hp. rewrite <- Hline in Hp.
           rewrite Hmin0 in Hp; [discriminate | lia].
        -- congruence.
        -- exfalso. apply (Hmin k0); [lia|].
           rewrite Hline0. now apply is_subtitle_spec.
      * exfalso. apply is_subtitle_spec in Hp. rewrite <- Hline in Hp.
        rewrite (find_subtitle_none _ _ _ E k) in Hp; [discriminate | lia].
  - vm_compute. reflexivity.
Qed.

Lemma C6_heading_title_and_subtitle_witness :
  title_of (extract_markdown_table_title_and_header
              (Some example_markdown) 0 example_grid)
  = Some "Revenue by Segment".
Proof.
  refine (proj1 (C6_heading_title_and_subtitle example_markdown 0 2 0 example_grid
                   _ _ _ _ _ _ _) _).
  - discriminate.
  - discriminate.
  - vm_compute. reflexivity.
  - lia.
  - lia.
  - vm_compute. reflexivity.
  - intros j Hj. assert (j = 1) as -> by lia. vm_compute. reflexivity.
  - vm_compute. discriminate.
Defined.

(** A heading five lines above the anchor is out of reach although only
    blank lines separate it from the table. *)
Example heading_beyond_window :
  extract_markdown_table_title_and_header
    (Some ("## Far heading" +:+ nl +:+ nl +:+ nl +:+ nl +:+ nl +:+ "|A|B|"))
    0 [["A"; "B"]]
  = (None, 1, None).
Proof. vm_compute. reflexivity. Qed.

(** C7, as stated, fails when the markdown holds no anchor for the table:
    the three-row grid has a fiscal token in its second row, yet the
    header-row count is 1. *)
Lemma C7_counterexample :
  3 <= length example_grid
  /\ has_fiscal_token (nth 1 example_grid [])
  /\ ~ has_fiscal_token (nth 2 example_grid [])
  /\ header_rows_of (extract_markdown_table_title_and_header
                       (Some prose_markdown) 0 example_grid) = 1
  /\ header_rows_of (extract_markdown_table_title_and_header
                       (Some prose_markdown) 0 example_grid) <> 2.
Proof.
  split; [simpl; lia|]. split; [|split].
  - apply row_matches_spec. vm_compute. reflexivity.
  - intros H. apply row_matches_spec in H. vm_compute in H. discriminate.
  - vm_compute. split; [reflexivity | discriminate].
Qed.

Lemma nth_of_firstn3 (k : nat) (g g' : list (list string)) :
  k < 3 -> firstn 3 g' = firstn 3 g -> nth k g' [] = nth k g [].
Proof.
  intros Hk H.
  assert (Hn : forall l : list (list string), nth k (firstn 3 l) [] = nth k l []).
  { intros l. rewrite nth_firstn.
    destruct (k <? 3) eqn:E; [reflexivity | apply Nat.ltb_ge in E; lia]. }
  rewrite <- (Hn g'), <- (Hn g). now rewrite H.
Qed.

Lemma header_rows_anchored (content : string) (idx : nat)
      (grid : list (list string)) :
  content <> EmptyString -> grid <> [] ->
  idx < length (table_starts_of content) ->
  header_rows_of (extract_markdown_table_title_and_header (Some content) idx grid)
  = detect_header_rows grid.
Proof.
  intros Hc Hg Hidx.
  destruct (nth_error (table_starts_of content) idx) as [start|] eqn:E.
  - rewrite (extract_anchored content idx start grid Hc Hg E).
    destruct (scan_back _ _ _ _) as [[t s] p]. reflexivity.
  - apply nth_error_None in E. lia.
Qed.

Lemma header_rows_range (md : option string) (idx : nat)
      (grid : list (list string)) :
  let n := header_rows_of (extract_markdown_table_title_and_header md idx grid) in
  (n = 1 \/ n = detect_header_rows grid) /\ (length grid < 3 -> n = 1).
Proof.
  unfold extract_markdown_table_title_and_header.
  destruct md as [content|]; [|simpl; auto].
  destruct grid as [|row grid]; [simpl; auto|].
  destruct (is_empty content); [simpl; auto|].
  destruct (nth_error _ idx) as [start|]; [|simpl; auto].
  destruct (scan_back _ _ _ _) as [[t s] p]. unfold header_rows_of. cbn [fst snd].
  split; [now right|].
  intros Hlen. rewrite detect_header_rows_cases.
  destruct (3 <=? length (row :: grid)) eqn:E; [|reflexivity].
  apply Nat.leb_le in E. lia.
Qed.

(** C7 (amended).  The header-row count is 1, 2 or 3, and is 1 for every
    grid with fewer than three rows.  It is also 1 whenever the stored
    markdown is missing or empty or holds no table anchor for the index.
    When the markdown is non-empty and has an anchor for the index, and the
    grid has at least three rows: the count is 1 if the second row's
    lowercased, space-joined text contains no token of the fiscal
    vocabulary, 2 if the second row's text contains one and the third's
    does not, and 3 if both do.  Rows beyond the third never matter. *)
Theorem C7_header_row_count
        (md : option string) (idx : nat) (grid : list (list string)) :
  let n := header_rows_of (extract_markdown_table_title_and_header md idx grid) in
  (1 <= n <= 3)
  /\ (length grid < 3 -> n = 1)
  /\ ((forall content, md = Some content ->
         content = EmptyString \/ length (table_starts_of content) <= idx) ->
      n = 1)
  /\ (forall content,
        md = Some content -> content <> EmptyString ->
        idx < length (table_starts_of content) -> 3 <= length grid ->
        (~ has_fiscal_token (nth 1 grid []) -> n = 1)
        /\ (has_fiscal_token (nth 1 grid []) ->
            ~ has_fiscal_token (nth 2 grid []) -> n = 2)
        /\ (has_fiscal_token (nth 1 grid []) ->
            has_fiscal_token (nth 2 grid []) -> n = 3))
  /\ (forall grid',
        3 <= length grid -> 3 <= length grid' ->
        firstn 3 grid' = firstn 3 grid ->
        header_rows_of (extract_markdown_table_title_and_header md idx grid') = n).
Proof.
  intros n.
  destruct (header_rows_range md idx grid) as [Hrange Hshort]. fold n in Hrange, Hshort.
  assert (Hdetect : 1 <= detect_header_rows grid <= 3).
  { rewrite detect_header_rows_cases.
    destruct (3 <=? length grid); [|lia].
    destruct (row_matches (nth 1 grid [])); [|lia].
    destruct (row_matches (nth 2 grid [])); lia. }
  split; [destruct Hrange as [-> | ->]; lia|].
  split; [exact Hshort|].
  split.
  { intros Hun. unfold n. now rewrite (extract_unanchored md idx grid Hun). }
  split.
  - intros content -> Hc Hidx Hlen.
    assert (Hg : grid <> []) by (destruct grid; [simpl in Hlen; lia | discriminate]).
    assert (Hn : n = detect_header_rows grid)
      by (unfold n; now apply header_rows_anchored).
    rewrite Hn, detect_header_rows_cases.
    apply Nat.leb_le in Hlen. rewrite Hlen.
    destruct (row_matches (nth 1 grid [])) eqn:E1;
      destruct (row_matches (nth 2 grid [])) eqn:E2;
      repeat split; intros; try reflexivity;
      repeat match goal with
             | H : has_fiscal_token _ |- _ => apply row_matches_spec in H
             | H : ~ has_fiscal_token _ |- _ =>
                 exfalso; apply H; apply row_matches_spec; assumption
             end; congruence.
  - intros grid' Hlen Hlen' Hfirst. unfold n.
    unfold extract_markdown_table_title_and_header.
    destruct md as [content|]; [|reflexivity].
    destruct grid as [|row grid]; [simpl in Hlen; lia|].
    destruct grid' as [|row' grid']; [simpl in Hlen'; lia|].
    destruct (is_empty content); [reflexivity|].
    destruct (nth_error _ idx) as [start|]; [|reflexivity].
    destruct (scan_back _ _ _ _) as [[t s] p]. unfold header_rows_of. cbn [fst snd].
    rewrite !detect_header_rows_cases.
    apply Nat.leb_le in Hlen, Hlen'. rewrite Hlen, Hlen'.
    rewrite (nth_of_firstn3 1 _ _ ltac:(lia) Hfirst).
    rewrite (nth_of_firstn3 2 _ _ ltac:(lia) Hfirst). reflexivity.
Qed.

Lemma C7_header_row_count_witness :
  header_rows_of (extract_markdown_table_title_and_header
                    (Some example_markdown) 0 example_grid) = 2.
Proof.
  destruct (C7_header_row_count (Some example_markdown) 0 example_grid)
    as (_ & _ & _ & Hanchored & _).
  destruct (Hanchored example_markdown eq_refl) as (_ & H2 & _).
  - discriminate.
  - vm_compute. lia.
  - simpl. lia.
  - apply H2.
    + apply row_matches_spec. vm_compute. reflexivity.
    + intros H. apply row_matches_spec in H. vm_compute in H. discriminate.
Defined.

Lemma find_table_starts_skip (line : string) (rest : list string)
      (i : nat) (in_table : bool) :
  startswith "|" (strip line) = false ->
  find_table_starts (line :: rest) i in_table = find_table_starts rest (S i) false.
Proof.
  intros H. cbn [find_table_starts]. unfold is_table_line.
  rewrite H, (startswith_longer _ "--" _ H). reflexivity.
Qed.

(** C8, as stated, fails when the closest qualifying line lies more than
    four lines above the anchor.  In both documents the table is anchored
    at line 5, no line above it starts with [##], line 0 qualifies as a
    title and none of the lines 1 to 4 does (they are blank in the first
    document and start with ['*'] in the second), yet no title is
    returned. *)
Lemma C8_counterexample :
  (let lines := split_nl distant_title_markdown in
   nth_error (table_starts_of distant_title_markdown) 0 = Some 5
   /\ forallb (fun j => negb (startswith "##" (line_at lines j))) (seq 0 5) = true
   /\ fallback_ok (line_at lines 0) = true
   /\ forallb (fun j => negb (fallback_ok (line_at lines j))) (seq 1 4) = true
   /\ extract_markdown_table_title_and_header
        (Some distant_title_markdown) 0 [["A"; "B"]; ["1"; "2"]]
      = (None, 1, None))
  /\ (let lines := split_nl bulleted_markdown in
      nth_error (table_starts_of bulleted_markdown) 0 = Some 5
      /\ forallb (fun j => negb (startswith "##" (line_at lines j))) (seq 0 5) = true
      /\ fallback_ok (line_at lines 0) = true
      /\ forallb (fun j => negb (fallback_ok (line_at lines j))) (seq 1 4) = true
      /\ extract_markdown_table_title_and_header
           (Some bulleted_markdown) 0 [["A"; "B"]; ["1"; "2"]]
         = (None, 1, None)).
Proof. vm_compute. repeat split. Qed.

(** C8 (amended).  For a table anchored at line [start] with no [##] line
    among the four lines immediately before the anchor (blank lines
    counted): the title is the closest of those four lines whose stripped
    text does not start with ['|'] or ['*'] and has more than 10 and fewer
    than 150 characters, and there is no title when no line of the window
    qualifies, whatever lies further up.  In particular a 30-character
    plain line directly above a two-row table is returned as the title,
    with header-row count 1. *)
Theorem C8_fallback_title
        (content : string) (idx start : nat) (grid : list (list string)) :
  content <> EmptyString -> grid <> [] ->
  nth_error (table_starts_of content) idx = Some start ->
  (forall j, j < start -> start <= j + 4 ->
             startswith "##" (line_at (split_nl content) j) = false) ->
  let lines := split_nl content in
  let r := extract_markdown_table_title_and_header (Some content) idx grid in
  (forall i, i < start -> start <= i + 4 ->
             plain_title_line (line_at lines i) ->
             (forall j, i < j < start -> ~ plain_title_line (line_at lines j)) ->
             title_of r = Some (line_at lines i))
  /\ ((forall i, i < start -> start <= i + 4 ->
                 ~ plain_title_line (line_at lines i)) ->
      title_of r = None)
  /\ (forall line row1 row2,
        String.length line = 30 -> no_newline line = true ->
        strip line = line ->
        startswith "|" line = false -> startswith "*" line = false ->
        startswith "##" line = false ->
        extract_markdown_table_title_and_header
          (Some (plain_line_markdown line)) 0 [row1; row2]
        = (Some line, 1, None)).
Proof.
  intros Hc Hg Hstart Hnohead lines r.
  assert (Hr : r = (if truthy (first_fallback lines (down_from start 4))
                    then first_fallback lines (down_from start 4) else None,
                    detect_header_rows grid, None)).
  { unfold r. rewrite (extract_anchored content idx start grid Hc Hg Hstart).
    fold lines. rewrite scan_back_no_heading; [reflexivity|].
    intros j Hj. apply down_from_In in Hj. apply Hnohead; lia. }
  split; [|split].
  - intros i Hlt Hle Hplain Hclosest.
    destruct (window_split start i Hlt Hle) as (l1 & l2 & Hwin & Hl1).
    rewrite Hr, Hwin. unfold title_of. cbn [fst].
    rewrite (first_fallback_first lines l1 l2 i).
    + rewrite truthy_some; [reflexivity|].
      destruct Hplain as (_ & Hlen & _).
      intros Hempty. rewrite Hempty in Hlen. simpl in Hlen. lia.
    + intros j Hj. apply fallback_ok_not, Hclosest, Hl1, Hj.
    + now apply fallback_ok_spec.
  - intros Hnone. rewrite Hr. unfold title_of. cbn [fst].
    rewrite first_fallback_none; [reflexivity|].
    intros j Hj. apply down_from_In in Hj. apply fallback_ok_not, Hnone; lia.
  - intros line row1 row2 Hlen Hnl Hstrip Hbar Hstar Hhash.
    assert (Hne : is_empty line = false) by (destruct line; [discriminate | reflexivity]).
    assert (Hfb : fallback_ok line = true).
    { unfold fallback_ok. rewrite Hbar, Hstar, Hlen. reflexivity. }
    unfold extract_markdown_table_title_and_header, plain_line_markdown.
    assert (Hcontent : is_empty (line +:+ nl +:+ "|A|B|" +:+ nl +:+ "|1|2|") = false)
      by (destruct line; [discriminate | reflexivity]).
    rewrite Hcontent.
    change (line +:+ nl +:+ "|A|B|" +:+ nl +:+ "|1|2|")
      with (line +:+ String "010"%char ("|A|B|" +:+ nl +:+ "|1|2|")).
    rewrite (split_nl_first_line line _ Hnl).
    rewrite find_table_starts_skip by (now rewrite Hstrip).
    change (nth_error (find_table_starts (split_nl ("|A|B|" +:+ nl +:+ "|1|2|")) 1 false) 0)
      with (Some 1).
    cbn [down_from scan_back]. unfold line_at. cbn [nth].
    rewrite Hstrip, Hne, Hhash, Hfb. cbn [truthy negb andb].
    rewrite Hne. reflexivity.
Qed.

Lemma C8_fallback_title_witness :
  title_of (extract_markdown_table_title_and_header
              (Some (plain_line_markdown thirty_char_line)) 0
              [["A"; "B"]; ["1"; "2"]])
  = Some thirty_char_line.
Proof.
  refine (proj1 (C8_fallback_title (plain_line_markdown thirty_char_line) 0 1
                   [["A"; "B"]; ["1"; "2"]] _ _ _ _) 0 _ _ _ _).
  - discriminate.
  - discriminate.
  - vm_compute. reflexivity.
  - intros j Hlt Hle. assert (j = 0) as -> by lia. vm_compute. reflexivity.
  - lia.
  - lia.
  - vm_compute. repeat split; lia.
  - intros j Hj. lia.
Defined.

End TableHeuristicClaims.

(* ===================================================================== *)
(** * Properties of the streaming chunk writer *)
(* ===================================================================== *)

Module WriterFacts.
Import PyStr PyStrFacts PyVal TableHeuristic Writer.

Lemma values_of_app (a b : list piece) :
  values_of (a ++ b) = values_of a ++ values_of b.
Proof.
  induction a as [|p a IH]; simpl; [reflexivity|].
  destruct p; simpl; now rewrite IH.
Qed.

Lemma header_length_eq (name id : string) :
  length (concat (header_writes name id)) = header_length.
Proof. reflexivity. Qed.

Lemma skip_header (name id : string) (b : list piece) :
  skipn header_length (concat (header_writes name id) ++ b) = b.
Proof. reflexivity. Qed.

Lemma index_inv_init (name id : string) :
  index_inv name id {| writes := header_writes name id; Index := 0;
                       is_first_chunk := true |}.
Proof.
  exists []. split; [|reflexivity].
  unfold body_of. cbn [writes]. now rewrite app_nil_r.
Qed.

Lemma index_inv_separator (name id : string) (st : wstate) :
  index_inv name id st ->
  index_inv name id (separator st) /\ Index (separator st) = Index st.
Proof.
  intros (b & Hb & Hi). unfold separator.
  destruct (is_first_chunk st); cbn [Index writes write].
  - split; [|reflexivity]. exists b. split; assumption.
  - split; [|reflexivity]. exists (b ++ [Comma]). split.
    + unfold body_of in *. cbn [writes write].
      rewrite concat_app, Hb. cbn [concat]. now rewrite app_nil_r, app_assoc.
    + unfold indexed in *. cbn [Index write]. rewrite values_of_app. cbn [values_of].
      now rewrite app_nil_r.
Qed.

Lemma index_inv_commit (name id : string) (st : wstate) (v : pyval) :
  index_inv name id st -> index_of v = Some (Index st) ->
  index_inv name id (commit v st).
Proof.
  intros (b & Hb & Hi) Hv. exists (b ++ [Value v]). split.
  - unfold body_of in *. cbn [writes commit].
    rewrite concat_app, Hb. cbn [concat]. now rewrite app_nil_r, app_assoc.
  - unfold indexed in *. cbn [Index commit].
    rewrite values_of_app, map_app, Hi, seq_S, map_app. cbn [values_of map].
    now rewrite Hv.
Qed.

Lemma json_dumps_some (v text : pyval) : json_dumps v = Some text -> text = v.
Proof. unfold json_dumps. destruct (serializable v); congruence. Qed.

Lemma index_inv_table_step (name id : string) (md : option string)
      (metadata : list (string * pyval)) (k : nat) (t : table_item) (st : wstate) :
  index_inv name id st -> index_inv name id (table_step md metadata k t st).
Proof.
  intros Hinv. unfold table_step.
  destruct (t_data t) as [|row rows]; [exact Hinv|].
  destruct (index_inv_separator name id st Hinv) as [Hsep Hidx].
  destruct (json_dumps _) as [text|] eqn:E; [|exact Hsep].
  apply json_dumps_some in E. subst text.
  apply index_inv_commit; [exact Hsep|]. now rewrite Hidx.
Qed.

Lemma index_inv_table_loop (name id : string) (md : option string)
      (metadata : list (string * pyval)) (ts : list table_item) :
  forall (k : nat) (st : wstate),
    index_inv name id st -> index_inv name id (table_loop md metadata k ts st).
Proof.
  induction ts as [|t ts IH]; intros k st Hinv; cbn [table_loop]; [exact Hinv|].
  apply IH, index_inv_table_step, Hinv.
Qed.

Lemma index_inv_text_loop (name id : string) (metadata : list (string * pyval))
      (cs : list text_event) :
  forall st : wstate,
    index_inv name id st -> index_inv name id (fst (text_loop metadata cs st)).
Proof.
  induction cs as [|e cs IH]; intros st Hinv; cbn [text_loop]; [exact Hinv|].
  destruct e as [c|]; [|exact Hinv].
  destruct (is_empty (c_clean c) || (String.length (strip (c_clean c)) <? 10));
    [now apply IH|].
  destruct (c_is_table c); [now apply IH|].
  destruct (index_inv_separator name id st Hinv) as [Hsep Hidx].
  destruct (json_dumps _) as [text|] eqn:E; [|exact Hsep].
  apply json_dumps_some in E. subst text.
  apply IH, index_inv_commit; [exact Hsep|]. now rewrite Hidx.
Qed.

Lemma process_completed (rq : request) :
  completed (process_markdown_file rq) = true ->
  exists doc st,
    conversion rq = Some doc /\ final_state rq doc = (st, true)
    /\ process_markdown_file rq
       = {| returned := Index st; completed := true;
            issued := Some (writes st ++ footer_writes) |}.
Proof.
  unfold process_markdown_file, final_state.
  destruct (conversion rq) as [doc|]; [|discriminate].
  destruct (text_loop _ _ _) as [st ok] eqn:E. destruct ok; [|discriminate].
  intros _. exists doc, st. split; [reflexivity|]. now rewrite E.
Qed.

(** ** Well-formedness of the output when serialisation succeeds *)

Lemma elements_snoc (cs : list pyval) (c : pyval) :
  elements (cs ++ [c])
  = elements cs ++ (if is_nil cs then [Value c] else [Comma; Value c]).
Proof.
  induction cs as [|a cs IH]; [reflexivity|].
  destruct cs as [|b cs]; [reflexivity|].
  change (elements ((a :: b :: cs) ++ [c]))
    with (Value a :: Comma :: elements ((b :: cs) ++ [c])).
  rewrite IH. reflexivity.
Qed.

Lemma values_of_elements (cs : list pyval) : values_of (elements cs) = cs.
Proof.
  induction cs as [|a cs IH]; [reflexivity|].
  destruct cs as [|b cs]; [reflexivity|].
  change (values_of (elements (a :: b :: cs)))
    with (a :: values_of (elements (b :: cs))).
  now rewrite IH.
Qed.

Lemma elements_length (cs : list pyval) : length cs <= S (length (elements cs)).
Proof.
  induction cs as [|a cs IH]; [simpl; lia|].
  destruct cs as [|b cs]; [simpl; lia|].
  change (length (elements (a :: b :: cs)))
    with (S (S (length (elements (b :: cs))))).
  simpl length at 1. simpl length in IH at 1. lia.
Qed.

Lemma separated_commit (name id : string) (st : wstate) (cs : list pyval)
      (v : pyval) :
  separated name id st cs ->
  separated name id (commit v (separator st)) (cs ++ [v]).
Proof.
  intros [Hw Hf]. unfold separated, separator. rewrite elements_snoc.
  destruct cs as [|a cs]; cbn [is_nil] in *; rewrite Hf;
    cbn [commit write writes is_first_chunk].
  - split; [|reflexivity].
    rewrite concat_app, Hw. cbn [concat]. now rewrite app_nil_r.
  - split; [|simpl; exact Hf].
    rewrite !concat_app, Hw. cbn [concat]. rewrite !app_nil_r, <- !app_assoc.
    reflexivity.
Qed.

Lemma forallb_dict_set (d : list (string * pyval)) (k : string) (v : pyval) :
  forallb (fun kv => serializable (snd kv)) d = true ->
  serializable v = true ->
  forallb (fun kv => serializable (snd kv)) (dict_set d k v) = true.
Proof.
  intros Hd Hv. induction d as [|[k' v'] d IH]; simpl.
  - now rewrite Hv.
  - simpl in Hd. apply andb_true_iff in Hd as [Hv' Hd].
    destruct (String.eqb k' k); simpl.
    + now rewrite Hv, Hd.
    + now rewrite Hv', (IH Hd).
Qed.

Lemma serializable_rows (rows : list (list string)) :
  serializable (rows_value rows) = true.
Proof.
  unfold rows_value. cbn [serializable].
  induction rows as [|row rows IH]; [reflexivity|].
  cbn [map forallb]. rewrite IH, andb_true_r. cbn [serializable].
  induction row as [|c row IHr]; [reflexivity|]. cbn [map forallb]. exact IHr.
Qed.

Lemma serializable_chunk_metadata (metadata : list (string * pyval))
      (title kind : string) :
  serializable (PDict metadata) = true ->
  serializable (chunk_metadata metadata title kind) = true.
Proof.
  intros H. unfold chunk_metadata. cbn [serializable] in *.
  apply forallb_dict_set; [|reflexivity].
  apply forallb_dict_set; [exact H | reflexivity].
Qed.

Lemma dumps_table_chunk (metadata : list (string * pyval)) (t : table_item)
      (title : string) (k : nat) :
  serializable (PDict metadata) = true ->
  json_dumps (whole_table_chunk metadata t title k)
  = Some (whole_table_chunk metadata t title k).
Proof.
  intros H. unfold json_dumps.
  assert (E : serializable (whole_table_chunk metadata t title k) = true).
  { unfold whole_table_chunk. cbn [serializable forallb snd].
    rewrite serializable_rows.
    rewrite (serializable_chunk_metadata metadata title "table" H). reflexivity. }
  now rewrite E.
Qed.

Lemma dumps_chunk_obj (metadata : list (string * pyval)) (c : text_item) (k : nat) :
  serializable (PDict metadata) = true ->
  json_dumps (chunk_obj metadata c k) = Some (chunk_obj metadata c k).
Proof.
  intros H. unfold json_dumps.
  assert (E : serializable (chunk_obj metadata c k) = true).
  { unfold chunk_obj. cbn [serializable forallb snd].
    rewrite (serializable_chunk_metadata metadata _ "text" H). reflexivity. }
  now rewrite E.
Qed.

Lemma separated_table_loop (name id : string) (md : option string)
      (metadata : list (string * pyval)) (ts : list table_item) :
  serializable (PDict metadata) = true ->
  forall (k : nat) (st : wstate) (cs : list pyval),
    separated name id st cs ->
    exists cs', separated name id (table_loop md metadata k ts st) cs'.
Proof.
  intros Hm. induction ts as [|t ts IH]; intros k st cs Hsep; cbn [table_loop].
  - now exists cs.
  - unfold table_step. destruct (t_data t) as [|row rows]; [now apply (IH _ _ cs)|].
    rewrite (dumps_table_chunk metadata t _ _ Hm).
    eapply IH, separated_commit, Hsep.
Qed.

Lemma separated_text_loop (name id : string) (metadata : list (string * pyval))
      (cs0 : list text_event) :
  serializable (PDict metadata) = true ->
  forall (st st' : wstate) (cs : list pyval),
    separated name id st cs ->
    text_loop metadata cs0 st = (st', true) ->
    exists cs', separated name id st' cs'.
Proof.
  intros Hm. induction cs0 as [|e cs0 IH]; intros st st' cs Hsep Hrun;
    cbn [text_loop] in Hrun.
  - injection Hrun as <-. now exists cs.
  - destruct e as [c|]; [|discriminate].
    destruct (is_empty (c_clean c) || (String.length (strip (c_clean c)) <? 10));
      [now apply (IH st st' cs)|].
    destruct (c_is_table c); [now apply (IH st st' cs)|].
    rewrite (dumps_chunk_obj metadata c _ Hm) in Hrun.
    eapply IH; [|exact Hrun]. apply separated_commit, Hsep.
Qed.

(** ** Reading the output back *)

Lemma parse_elements_step (f : nat) (c : pyval) (r : list piece) :
  parse_elements (S (S f)) (Value c :: Comma :: r)
  = match parse_elements (S f) r with
    | Some (vs, r') => Some (c :: vs, r')
    | None => None
    end.
Proof. reflexivity. Qed.

Lemma parse_elements_ok (cs : list pyval) :
  forall (c : pyval) (rest : list piece) (fuel : nat),
    length cs + 2 <= fuel ->
    parse_elements fuel (elements (c :: cs) ++ RBracket :: rest)
    = Some (c :: cs, rest).
Proof.
  induction cs as [|c' cs IH]; intros c rest fuel Hfuel.
  - destruct fuel as [|[|f]]; [simpl in Hfuel; lia .. |]. reflexivity.
  - destruct fuel as [|[|f]]; [simpl in Hfuel; lia .. |].
    change (elements (c :: c' :: cs) ++ RBracket :: rest)
      with (Value c :: Comma :: (elements (c' :: cs) ++ RBracket :: rest)).
    rewrite parse_elements_step.
    rewrite (IH c' rest (S f)) by (simpl in Hfuel |- *; lia). reflexivity.
Qed.

Lemma parse_array_ok (cs : list pyval) (rest : list piece) (fuel : nat) :
  length cs + 2 <= fuel ->
  parse_value fuel (LBracket :: elements cs ++ RBracket :: rest)
  = Some (PList cs, rest).
Proof.
  intros Hfuel. destruct fuel as [|f]; [lia|].
  destruct cs as [|c cs]; [reflexivity|].
  assert (Hshape : exists ts, elements (c :: cs) = Value c :: ts)
    by (destruct cs; eexists; reflexivity).
  destruct Hshape as [ts Hts].
  pose proof (parse_elements_ok cs c rest f) as Hel.
  rewrite Hts in Hel |- *. cbn [app] in Hel |- *. cbn [parse_value].
  rewrite Hel by (simpl in Hfuel; lia). reflexivity.
Qed.

Lemma parse_output_ok (name id : string) (cs : list pyval) :
  parse_document (concat (header_writes name id) ++ elements cs
                  ++ concat footer_writes)
  = Some (expected_document name id cs).
Proof.
  unfold parse_document.
  remember (length (concat (header_writes name id) ++ elements cs
                    ++ concat footer_writes)) as n eqn:Hn.
  assert (Hfuel : exists f, n = 3 + f /\ length cs + 2 <= f).
  { exists (8 + length (elements cs)). split.
    - rewrite Hn, !length_app. simpl. lia.
    - pose proof (elements_length cs). lia. }
  destruct Hfuel as (f & -> & Hf).
  change (concat (header_writes name id) ++ elements cs ++ concat footer_writes)
    with (LBrace :: Key "name" :: Value (PStr name) :: Comma
          :: Key "id" :: Value (PStr id) :: Comma
          :: Key "chunks" :: LBracket :: elements cs ++ RBracket :: [RBrace]).
  cbn [parse_value parse_members Nat.add].
  rewrite (parse_array_ok cs [RBrace] f Hf). reflexivity.
Qed.

(** With metadata the encoder accepts, every completed run leaves a
    document that reads back as an object with [name], [id] and the array
    of the written chunks. *)
Theorem completed_run_reads_back (rq : request) :
  serializable (PDict (metadata rq)) = true ->
  completed (process_markdown_file rq) = true ->
  parse_document (file_content (process_markdown_file rq))
  = Some (expected_document (name rq) (id rq)
            (written_chunks (process_markdown_file rq))).
Proof.
  intros Hm Hdone.
  destruct (process_completed rq Hdone) as (doc & st & _ & Hfinal & ->).
  unfold final_state in Hfinal.
  assert (Hinit : separated (name rq) (id rq)
                    {| writes := header_writes (name rq) (id rq); Index := 0;
                       is_first_chunk := true |} []).
  { split; [|reflexivity]. cbn [writes elements]. now rewrite app_nil_r. }
  destruct (separated_table_loop (name rq) (id rq) (markdown_content rq)
              (metadata rq) (tables doc) Hm 0 _ _ Hinit) as [cs1 Hsep1].
  destruct (separated_text_loop (name rq) (id rq) (metadata rq) (chunks doc)
              Hm _ _ _ Hsep1 Hfinal) as [cs [Hw _]].
  unfold written_chunks, file_content. cbn [issued].
  rewrite concat_app, Hw, <- app_assoc, skip_header.
  rewrite values_of_app, values_of_elements. cbn [concat footer_writes app values_of].
  rewrite app_nil_r. apply parse_output_ok.
Qed.

End WriterFacts.

(* ===================================================================== *)
(** * Streaming chunk writer: chunk indices and document shape *)
(* ===================================================================== *)

Module WriterClaims.
Import PyStr PyVal TableHeuristic Writer WriterFacts.

(** C1.  When [process_markdown_file] reaches its normal return, the
    [Index] fields of the chunk objects in the output file, read in file
    order, are [0, 1, ..., n-1], where [n] is the returned count: the k-th
    chunk written carries index [k], whatever tables or yielded chunks
    were skipped on the way. *)
Theorem C1_index_sequence (rq : request) :
  completed (process_markdown_file rq) = true ->
  map index_of (written_chunks (process_markdown_file rq))
  = map Some (seq 0 (returned (process_markdown_file rq))).
Proof.
  intros Hdone.
  destruct (process_completed rq Hdone) as (doc & st & _ & Hfinal & ->).
  unfold final_state in Hfinal.
  pose proof (index_inv_text_loop (name rq) (id rq) (metadata rq) (chunks doc) _
                (index_inv_table_loop (name rq) (id rq) (markdown_content rq)
                   (metadata rq) (tables doc) 0 _
                   (index_inv_init (name rq) (id rq)))) as Hinv.
  rewrite Hfinal in Hinv. destruct Hinv as (b & Hb & Hi).
  unfold written_chunks, file_content. cbn [issued returned fst] in *.
  unfold body_of in Hb.
  rewrite concat_app, Hb, <- app_assoc, skip_header, values_of_app.
  cbn [concat footer_writes app values_of]. rewrite app_nil_r. exact Hi.
Qed.

Lemma C1_index_sequence_witness :
  map index_of (written_chunks (process_markdown_file sample_request))
  = [Some 0; Some 1]
  /\ returned (process_markdown_file sample_request) = 2.
Proof.
  split.
  - rewrite (C1_index_sequence sample_request); vm_compute; reflexivity.
  - vm_compute. reflexivity.
Defined.

(** C3 at the failing input: two readable tables, no committed text chunk,
    and caller metadata that [json.dumps] rejects.  The call reaches its
    normal return with count 0, and the file holds a separator with no
    chunk on either side of it, which is not a JSON document. *)
Theorem C3_separator_without_chunk :
  completed (process_markdown_file set_metadata_request) = true
  /\ returned (process_markdown_file set_metadata_request) = 0
  /\ file_content (process_markdown_file set_metadata_request)
     = [LBrace; Key "name"; Value (PStr "report.md"); Comma;
        Key "id"; Value (PStr "doc-1"); Comma;
        Key "chunks"; LBracket; Comma; RBracket; RBrace]
  /\ parse_document (file_content (process_markdown_file set_metadata_request))
     = None.
Proof. vm_compute. repeat split; reflexivity. Qed.

(** A run that commits nothing, with metadata the encoder accepts, leaves
    an empty [chunks] array. *)
Example empty_run_reads_back :
  parse_document (file_content (process_markdown_file empty_request))
  = Some (expected_document "empty.md" "doc-0" []).
Proof. vm_compute. reflexivity. Qed.

End WriterClaims.

(* ===================================================================== *)
(** * The JSON fast path *)
(* ===================================================================== *)

Module JsonDirectClaims.
Import PyStr PyVal Fs JsonDirect.

Lemma array_chunks_length (e : env) (source_name : string) (items : list pyval) :
  forall k, length (array_chunks e source_name k items) = length items.
Proof.
  induction items as [|item items IH]; intros k; simpl; [reflexivity|].
  now rewrite IH.
Qed.

Lemma array_chunks_nth (e : env) (source_name : string) (items : list pyval) :
  forall (k i : nat) (item : pyval),
    nth_error items i = Some item ->
    exists c, nth_error (array_chunks e source_name k items) i = Some c
              /\ content_type c = "json_array_item"
              /\ chunk_index c = Some (k + i)
              /\ content c = json_dumps_text e item.
Proof.
  induction items as [|x items IH]; intros k i item Hi.
  - destruct i; discriminate.
  - destruct i as [|i]; simpl in Hi.
    + injection Hi as ->. eexists. split; [reflexivity|].
      cbn [content_type chunk_index content]. rewrite Nat.add_0_r. auto.
    + destruct (IH (S k) i item Hi) as (c & Hc & Ht & Hk & Hcontent).
      exists c. split; [exact Hc|]. split; [exact Ht|]. split; [|exact Hcontent].
      rewrite Hk. f_equal. lia.
Qed.

Lemma cleanup_no_write (temp_file : option string) :
  forallb (fun op => negb (is_write_op op)) (cleanup temp_file) = true.
Proof.
  unfold cleanup. destruct temp_file as [t|]; [|reflexivity].
  destruct (is_empty t); reflexivity.
Qed.

Lemma cleanup_keeps_other (temp_file : option string) (path : string)
      (fs : gmap string (list (list piece))) :
  temp_file <> Some path ->
  apply_ops fs (cleanup temp_file) !! path = fs !! path.
Proof.
  intros Hne. unfold cleanup. destruct temp_file as [t|]; [|reflexivity].
  destruct (is_empty t); [reflexivity|].
  cbn [apply_ops fold_left apply_op]. apply lookup_delete_ne. congruence.
Qed.

Lemma fs_ops_no_engine_call (ops : list (fs_op (list piece))) :
  forallb (fun x => negb (is_engine_call x)) (map FsOp ops) = true.
Proof. induction ops as [|op ops IH]; [reflexivity | exact IH]. Qed.

(** C4, as stated, fails when the tokenizer cannot be loaded: the file is
    read and its content parses to an array of two elements, yet the
    function returns 0 and produces no chunk.  The same happens when the
    chunk file cannot be created. *)
Lemma C4_counterexample :
  read_text offline_env "data/items.json" = Some two_items_text
  /\ json_loads offline_env two_items_text
     = Some (PList [PDict [("a", PInt 1)]; PDict [("a", PInt 2)]])
  /\ chunk_json_directly offline_env "data/items.json" "items.json"
       "out/items_chunks.json" "intfloat/multilingual-e5-base" None
     = (0, [], [OpRead "data/items.json"])
  /\ chunk_json_directly read_only_env "data/items.json" "items.json"
       "out/items_chunks.json" "intfloat/multilingual-e5-base" None
     = (0, [], [OpRead "data/items.json"]).
Proof. vm_compute. repeat split. Qed.

(** C4 (amended).  Let the file be read and its content parse to a JSON
    array of [N] elements.  When the tokenizer loads and the save of the
    chunk file goes through (directory made, file opened, [json.dump]
    returns), [chunk_json_directly] returns [N] and saves [N] chunks, the
    i-th of which has content type ['json_array_item'], chunk index [i] and
    the i-th element as content.  When the tokenizer does not load or the
    save raises, it returns 0 and produces no chunk.  The text
    [[{"a":1},{"a":2}]] gives two chunks with indices 0 and 1.
    [chunk_document] reaches the staged engine on no [.json] input. *)
Theorem C4_json_array_items
        (e : env) (input_path source_name output_json embedding_model : string)
        (temp_file : option string) (json_content : string) (items : list pyval) :
  read_text e input_path = Some json_content ->
  json_loads e json_content = Some (PList items) ->
  let r := chunk_json_directly e input_path source_name output_json
                               embedding_model temp_file in
  let chunks := snd (fst r) in
  let saved := tokenizer_loads e embedding_model
               && save_succeeds e output_json (array_chunks e source_name 0 items) in
  (saved = true ->
   fst (fst r) = length items
   /\ length chunks = length items
   /\ (forall i item, nth_error items i = Some item ->
         exists c, nth_error chunks i = Some c
                   /\ content_type c = "json_array_item"
                   /\ chunk_index c = Some i
                   /\ content c = json_dumps_text e item)
   /\ In (OpWrite output_json [Value (PList (map asdict chunks))]) (snd r))
  /\ (saved = false -> fst (fst r) = 0 /\ chunks = [])
  /\ map (fun c => (content_type c, chunk_index c))
         (snd (fst (chunk_json_directly sample_env "data/items.json" "items.json"
                      "out/items_chunks.json" "intfloat/multilingual-e5-base" None)))
     = [("json_array_item", Some 0); ("json_array_item", Some 1)]
  /\ (String.eqb (lower (path_suffix input_path)) ".json" = true ->
      forallb (fun x => negb (is_engine_call x))
              (snd (dispatch e input_path source_name output_json
                             embedding_model temp_file)) = true).
Proof.
  intros Hread Hloads r chunks saved.
  split; [|split; [|split]].
  - intros Hsaved. unfold saved, save_succeeds in Hsaved.
    apply andb_true_iff in Hsaved as [Htok Hsave].
    apply andb_true_iff in Hsave as [Hsave Hdump].
    apply andb_true_iff in Hsave as [Hmk Hopen].
    assert (Hr : r = (length (array_chunks e source_name 0 items),
                      array_chunks e source_name 0 items,
                      [OpRead input_path; OpMkdir (path_parent output_json);
                       OpOpenW output_json;
                       OpWrite output_json
                         [Value (PList (map asdict (array_chunks e source_name 0 items)))];
                       OpClose output_json] ++ cleanup temp_file)).
    { unfold r, chunk_json_directly, try_body.
      rewrite Hread, Htok, Hloads. cbn [negb build_chunks].
      rewrite Hmk, Hopen. cbn [negb].
      destruct (dump_stops e _); [discriminate | reflexivity]. }
    unfold chunks. rewrite Hr. cbn [fst snd].
    split; [apply array_chunks_length|].
    split; [apply array_chunks_length|].
    split; [intros i item Hi; apply (array_chunks_nth e source_name items 0 i item Hi)|].
    simpl; auto.
  - intros Hsaved. unfold chunks, r, chunk_json_directly, try_body.
    rewrite Hread, Hloads. unfold saved, save_succeeds in Hsaved.
    destruct (tokenizer_loads e embedding_model); cbn [negb];
      [|split; reflexivity].
    cbn [build_chunks].
    destruct (mkdir_ok e (path_parent output_json)); cbn [negb];
      [|split; reflexivity].
    destruct (open_ok e output_json); cbn [negb]; [|split; reflexivity].
    destruct (dump_stops e _); [split; reflexivity | discriminate].
  - vm_compute. reflexivity.
  - intros Hjson. unfold dispatch. rewrite Hjson.
    destruct (chunk_json_directly _ _ _ _ _ _) as [[n cs] ops]. cbn [snd].
    apply fs_ops_no_engine_call.
Qed.

Lemma C4_json_array_items_witness :
  fst (fst (chunk_json_directly sample_env "data/items.json" "items.json"
              "out/items_chunks.json" "intfloat/multilingual-e5-base" None)) = 2.
Proof.
  refine (proj1 (proj1 (C4_json_array_items sample_env "data/items.json" "items.json"
                          "out/items_chunks.json" "intfloat/multilingual-e5-base" None
                          two_items_text
                          [PDict [("a", PInt 1)]; PDict [("a", PInt 2)]] _ _) _)).
  - reflexivity.
  - vm_compute. reflexivity.
  - vm_compute. reflexivity.
Defined.

(** C10.  When the file is read and its content is rejected by
    [json.loads], [chunk_json_directly] returns 0 and saves no chunk; it
    creates no directory and opens, writes or renames no file: all it does
    is read the input and unlink the temporary file if one was given, so the
    output path keeps what it held unless it is that temporary file.  With
    the tokenizer loaded, what ends the [try] block is the unbound
    [json_data]. *)
Theorem C10_unparsable_json
        (e : env) (input_path source_name output_json embedding_model : string)
        (temp_file : option string) (json_content : string) :
  read_text e input_path = Some json_content ->
  json_loads e json_content = None ->
  let r := chunk_json_directly e input_path source_name output_json
                               embedding_model temp_file in
  fst (fst r) = 0
  /\ snd (fst r) = []
  /\ snd r = OpRead input_path :: cleanup temp_file
  /\ forallb (fun op => negb (is_write_op op)) (snd r) = true
  /\ (forall fs : gmap string (list (list piece)),
        temp_file <> Some output_json ->
        apply_ops fs (snd r) !! output_json = fs !! output_json)
  /\ (tokenizer_loads e embedding_model = true ->
      snd (try_body e input_path source_name output_json embedding_model temp_file)
      = inl UnboundLocalError).
Proof.
  intros Hread Hloads r.
  assert (Hr : r = (0, [], OpRead input_path :: cleanup temp_file)).
  { unfold r, chunk_json_directly, try_body. rewrite Hread, Hloads.
    destruct (tokenizer_loads e embedding_model); reflexivity. }
  rewrite Hr. cbn [fst snd].
  split; [reflexivity|]. split; [reflexivity|]. split; [reflexivity|].
  split; [cbn [forallb is_write_op negb andb]; apply cleanup_no_write|].
  split.
  - intros fs Hne. change (apply_ops fs (OpRead input_path :: cleanup temp_file))
      with (apply_ops fs (cleanup temp_file)).
    now apply cleanup_keeps_other.
  - intros Htok. unfold try_body. now rewrite Hread, Htok, Hloads.
Qed.

Lemma C10_unparsable_json_witness :
  chunk_json_directly sample_env "data/broken.json" "broken.json"
    "out/broken_chunks.json" "intfloat/multilingual-e5-base" (Some "/tmp/dl.json")
  = (0, [], [OpRead "data/broken.json"; OpUnlink "/tmp/dl.json"]).
Proof.
  pose proof (C10_unparsable_json sample_env "data/broken.json" "broken.json"
                "out/broken_chunks.json" "intfloat/multilingual-e5-base"
                (Some "/tmp/dl.json") broken_text eq_refl eq_refl)
    as (H0 & Hnone & Hops & _).
  destruct (chunk_json_directly _ _ _ _ _ _) as [[n cs] ops].
  cbn [fst snd] in *. subst. reflexivity.
Defined.

End JsonDirectClaims.

(* ===================================================================== *)
(** * Writes to the chunk-output path *)
(* ===================================================================== *)

Module OutputPathClaims.
Import PyStr PyVal Fs Writer Pipeline.

Lemma writes_undisciplined (path : string) (held : bool)
      (ops : list (fs_op (list piece))) :
  disciplined path held (OpOpenW path :: ops) = false.
Proof. cbn [disciplined]. now rewrite String.eqb_refl. Qed.

Lemma map_write_no_lock (path : string) (ws : list (list piece)) :
  forallb (fun op => negb (is_lock_or_rename op)) (map (OpWrite path) ws) = true.
Proof. induction ws as [|w ws IH]; [reflexivity | exact IH]. Qed.

(** Whenever the output file is opened at all, it is opened under its own
    name, and the call takes no lock and renames nothing. *)
Lemma writer_never_locks (path : string) (rq : request) (doc : document) :
  conversion rq = Some doc ->
  disciplined path false (process_markdown_file_ops path rq) = false
  /\ forallb (fun op => negb (is_lock_or_rename op))
             (process_markdown_file_ops path rq) = true.
Proof.
  intros Hconv. unfold process_markdown_file_ops, process_markdown_file.
  rewrite Hconv. destruct (text_loop _ _ _) as [st ok].
  destruct ok; cbn [issued]; (split; [apply writes_undisciplined|]);
    cbn [forallb is_lock_or_rename negb andb]; rewrite forallb_app, map_write_no_lock;
    reflexivity.
Qed.

(** The late append reopens the output path itself. *)
Lemma ocr_append_never_locks (fs : gmap string (list (list piece)))
      (path : string) (new_chunks : list pyval) (ops : list (fs_op (list piece))) :
  ocr_append fs path new_chunks = Some ops ->
  disciplined path false ops = false
  /\ forallb (fun op => negb (is_lock_or_rename op)) ops = true
  /\ apply_ops fs (firstn 2 ops) !! path = Some [].
Proof.
  unfold ocr_append. intros H.
  destruct (tokens_at fs path) as [ts|]; [|discriminate].
  destruct (parse_document ts) as [[| | | | |d|]|]; try discriminate.
  destruct (dict_get d "chunks") as [[| | | |cs| |]|]; try discriminate.
  injection H as <-. split; [|split].
  - cbn [disciplined]. now rewrite String.eqb_refl.
  - reflexivity.
  - cbn [firstn apply_ops fold_left apply_op]. apply lookup_insert_eq.
Qed.

(** The sibling writer of [md_converter] keeps the discipline. *)
Lemma save_markdown_async_disciplined (content output_path : string) :
  with_suffix output_path ".tmp" <> output_path ->
  disciplined output_path false (save_markdown_async_ops content output_path) = true.
Proof.
  intros Hne. unfold save_markdown_async_ops. cbn [disciplined].
  rewrite String.eqb_refl. apply String.eqb_neq in Hne. rewrite Hne. reflexivity.
Qed.

(** C2 at the failing input: one run of the chunk writer on
    [out/report_chunks.json], followed by the append of one OCR chunk.  The
    writer opens the output path itself, takes no lock and renames nothing;
    once its first piece is written the path holds an opening brace only,
    which is not a document.  The append truncates the same path before it
    writes, again without lock or rename.  The markdown writer of
    [md_converter], in contrast, locks the path, writes a temporary file
    and renames it. *)
Theorem C2_output_written_in_place :
  let path := "out/report_chunks.json" in
  let ops := process_markdown_file_ops path sample_request in
  let after := apply_ops ∅ ops in
  disciplined path false ops = false
  /\ forallb (fun op => negb (is_lock_or_rename op)) ops = true
  /\ tokens_at (apply_ops ∅ (firstn 2 ops)) path = Some [LBrace]
  /\ parse_document [LBrace] = None
  /\ (exists ops2,
        ocr_append after path [PDict [("id", PStr "doc_ocr_1")]] = Some ops2
        /\ disciplined path false ops2 = false
        /\ forallb (fun op => negb (is_lock_or_rename op)) ops2 = true
        /\ tokens_at (apply_ops after (firstn 2 ops2)) path = Some [])
  /\ disciplined "tmp/report.md" false
       (save_markdown_async_ops "# Report" "tmp/report.md") = true.
Proof.
  cbv zeta.
  split; [apply (writer_never_locks _ sample_request _ eq_refl)|].
  split; [apply (writer_never_locks _ sample_request _ eq_refl)|].
  split; [vm_compute; reflexivity|].
  split; [reflexivity|].
  split; [|vm_compute; reflexivity].
  destruct (ocr_append (apply_ops ∅
              (process_markdown_file_ops "out/report_chunks.json" sample_request))
              "out/report_chunks.json" [PDict [("id", PStr "doc_ocr_1")]])
    as [ops2|] eqn:E.
  - exists ops2. split; [reflexivity|].
    destruct (ocr_append_never_locks _ _ _ _ E) as (H1 & H2 & H3).
    split; [exact H1|]. split; [exact H2|].
    unfold tokens_at. now rewrite H3.
  - exfalso. vm_compute in E. discriminate.
Qed.

End OutputPathClaims.

(* ===================================================================== *)
(** * Batches: one result per source, and what a job does to its siblings *)
(* ===================================================================== *)

Module BatchClaims.
Import PyStr PyVal Fs Writer Pipeline.

Lemma process_source (w : world) (pl : pipeline) (src out : string)
      (id name : option string) (ocr : bool) (st : pstate) :
  input_source (fst (fst (process w pl src out id name ocr st))) = src.
Proof.
  unfold process.
  destruct (if is_markdown_source src then _ else _) as [mp|]; [|reflexivity].
  destruct ocr; [|reflexivity].
  destruct (ocr_results w mp) as [[|item items]|]; try reflexivity.
  destruct (ocr_append _ _ _); reflexivity.
Qed.

(** A job that fails reports it in its own result. *)
Lemma process_failure_reported (w : world) (pl : pipeline) (src out : string)
      (id name : option string) (ocr : bool) (st : pstate) :
  let r := fst (fst (process w pl src out id name ocr st)) in
  success r = false ->
  exists message, error r = Some message /\ message <> EmptyString
                  /\ total_chunks r = 0.
Proof.
  unfold process.
  destruct (if is_markdown_source src then _ else _) as [mp|].
  - destruct ocr; [|discriminate].
    destruct (ocr_results w mp) as [[|item items]|]; try discriminate.
    + destruct (ocr_append _ _ _); [discriminate|].
      intros _. eexists. split; [reflexivity|]. split; [discriminate | reflexivity].
    + intros _. eexists. split; [reflexivity|]. split; [discriminate | reflexivity].
  - intros _. eexists. split; [reflexivity|]. split; [discriminate | reflexivity].
Qed.

(** One result per source, in input order. *)
Lemma process_batch_sources (w : world) (pl : pipeline) (output_dir : string)
      (ocr : bool) (sources : list string) :
  forall st,
    map input_source (fst (process_batch w pl sources output_dir ocr st)) = sources.
Proof.
  induction sources as [|src sources IH]; intros st; cbn [process_batch];
    [reflexivity|].
  destruct (process_one w pl output_dir ocr src st) as [[r ops] st1] eqn:E.
  specialize (IH st1).
  destruct (process_batch w pl sources output_dir ocr st1) as [rs st2].
  cbn [fst map] in *. rewrite IH. f_equal.
  unfold process_one in E.
  pose proof (process_source w pl src
                (path_join output_dir (path_stem src +:+ "_chunks.json"))
                None None ocr st) as Hsrc.
  now rewrite E in Hsrc.
Qed.

Lemma process_batch_length (w : world) (pl : pipeline) (output_dir : string)
      (ocr : bool) (sources : list string) (st : pstate) :
  length (fst (process_batch w pl sources output_dir ocr st)) = length sources.
Proof.
  rewrite <- (process_batch_sources w pl output_dir ocr sources st) at 2.
  now rewrite length_map.
Qed.

(** With a caller-supplied directory and no image OCR, a job's result does
    not depend on what ran before it. *)
Lemma process_result_given_dir (w : world) (pl : pipeline) (src out : string)
      (id name : option string) (st : pstate) :
  cleanup_temp pl = false -> temp_dir_exists st = true ->
  fst (fst (process w pl src out id name false st))
  = fst (fst (process w pl src out id name false fresh_state))
  /\ temp_dir_exists (snd (process w pl src out id name false st)) = true.
Proof.
  intros Hkeep Hdir. unfold process, convert_single_async, finally_cleanup.
  rewrite Hkeep, Hdir. cbn [andb temp_dir_exists fresh_state].
  destruct (is_markdown_source src);
    [split; [reflexivity | first [exact Hdir | reflexivity]]|].
  destruct (validate_input_ok w src); cbn [negb];
    [|split; [reflexivity | first [exact Hdir | reflexivity]]].
  destruct (engine_succeeds w src); cbn [negb];
    (split; [reflexivity | first [exact Hdir | reflexivity]]).
Qed.

Lemma batch_isolated_given_dir (w : world) (pl : pipeline) (output_dir : string)
      (sources : list string) :
  cleanup_temp pl = false ->
  forall st, temp_dir_exists st = true ->
    fst (process_batch w pl sources output_dir false st)
    = map (fun src =>
             fst (fst (process_one w pl output_dir false src fresh_state)))
          sources.
Proof.
  intros Hkeep. induction sources as [|src sources IH]; intros st Hdir;
    cbn [process_batch map]; [reflexivity|].
  unfold process_one at 1.
  destruct (process_result_given_dir w pl src
              (path_join output_dir (path_stem src +:+ "_chunks.json"))
              None None st Hkeep Hdir) as [Hres Hdir1].
  destruct (process w pl src _ None None false st) as [[r ops] st1].
  cbn [fst snd] in Hres, Hdir1.
  specialize (IH st1 Hdir1).
  destruct (process_batch w pl sources output_dir false st1) as [rs st2].
  cbn [fst] in *. unfold process_one. now rewrite Hres, IH.
Qed.

(** C5 at the failing input: a pipeline that owns its temporary directory,
    the batch [missing.pdf; report.pdf] with one job at a time.  Two
    results come back in input order and the failure of [missing.pdf] is
    reported in its result; but its [finally] clause removes the directory
    the next job saves its markdown into, so [report.pdf] fails in the
    batch although it succeeds with two chunks when processed alone.  A
    successful first job does the same to the second. *)
Theorem C5_sibling_fails_after_cleanup :
  let alone :=
    fst (fst (process_one sample_world own_temp_pipeline "out" false
                          "report.pdf" fresh_state)) in
  let batch :=
    fst (process_batch sample_world own_temp_pipeline
                       ["missing.pdf"; "report.pdf"] "out" false fresh_state) in
  let batch2 :=
    fst (process_batch sample_world own_temp_pipeline
                       ["summary.pdf"; "report.pdf"] "out" false fresh_state) in
  success alone = true /\ num_chunks alone = 2
  /\ map input_source batch = ["missing.pdf"; "report.pdf"]
  /\ map success batch = [false; false]
  /\ map error batch
     = [Some "Failed to convert 'missing.pdf' to markdown";
        Some "Failed to convert 'report.pdf' to markdown"]
  /\ map success batch2 = [true; false].
Proof. vm_compute. repeat split; reflexivity. Qed.

End BatchClaims.

(* ===================================================================== *)
(** * The admission gate *)
(* ===================================================================== *)

Module GateClaims.
Import Gate.

Lemma count_running_admit (ts : list task) :
  forall i, ts !! i = Some Waiting ->
            count_running (<[i := Running]> ts) = S (count_running ts).
Proof.
  induction ts as [|t ts IH]; intros i Hi; [destruct i; discriminate|].
  destruct i as [|i]; simpl in Hi.
  - injection Hi as ->. reflexivity.
  - change (<[S i := Running]> (t :: ts)) with (t :: <[i := Running]> ts).
    destruct t; cbn [count_running]; rewrite (IH i Hi); reflexivity.
Qed.

Lemma count_running_finish (ts : list task) :
  forall i, ts !! i = Some Running ->
            S (count_running (<[i := Done]> ts)) = count_running ts.
Proof.
  induction ts as [|t ts IH]; intros i Hi; [destruct i; discriminate|].
  destruct i as [|i]; simpl in Hi.
  - injection Hi as ->. reflexivity.
  - change (<[S i := Done]> (t :: ts)) with (t :: <[i := Done]> ts).
    destruct t; cbn [count_running]; rewrite <- (IH i Hi); reflexivity.
Qed.

Lemma count_running_start (n : nat) : count_running (replicate n Waiting) = 0.
Proof. induction n as [|n IH]; [reflexivity | exact IH]. Qed.

Lemma step_balance (s s' : sched) :
  step s s' -> in_flight s' + sem_value s' = in_flight s + sem_value s.
Proof.
  intros Hstep. destruct Hstep as [s i v Hi Hv | s i Hi];
    unfold in_flight; cbn [tasks sem_value].
  - rewrite (count_running_admit _ _ Hi), Hv. lia.
  - pose proof (count_running_finish _ _ Hi). lia.
Qed.

(** C9.  In every state the batch can reach, the calls of [self.process]
    in flight and the free slots of the semaphore add up to
    [max_concurrent]; so at most [max_concurrent] calls are in flight. *)
Theorem C9_in_flight_bounded (max_concurrent sources : nat) (s : sched) :
  reachable (start max_concurrent sources) s ->
  in_flight s + sem_value s = max_concurrent /\ in_flight s <= max_concurrent.
Proof.
  intros Hreach.
  assert (Hsum : in_flight s + sem_value s = max_concurrent).
  { induction Hreach as [|s s' _ IH Hstep].
    - unfold in_flight, start. cbn [tasks sem_value].
      now rewrite count_running_start.
    - now rewrite (step_balance s s' Hstep). }
  split; [exact Hsum | lia].
Qed.

Lemma C9_in_flight_bounded_witness :
  in_flight ten_sources_later = 2 /\ in_flight ten_sources_later <= 3.
Proof.
  split; [reflexivity|].
  apply (C9_in_flight_bounded 3 10 ten_sources_later).
  pose (s1 := {| sem_value := 2;
                 tasks := <[0 := Running]> (tasks (start 3 10)) |}).
  pose (s2 := {| sem_value := 1; tasks := <[1 := Running]> (tasks s1) |}).
  pose (s3 := {| sem_value := 0; tasks := <[2 := Running]> (tasks s2) |}).
  apply (reach_step _ s3).
  - apply (reach_step _ s2).
    + apply (reach_step _ s1).
      * apply (reach_step _ (start 3 10)); [apply reach_refl|].
        apply (step_acquire (start 3 10) 0 2); reflexivity.
      * apply (step_acquire s1 1 1); reflexivity.
    + apply (step_acquire s2 2 0); reflexivity.
  - apply (step_release s3 0). reflexivity.
Defined.

End GateClaims.

(* ===================================================================== *)
(** * More on the streaming chunk writer *)
(* ===================================================================== *)

Module WriterMore.
Import PyStr PyStrFacts PyVal TableHeuristic Writer WriterFacts WriterView.

(** ** Dictionaries *)

Lemma dict_get_set_eq (d : list (string * pyval)) (k : string) (v : pyval) :
  dict_get (dict_set d k v) k = Some v.
Proof.
  induction d as [|[k' v'] d IH]; simpl.
  - now rewrite String.eqb_refl.
  - destruct (String.eqb k' k) eqn:E; simpl.
    + now rewrite String.eqb_refl.
    + now rewrite E.
Qed.

Lemma dict_get_set_ne (d : list (string * pyval)) (k k' : string) (v : pyval) :
  k <> k' -> dict_get (dict_set d k v) k' = dict_get d k'.
Proof.
  intros Hne. induction d as [|[k0 v0] d IH]; simpl.
  - apply String.eqb_neq in Hne. now rewrite Hne.
  - destruct (String.eqb k0 k) eqn:E; simpl.
    + apply String.eqb_eq in E. subst k0.
      apply String.eqb_neq in Hne. now rewrite Hne.
    + destruct (String.eqb k0 k'); [reflexivity | exact IH].
Qed.

(** What the merge [{**metadata, "section_title": .., "content_type": ..}]
    holds. *)
Lemma chunk_metadata_lookup (md : list (string * pyval)) (title kind : string) :
  exists m,
    chunk_metadata md title kind = PDict m
    /\ dict_get m "content_type" = Some (PStr kind)
    /\ dict_get m "section_title" = Some (PStr title)
    /\ forall k, k <> "section_title" -> k <> "content_type" ->
                 dict_get m k = dict_get md k.
Proof.
  eexists. split; [reflexivity|]. split; [apply dict_get_set_eq|]. split.
  - rewrite dict_get_set_ne by discriminate. apply dict_get_set_eq.
  - intros k H1 H2. rewrite !dict_get_set_ne by congruence. reflexivity.
Qed.

(** ** The chunk objects written by the two loops *)

Lemma body_values_separator (name id : string) (st : wstate) (vs : list pyval) :
  body_values name id st vs -> body_values name id (separator st) vs.
Proof.
  intros (b & Hb & Hv). unfold separator.
  destruct (is_first_chunk st); [exists b; split; assumption|].
  exists (b ++ [Comma]). split.
  - unfold body_of in *. cbn [writes write].
    rewrite concat_app, Hb. cbn [concat]. now rewrite app_nil_r, app_assoc.
  - rewrite values_of_app, Hv. cbn [values_of]. apply app_nil_r.
Qed.

Lemma body_values_commit (name id : string) (st : wstate) (vs : list pyval)
      (v : pyval) :
  body_values name id st vs -> body_values name id (commit v st) (vs ++ [v]).
Proof.
  intros (b & Hb & Hv). exists (b ++ [Value v]). split.
  - unfold body_of in *. cbn [writes commit].
    rewrite concat_app, Hb. cbn [concat]. now rewrite app_nil_r, app_assoc.
  - rewrite values_of_app, Hv. reflexivity.
Qed.

Lemma body_values_table_loop (name id : string) (md : option string)
      (metadata : list (string * pyval)) (ts : list table_item) :
  forall (k : nat) (st : wstate) (vs : list pyval),
    body_values name id st vs ->
    exists tabs,
      body_values name id (table_loop md metadata k ts st) (vs ++ tabs)
      /\ Forall (table_chunk_of metadata) tabs.
Proof.
  induction ts as [|t ts IH]; intros k st vs Hvs; cbn [table_loop].
  - exists []. rewrite app_nil_r. split; [exact Hvs | constructor].
  - unfold table_step. destruct (t_data t) as [|row rows] eqn:Hdata.
    + apply IH, Hvs.
    + match goal with
      | |- context [json_dumps ?v] => destruct (json_dumps v) as [text|] eqn:E
      end.
      * pose proof (json_dumps_some _ _ E) as ->.
        match type of E with
        | json_dumps ?v = _ =>
            destruct (IH (S k) (commit v (separator st)) (vs ++ [v])
                        (body_values_commit name id _ _ v
                           (body_values_separator name id _ _ Hvs)))
              as (tabs & Hbody & Htabs);
            exists (v :: tabs)
        end.
        rewrite <- app_assoc in Hbody.
        split; [exact Hbody|]. constructor; [|exact Htabs].
        eexists t, _, _. split; [|reflexivity]. rewrite Hdata. discriminate.
      * apply IH, body_values_separator, Hvs.
Qed.

Lemma body_values_text_loop (name id : string) (metadata : list (string * pyval))
      (cs : list text_event) :
  forall (st : wstate) (vs : list pyval),
    body_values name id st vs ->
    exists txts,
      body_values name id (fst (text_loop metadata cs st)) (vs ++ txts)
      /\ Forall (text_chunk_of metadata) txts.
Proof.
  induction cs as [|e cs IH]; intros st vs Hvs; cbn [text_loop].
  - exists []. rewrite app_nil_r. split; [exact Hvs | constructor].
  - destruct e as [c|];
      [|exists []; rewrite app_nil_r; split; [exact Hvs | constructor]].
    destruct (is_empty (c_clean c) || (String.length (strip (c_clean c)) <? 10))
      eqn:Eshort; [apply IH, Hvs|].
    destruct (c_is_table c) eqn:Etab; [apply IH, Hvs|].
    destruct (json_dumps (chunk_obj metadata c (Index st))) as [text|] eqn:E.
    + pose proof (json_dumps_some _ _ E) as ->.
      destruct (IH (commit (chunk_obj metadata c (Index st)) (separator st))
                  (vs ++ [chunk_obj metadata c (Index st)])
                  (body_values_commit name id _ _ _
                     (body_values_separator name id _ _ Hvs)))
        as (txts & Hbody & Htxts).
      exists (chunk_obj metadata c (Index st) :: txts).
      rewrite <- app_assoc in Hbody.
      split; [exact Hbody|]. constructor; [|exact Htxts].
      exists c, (Index st). split; [|split; [exact Etab | reflexivity]].
      apply orb_false_iff in Eshort as [_ Hlen]. apply Nat.ltb_ge in Hlen. exact Hlen.
    + exists []. rewrite app_nil_r. split; [|constructor].
      apply body_values_separator, Hvs.
Qed.

Lemma body_values_init (name id : string) :
  body_values name id {| writes := header_writes name id; Index := 0;
                         is_first_chunk := true |} [].
Proof.
  exists []. split; [|reflexivity]. unfold body_of. cbn [writes]. now rewrite app_nil_r.
Qed.

Lemma written_chunks_final (rq : request) (doc : document) (vs : list pyval) :
  conversion rq = Some doc ->
  body_values (name rq) (id rq) (fst (final_state rq doc)) vs ->
  written_chunks (process_markdown_file rq) = vs.
Proof.
  intros Hconv (b & Hb & Hv). unfold body_of in Hb.
  unfold written_chunks, file_content, process_markdown_file. rewrite Hconv.
  unfold final_state in Hb. destruct (text_loop _ _ _) as [st ok].
  cbn [fst] in Hb. destruct ok; cbn [issued].
  - rewrite concat_app, Hb, <- app_assoc, skip_header, values_of_app, Hv.
    cbn [concat footer_writes app values_of]. apply app_nil_r.
  - now rewrite Hb, skip_header.
Qed.

(** Every call writes table chunks first and text chunks after them, each
    built from the caller's metadata. *)
Lemma written_chunks_shape (rq : request) :
  exists tabs txts,
    written_chunks (process_markdown_file rq) = tabs ++ txts
    /\ Forall (table_chunk_of (metadata rq)) tabs
    /\ Forall (text_chunk_of (metadata rq)) txts.
Proof.
  destruct (conversion rq) as [doc|] eqn:Hconv.
  - destruct (body_values_table_loop (name rq) (id rq) (markdown_content rq)
                (metadata rq) (tables doc) 0 _ _
                (body_values_init (name rq) (id rq))) as (tabs & Htab & Htabs).
    destruct (body_values_text_loop (name rq) (id rq) (metadata rq) (chunks doc)
                _ _ Htab) as (txts & Htxt & Htxts).
    exists tabs, txts. split; [|split; assumption].
    apply (written_chunks_final rq doc _ Hconv). exact Htxt.
  - exists [], []. split; [|split; constructor].
    unfold written_chunks, file_content, process_markdown_file. now rewrite Hconv.
Qed.

Lemma content_type_table (md : list (string * pyval)) (v : pyval) :
  table_chunk_of md v -> content_type_of v = Some "table".
Proof.
  intros (t & title & k & _ & ->).
  destruct (chunk_metadata_lookup md title "table") as (m & Hm & Hct & _).
  unfold content_type_of, metadata_of, whole_table_chunk.
  cbn [dict_get String.eqb Ascii.eqb Bool.eqb]. now rewrite Hm, Hct.
Qed.

Lemma content_type_text (md : list (string * pyval)) (v : pyval) :
  text_chunk_of md v -> content_type_of v = Some "text".
Proof.
  intros (c & k & _ & _ & ->).
  destruct (chunk_metadata_lookup md (String.substring 0 100 (c_section_title c)) "text")
    as (m & Hm & Hct & _).
  unfold content_type_of, metadata_of, chunk_obj.
  cbn [dict_get String.eqb Ascii.eqb Bool.eqb]. now rewrite Hm, Hct.
Qed.

Lemma map_const_repeat {A B : Type} (f : A -> B) (b : B) (l : list A) :
  Forall (fun a => f a = b) l -> map f l = repeat b (length l).
Proof.
  induction 1 as [|a l Ha _ IH]; [reflexivity|]. simpl. now rewrite Ha, IH.
Qed.

(** X1.  In the file left by any call, all chunks of content type "table"
    come before all chunks of content type "text": the content types read
    [n] times "table" and then [m] times "text". *)
Theorem tables_precede_text (rq : request) :
  exists n m,
    map content_type_of (written_chunks (process_markdown_file rq))
    = repeat (Some "table") n ++ repeat (Some "text") m.
Proof.
  destruct (written_chunks_shape rq) as (tabs & txts & -> & Htabs & Htxts).
  exists (length tabs), (length txts). rewrite map_app. f_equal.
  - apply map_const_repeat. eapply Forall_impl; [exact Htabs|].
    intros v Hv. now apply (content_type_table (metadata rq)).
  - apply map_const_repeat. eapply Forall_impl; [exact Htxts|].
    intros v Hv. now apply (content_type_text (metadata rq)).
Qed.

(** ** Where a written chunk comes from *)






(** The caller's [section_title] "Draft" and [content_type] "memo" are
    replaced in both chunks; the caller's [source] is kept. *)
Example caller_titles_replaced :
  map (fun v => match metadata_of v with
                | Some m => (dict_get m "section_title", dict_get m "content_type",
                             dict_get m "source")
                | None => (None, None, None)
                end)
      (written_chunks (process_markdown_file titled_request))
  = [(Some (PStr "Revenue by Segment"), Some (PStr "table"), Some (PStr "upload"));
     (Some (PStr "Revenue by Segment"), Some (PStr "text"), Some (PStr "upload"))].
Proof. vm_compute. reflexivity. Qed.

Lemma substring_length_le (n : nat) (s : string) :
  String.length (String.substring 0 n s) <= n.
Proof.
  revert s. induction n as [|n IH]; intros [|c s]; simpl; try lia.
  specialize (IH s). lia.
Qed.

(** X3.  No text chunk is written with fewer than 10 characters of
    stripped content or with a section title longer than 100 characters,
    and no table chunk is written without rows. *)
Theorem written_chunk_bounds (rq : request) (v : pyval) :
  In v (written_chunks (process_markdown_file rq)) ->
  (content_type_of v = Some "text" ->
   exists s m title,
     str_field "content" v = Some s /\ 10 <= String.length (strip s)
     /\ metadata_of v = Some m
     /\ dict_get m "section_title" = Some (PStr title)
     /\ String.length title <= 100)
  /\ (content_type_of v = Some "table" ->
      exists rows, table_body v = Some (rows_value rows) /\ rows <> []).
Proof.
  destruct (written_chunks_shape rq) as (tabs & txts & -> & Htabs & Htxts).
  intros Hin. apply in_app_or in Hin as [Hin | Hin].
  - pose proof (proj1 (List.Forall_forall _ _) Htabs v Hin) as Hv.
    pose proof (content_type_table _ _ Hv) as Hct.
    destruct Hv as (t & title & k & Hrows & ->). split.
    + intros H. rewrite Hct in H. discriminate.
    + intros _. exists (t_data t). split; [reflexivity | exact Hrows].
  - pose proof (proj1 (List.Forall_forall _ _) Htxts v Hin) as Hv.
    pose proof (content_type_text _ _ Hv) as Hct.
    destruct Hv as (c & k & Hlen & _ & ->). split.
    + intros _.
      destruct (chunk_metadata_lookup (metadata rq)
                  (String.substring 0 100 (c_section_title c)) "text")
        as (m & Hm & _ & Hst & _).
      exists (c_clean c), m, (String.substring 0 100 (c_section_title c)).
      split; [reflexivity|]. split; [exact Hlen|]. split.
      * unfold metadata_of, chunk_obj.
        cbn [dict_get String.eqb Ascii.eqb Bool.eqb]. now rewrite Hm.
      * split; [exact Hst | apply substring_length_le].
    + intros H. rewrite Hct in H. discriminate.
Qed.

Lemma written_chunk_bounds_witness :
  exists rows,
    table_body (nth 0 (written_chunks (process_markdown_file sample_request)) PNone)
    = Some (rows_value rows) /\ rows <> [].
Proof.
  refine (proj2 (written_chunk_bounds sample_request
                   (nth 0 (written_chunks (process_markdown_file sample_request)) PNone)
                   _) _).
  - vm_compute. left. reflexivity.
  - vm_compute. reflexivity.
Defined.

(** ** What the reader accepts *)

(** Whatever a parse leaves over is a suffix of its input. *)
Lemma parse_suffix (fuel : nat) :
  (forall ts v rest, parse_value fuel ts = Some (v, rest) ->
                     exists pre, ts = pre ++ rest)
  /\ (forall ts vs rest, parse_elements fuel ts = Some (vs, rest) ->
                         exists pre, ts = pre ++ rest)
  /\ (forall ts d rest, parse_members fuel ts = Some (d, rest) ->
                        exists pre, ts = pre ++ rest).
Proof.
  induction fuel as [|f (IHv & IHe & IHm)].
  - repeat split; intros; discriminate.
  - split; [|split].
    + intros ts v rest H. cbn [parse_value] in H.
      destruct ts as [|p ts]; [discriminate|].
      destruct p; try discriminate.
      * destruct ts as [|q ts'].
        -- destruct (parse_members f []) as [[d r']|] eqn:E; [|discriminate].
           injection H as <- <-. destruct (IHm _ _ _ E) as [pre Hpre].
           exists (LBrace :: pre). now rewrite Hpre.
        -- destruct q;
             try (destruct (parse_members f _) as [[d r']|] eqn:E; [|discriminate];
                  injection H as <- <-; destruct (IHm _ _ _ E) as [pre Hpre];
                  exists (LBrace :: pre); now rewrite Hpre).
           injection H as <- <-. now exists [LBrace; RBrace].
      * destruct ts as [|q ts'].
        -- destruct (parse_elements f []) as [[vs r']|] eqn:E; [|discriminate].
           injection H as <- <-. destruct (IHe _ _ _ E) as [pre Hpre].
           exists (LBracket :: pre). now rewrite Hpre.
        -- destruct q;
             try (destruct (parse_elements f _) as [[vs r']|] eqn:E; [|discriminate];
                  injection H as <- <-; destruct (IHe _ _ _ E) as [pre Hpre];
                  exists (LBracket :: pre); now rewrite Hpre).
           injection H as <- <-. now exists [LBracket; RBracket].
      * injection H as <- <-. now exists [Value v0].
    + intros ts vs rest H. cbn [parse_elements] in H.
      destruct (parse_value f ts) as [[v r]|] eqn:E; [|discriminate].
      destruct (IHv _ _ _ E) as [pre Hpre].
      destruct r as [|q r]; [discriminate|]. destruct q; try discriminate.
      * injection H as <- <-. exists (pre ++ [RBracket]).
        now rewrite Hpre, <- app_assoc.
      * destruct (parse_elements f r) as [[vs' r']|] eqn:E2; [|discriminate].
        injection H as <- <-. destruct (IHe _ _ _ E2) as [pre2 Hpre2].
        exists (pre ++ Comma :: pre2). now rewrite Hpre, Hpre2, <- app_assoc.
    + intros ts d rest H. cbn [parse_members] in H.
      destruct ts as [|p ts]; [discriminate|]. destruct p; try discriminate.
      destruct (parse_value f ts) as [[v r]|] eqn:E; [|discriminate].
      destruct (IHv _ _ _ E) as [pre Hpre].
      destruct r as [|q r]; [discriminate|]. destruct q; try discriminate.
      * injection H as <- <-. exists (Key k :: pre ++ [RBrace]).
        rewrite Hpre. simpl. now rewrite <- app_assoc.
      * destruct (parse_members f r) as [[d' r']|] eqn:E2; [|discriminate].
        injection H as <- <-. destruct (IHm _ _ _ E2) as [pre2 Hpre2].
        exists (Key k :: pre ++ Comma :: pre2).
        rewrite Hpre, Hpre2. simpl. now rewrite <- app_assoc.
Qed.

(** Members are read up to a closing brace. *)
Lemma parse_members_closes (fuel : nat) :
  forall ts d rest, parse_members fuel ts = Some (d, rest) -> In RBrace ts.
Proof.
  induction fuel as [|f IH]; intros ts d rest H; [discriminate|].
  cbn [parse_members] in H.
  destruct ts as [|p ts]; [discriminate|]. destruct p; try discriminate.
  destruct (parse_value f ts) as [[v r]|] eqn:E; [|discriminate].
  destruct (proj1 (parse_suffix f) _ _ _ E) as [pre Hpre].
  destruct r as [|q r]; [discriminate|]. destruct q; try discriminate.
  - right. rewrite Hpre. apply in_or_app. right. now left.
  - destruct (parse_members f r) as [[d' r']|] eqn:E2; [|discriminate].
    right. rewrite Hpre. apply in_or_app. right. right. apply (IH _ _ _ E2).
Qed.

Lemma parse_object_closes (fuel : nat) (ts : list piece) (v : pyval)
      (rest : list piece) :
  parse_value fuel (LBrace :: ts) = Some (v, rest) -> In RBrace ts.
Proof.
  destruct fuel as [|f]; [discriminate|]. cbn [parse_value]. intros H.
  destruct ts as [|q ts'].
  - destruct (parse_members f []) as [[d r']|] eqn:E; [|discriminate].
    apply (parse_members_closes f _ _ _ E).
  - destruct q;
      try (destruct (parse_members f _) as [[d r']|] eqn:E; [|discriminate];
           apply (parse_members_closes f _ _ _ E)).
    now left.
Qed.

(** ** Runs that do not reach the normal return *)

Lemma brace_free_separator (st : wstate) : brace_free st -> brace_free (separator st).
Proof.
  unfold brace_free, separator. intros H.
  destruct (is_first_chunk st); cbn [writes write]; [exact H|].
  rewrite concat_app, in_app_iff. cbn [concat app In].
  intros [Hin | [Hin | []]]; [now apply H | discriminate].
Qed.

Lemma brace_free_commit (st : wstate) (v : pyval) :
  brace_free st -> brace_free (commit v st).
Proof.
  unfold brace_free, commit. intros H. cbn [writes].
  rewrite concat_app, in_app_iff. cbn [concat app In].
  intros [Hin | [Hin | []]]; [now apply H | discriminate].
Qed.

Lemma brace_free_table_loop (md : option string) (metadata : list (string * pyval))
      (ts : list table_item) :
  forall k st, brace_free st -> brace_free (table_loop md metadata k ts st).
Proof.
  induction ts as [|t ts IH]; intros k st H; cbn [table_loop]; [exact H|].
  apply IH. unfold table_step. destruct (t_data t); [exact H|].
  destruct (json_dumps _).
  - now apply brace_free_commit, brace_free_separator.
  - now apply brace_free_separator.
Qed.

Lemma brace_free_text_loop (metadata : list (string * pyval)) (cs : list text_event) :
  forall st, brace_free st -> brace_free (fst (text_loop metadata cs st)).
Proof.
  induction cs as [|e cs IH]; intros st H; cbn [text_loop]; [exact H|].
  destruct e as [c|]; [|exact H].
  destruct (is_empty (c_clean c) || (String.length (strip (c_clean c)) <? 10));
    [now apply IH|].
  destruct (c_is_table c); [now apply IH|].
  destruct (json_dumps _).
  - now apply IH, brace_free_commit, brace_free_separator.
  - now apply brace_free_separator.
Qed.

(** X4.  A call that does not reach its normal return never leaves a JSON
    document behind: whatever it wrote before the exception has no closing
    brace, so the file does not read back (and the call returns 0). *)
Theorem failed_run_leaves_no_document (rq : request) :
  completed (process_markdown_file rq) = false ->
  returned (process_markdown_file rq) = 0
  /\ parse_document (file_content (process_markdown_file rq)) = None.
Proof.
  unfold process_markdown_file, file_content.
  destruct (conversion rq) as [doc|]; [|intros _; split; reflexivity].
  pose proof (brace_free_text_loop (metadata rq) (chunks doc) _
                (brace_free_table_loop (markdown_content rq) (metadata rq)
                   (tables doc) 0
                   {| writes := header_writes (name rq) (id rq); Index := 0;
                      is_first_chunk := true |}
                   ltac:(unfold brace_free; cbn; intuition discriminate)))
    as Hfree.
  destruct (body_values_table_loop (name rq) (id rq) (markdown_content rq)
              (metadata rq) (tables doc) 0 _ _
              (body_values_init (name rq) (id rq))) as (tabs & Htab & _).
  destruct (body_values_text_loop (name rq) (id rq) (metadata rq) (chunks doc)
              _ _ Htab) as (txts & (b & Hb & _) & _).
  destruct (text_loop _ _ _) as [st ok]. cbn [fst] in *.
  destruct ok; [discriminate|]. intros _. cbn [returned issued].
  split; [reflexivity|].
  unfold parse_document, brace_free in *. unfold body_of in Hb. rewrite Hb in *.
  destruct (parse_value _ _) as [[v rest]|] eqn:E; [|reflexivity].
  exfalso. apply Hfree.
  change (concat (header_writes (name rq) (id rq)) ++ b)
    with (LBrace :: (skipn 1 (concat (header_writes (name rq) (id rq))) ++ b)) in E |- *.
  right. apply (parse_object_closes _ _ _ _ E).
Qed.

Lemma failed_run_leaves_no_document_witness :
  parse_document (file_content (process_markdown_file interrupted_request)) = None.
Proof.
  apply (failed_run_leaves_no_document interrupted_request).
  vm_compute. reflexivity.
Defined.

End WriterMore.

(* ===================================================================== *)
(** * More on the admission gate *)
(* ===================================================================== *)

Module GateMore.
Import Gate GateClaims.

(** Calls in flight and free slots add up to [max_concurrent]. *)
Lemma in_flight_balance (max_concurrent sources : nat) (s : sched) :
  reachable (start max_concurrent sources) s ->
  in_flight s + sem_value s = max_concurrent.
Proof.
  induction 1 as [|s s' _ IH Hstep].
  - unfold in_flight, start. cbn [tasks sem_value].
    now rewrite count_running_start.
  - now rewrite (step_balance s s' Hstep).
Qed.

Lemma running_exists (ts : list task) :
  0 < count_running ts -> exists i, ts !! i = Some Running.
Proof.
  induction ts as [|t ts IH]; cbn [count_running]; [lia|].
  destruct t; intros H; try (destruct (IH H) as [i Hi]; now exists (S i)).
  now exists 0.
Qed.

Lemma none_running (ts : list task) (i : nat) :
  count_running ts = 0 -> ts !! i <> Some Running.
Proof.
  revert i. induction ts as [|t ts IH]; intros i H; [destruct i; discriminate|].
  destruct i as [|i]; cbn [count_running] in H.
  - destruct t; simpl; [discriminate | lia | discriminate].
  - destruct t; try lia; apply (IH i H).
Qed.

(** X5.  With [max_concurrent >= 1] a batch never gets stuck: in every
    state it can reach, as long as some task has not finished, either a
    running task can release the semaphore or a waiting one can acquire
    it. *)
Theorem gate_progress (max_concurrent sources : nat) (s : sched) :
  1 <= max_concurrent ->
  reachable (start max_concurrent sources) s ->
  (exists i t, tasks s !! i = Some t /\ t <> Done) ->
  exists s', step s s'.
Proof.
  intros Hmax Hreach (i & t & Hi & Ht).
  pose proof (in_flight_balance max_concurrent sources s Hreach) as Hsum.
  destruct (Nat.eq_dec (in_flight s) 0) as [Hzero | Hpos].
  - destruct t; [| |congruence].
    + destruct (sem_value s) as [|v] eqn:Hv; [lia|].
      eexists. apply (step_acquire s i v Hi Hv).
    + exfalso. apply (none_running (tasks s) i Hzero Hi).
  - destruct (running_exists (tasks s)) as [j Hj]; [unfold in_flight in Hpos; lia|].
    eexists. apply (step_release s j Hj).
Qed.

Lemma gate_progress_witness : exists s', step (start 3 10) s'.
Proof.
  apply (gate_progress 3 10 (start 3 10)).
  - lia.
  - apply reach_refl.
  - exists 0, Waiting. split; [reflexivity | discriminate].
Defined.

Lemma replicate_waiting (n i : nat) (t : task) :
  replicate n Waiting !! i = Some t -> t = Waiting.
Proof.
  revert i. induction n as [|n IH]; intros i H; [destruct i; discriminate|].
  destruct i as [|i]; simpl in H; [congruence | apply (IH i H)].
Qed.

(** X6.  With [max_concurrent = 0] no source is ever processed: the batch
    stays in its initial state, every task waiting at the semaphore. *)
Theorem gate_zero_admits_nothing (sources : nat) (s : sched) :
  reachable (start 0 sources) s -> s = start 0 sources.
Proof.
  induction 1 as [|s s' _ IH Hstep]; [reflexivity|]. subst s.
  inversion Hstep as [s0 i v Hi Hv | s0 i Hi]; subst; cbn [start sem_value tasks] in *.
  - discriminate.
  - apply replicate_waiting in Hi. discriminate.
Qed.

Lemma gate_zero_admits_nothing_witness : in_flight (start 0 2) = 0.
Proof.
  exact (f_equal in_flight (gate_zero_admits_nothing 2 (start 0 2) (reach_refl _))).
Defined.

End GateMore.

(* ===================================================================== *)
(** * More on the JSON fast path and the staged chunk loop *)
(* ===================================================================== *)

Module ChunkIds.
Import PyStr PyStrFacts PyVal Fs JsonDirect JsonDirectClaims StagedChunks.

(** ** Decimal numerals read back *)

Lemma digit_is_digit (n : nat) :
  is_digit (digit n) = true /\ nat_of_ascii (digit n) - 48 = n mod 10.
Proof.
  unfold is_digit, digit.
  assert (Hlt : n mod 10 < 10) by (apply Nat.mod_upper_bound; lia).
  rewrite nat_ascii_embedding by lia.
  split; [|lia].
  apply andb_true_iff. split; apply Nat.leb_le; lia.
Qed.

Lemma digits_fuel_reads (fuel : nat) :
  forall (n : nat) (acc : string) (a : nat),
    n < fuel ->
    exists k, lex_digits (digits_fuel fuel n acc) a
              = lex_digits acc (a * 10 ^ k + n).
Proof.
  induction fuel as [|f IH]; intros n acc a Hn; [lia|].
  cbn [digits_fuel]. destruct (digit_is_digit n) as [Hd Hv].
  destruct (n <? 10) eqn:Hsmall.
  - apply Nat.ltb_lt in Hsmall. exists 1.
    cbn [lex_digits]. rewrite Hd, Hv, Nat.mod_small by lia.
    f_equal. simpl. lia.
  - apply Nat.ltb_ge in Hsmall.
    assert (Hdiv : n / 10 < f).
    { assert (n / 10 < n) by (apply Nat.div_lt; lia). lia. }
    destruct (IH (n / 10) (String (digit n) acc) a Hdiv) as [k Hk].
    exists (S k). rewrite Hk. cbn [lex_digits]. rewrite Hd, Hv.
    f_equal. rewrite Nat.pow_succ_r'.
    pose proof (Nat.div_mod_eq n 10). lia.
Qed.

Lemma str_of_nat_reads (n : nat) : lex_digits (str_of_nat n) 0 = (n, EmptyString).
Proof.
  unfold str_of_nat.
  destruct (digits_fuel_reads (S n) n EmptyString 0 ltac:(lia)) as [k Hk].
  rewrite Hk. reflexivity.
Qed.

Lemma zeros_read (k : nat) (s : string) :
  lex_digits (zeros k +:+ s) 0 = lex_digits s 0.
Proof. induction k as [|k IH]; [reflexivity | exact IH]. Qed.

Lemma fmt_04d_reads (n : nat) : lex_digits (fmt_04d n) 0 = (n, EmptyString).
Proof. unfold fmt_04d. rewrite zeros_read. apply str_of_nat_reads. Qed.

Lemma fmt_04d_injective (a b : nat) : fmt_04d a = fmt_04d b -> a = b.
Proof.
  intros H. pose proof (fmt_04d_reads a) as Ha. rewrite H, fmt_04d_reads in Ha.
  congruence.
Qed.

Lemma str_of_nat_injective (a b : nat) : str_of_nat a = str_of_nat b -> a = b.
Proof.
  intros H. pose proof (str_of_nat_reads a) as Ha. rewrite H, str_of_nat_reads in Ha.
  congruence.
Qed.

Lemma append_cancel_l (p x y : string) : p +:+ x = p +:+ y -> x = y.
Proof.
  induction p as [|c p IH]; simpl; intros H; [exact H|].
  injection H as H. exact (IH H).
Qed.

Lemma chunk_id_injective (source_name : string) (a b : nat) :
  source_name +:+ "_chunk_" +:+ fmt_04d a = source_name +:+ "_chunk_" +:+ fmt_04d b ->
  a = b.
Proof.
  intros H. apply append_cancel_l in H.
  apply (append_cancel_l "_chunk_") in H. now apply fmt_04d_injective.
Qed.

(** ** [chunk_json_directly] *)

Lemma array_chunk_ids (e : env) (source_name : string) (items : list pyval) :
  forall k x,
    In x (map chunk_id (array_chunks e source_name k items)) ->
    exists j, k <= j /\ x = source_name +:+ "_chunk_" +:+ fmt_04d j.
Proof.
  induction items as [|item items IH]; intros k x Hin; [destruct Hin|].
  cbn [array_chunks map chunk_id] in Hin. destruct Hin as [<- | Hin].
  - exists k. split; [lia | reflexivity].
  - destruct (IH (S k) x Hin) as (j & Hj & ->). exists j. split; [lia | reflexivity].
Qed.

Lemma array_chunk_ids_nodup (e : env) (source_name : string) (items : list pyval) :
  forall k, List.NoDup (map chunk_id (array_chunks e source_name k items)).
Proof.
  induction items as [|item items IH]; intros k; [constructor|].
  cbn [array_chunks map chunk_id]. constructor; [|apply IH].
  intros Hin. destruct (array_chunk_ids e source_name items (S k) _ Hin) as (j & Hj & Heq).
  apply chunk_id_injective in Heq. lia.
Qed.

(** X7.  The chunks [chunk_json_directly] saves have pairwise different
    chunk ids, for arrays of any length (also beyond 9999 items, where the
    number in the id grows past four digits), and the returned count is the
    number of saved chunks. *)
Theorem json_chunk_ids_distinct
        (e : env) (input_path source_name output_json embedding_model : string)
        (temp_file : option string) :
  let r := chunk_json_directly e input_path source_name output_json
                               embedding_model temp_file in
  List.NoDup (map chunk_id (snd (fst r))) /\ fst (fst r) = length (snd (fst r)).
Proof.
  unfold chunk_json_directly, try_body.
  destruct (read_text e input_path) as [json_content|];
    [|split; [constructor | reflexivity]].
  destruct (tokenizer_loads e embedding_model); cbn [negb];
    [|split; [constructor | reflexivity]].
  destruct (json_loads e json_content) as [d|];
    [|split; [constructor | reflexivity]].
  destruct (mkdir_ok e (path_parent output_json)); cbn [negb];
    [|split; [constructor | reflexivity]].
  destruct (open_ok e output_json); cbn [negb];
    [|split; [constructor | reflexivity]].
  destruct (dump_stops e _); [split; [constructor | reflexivity]|].
  cbn [fst snd]. split; [|reflexivity].
  destruct d; cbn [build_chunks map];
    try (constructor; [intros [] | constructor]).
  apply array_chunk_ids_nodup.
Qed.

(** X8.  When the file is read, the tokenizer loads, the content parses
    to something other than an array and the save of the chunk file goes
    through, there is exactly one chunk: index 0, id
    [<source>_chunk_0000], the re-serialised text of the whole value as
    content, and content type ['json_object'] for an object and ['json']
    for anything else; this chunk is what is written to the output file.
    When the tokenizer does not load or the save raises, the function
    returns 0 and produces no chunk. *)
Theorem json_single_chunk
        (e : env) (input_path source_name output_json embedding_model : string)
        (temp_file : option string) (json_content : string) (d : pyval) :
  read_text e input_path = Some json_content ->
  json_loads e json_content = Some d ->
  is_list d = false ->
  let r := chunk_json_directly e input_path source_name output_json
                               embedding_model temp_file in
  let saved :=
    tokenizer_loads e embedding_model
    && save_succeeds e output_json
         (build_chunks e source_name d (json_dumps_text e d)) in
  (saved = true ->
   fst (fst r) = 1
   /\ exists c,
        snd (fst r) = [c]
        /\ chunk_index c = Some 0
        /\ chunk_id c = source_name +:+ "_chunk_0000"
        /\ content c = json_dumps_text e d
        /\ content_type c = (if is_dict d then "json_object" else "json")
        /\ In (OpWrite output_json [Value (PList [asdict c])]) (snd r))
  /\ (saved = false -> fst (fst r) = 0 /\ snd (fst r) = []).
Proof.
  intros Hread Hloads Hlist r saved. split.
  - intros Hsaved. unfold saved, save_succeeds in Hsaved.
    apply andb_true_iff in Hsaved as [Htok Hsave].
    apply andb_true_iff in Hsave as [Hsave Hdump].
    apply andb_true_iff in Hsave as [Hmk Hopen].
    unfold r, chunk_json_directly, try_body.
    rewrite Hread, Htok, Hloads. cbn [negb]. rewrite Hmk, Hopen. cbn [negb].
    destruct (dump_stops e _); [discriminate|]. cbn [fst snd].
    destruct d; try discriminate; cbn [build_chunks length is_dict];
      (split; [reflexivity|]); eexists; (split; [reflexivity|]);
      cbn [single_chunk chunk_index chunk_id content content_type map];
      repeat split; simpl; auto.
  - intros Hsaved. unfold r, chunk_json_directly, try_body.
    rewrite Hread, Hloads. unfold saved, save_succeeds in Hsaved.
    destruct (tokenizer_loads e embedding_model); cbn [negb];
      [|split; reflexivity].
    destruct (mkdir_ok e (path_parent output_json)); cbn [negb];
      [|split; reflexivity].
    destruct (open_ok e output_json); cbn [negb]; [|split; reflexivity].
    destruct (dump_stops e _); [split; reflexivity | discriminate].
Qed.

Lemma json_single_chunk_witness :
  fst (fst (chunk_json_directly
              {| read_text := fun _ => Some "{}";
                 tokenizer_loads := fun _ => true;
                 json_loads := plain_json_loads;
                 json_dumps_text := plain_json_dumps 0;
                 mkdir_ok := fun _ => true;
                 open_ok := fun _ => true;
                 dump_stops := fun _ => None;
                 exists_file := fun _ => true;
                 url_download := fun _ => None;
                 staged_result := fun _ => 0 |}
              "data/one.json" "one.json" "out/one_chunks.json" "model" None)) = 1.
Proof.
  refine (proj1 (proj1 (json_single_chunk _ "data/one.json" "one.json"
                          "out/one_chunks.json" "model" None "{}" (PDict [])
                          _ _ _) _)).
  - reflexivity.
  - vm_compute. reflexivity.
  - reflexivity.
  - vm_compute. reflexivity.
Defined.

(** X9.  When a temporary file is given, [chunk_json_directly] unlinks it
    exactly once, as its last operation, on every path: after a successful
    save as well as after any exception. *)
Theorem temp_file_removed_last
        (e : env) (input_path source_name output_json embedding_model t : string) :
  t <> EmptyString ->
  exists before,
    snd (chunk_json_directly e input_path source_name output_json
                             embedding_model (Some t))
    = before ++ [OpUnlink t]
    /\ forallb (fun op => match op with OpUnlink _ => false | _ => true end)
               before = true.
Proof.
  intros Ht. apply is_empty_false in Ht.
  unfold chunk_json_directly, try_body, cleanup. rewrite Ht.
  destruct (read_text e input_path) as [json_content|];
    [|exists []; split; reflexivity].
  destruct (tokenizer_loads e embedding_model); cbn [negb];
    [|exists [OpRead input_path]; split; reflexivity].
  destruct (json_loads e json_content) as [d|];
    [|exists [OpRead input_path]; split; reflexivity].
  destruct (mkdir_ok e (path_parent output_json)); cbn [negb];
    [|exists [OpRead input_path]; split; reflexivity].
  destruct (open_ok e output_json); cbn [negb];
    [|eexists [_; _]; split; reflexivity].
  destruct (dump_stops e _) as [written|]; cbn [snd].
  - eexists [_; _; _; _; _]. split; reflexivity.
  - eexists. split; [reflexivity|]. reflexivity.
Qed.

Lemma temp_file_removed_last_witness :
  exists before,
    snd (chunk_json_directly sample_env "data/broken.json" "broken.json"
           "out/broken_chunks.json" "intfloat/multilingual-e5-base"
           (Some "/tmp/dl.json"))
    = before ++ [OpUnlink "/tmp/dl.json"].
Proof.
  destruct (temp_file_removed_last sample_env "data/broken.json" "broken.json"
              "out/broken_chunks.json" "intfloat/multilingual-e5-base"
              "/tmp/dl.json" ltac:(discriminate)) as (before & Hops & _).
  exists before. exact Hops.
Defined.

(** ** The staged chunk loop *)

Lemma staged_chunk_facts (source_name : string) (items : list staged_item) :
  forall k i c,
    nth_error (staged_loop source_name k items) i = Some c ->
    chunk_index c = Some (k + i)
    /\ chunk_id c = source_name +:+ "_chunk_" +:+ fmt_04d (k + i)
    /\ 10 <= String.length (strip (content c))
    /\ (content_type c = "table" \/ content_type c = "text")
    /\ (exists p, page_number c = Some p)
    /\ (exists s, section_title c = Some s /\ String.length s <= 100).
Proof.
  induction items as [|it items IH]; intros k i c Hc; [destruct i; discriminate|].
  cbn [staged_loop] in Hc. unfold staged_step in Hc.
  destruct (contextualized it) as [text|]; [|apply (IH k i c Hc)].
  destruct (is_empty text || (String.length (strip text) <? 10)) eqn:Eshort;
    [apply (IH k i c Hc)|].
  destruct i as [|i]; simpl in Hc.
  - injection Hc as <-. cbn. rewrite Nat.add_0_r.
    apply orb_false_iff in Eshort as [_ Hlen]. apply Nat.ltb_ge in Hlen.
    split; [reflexivity|]. split; [reflexivity|]. split; [exact Hlen|].
    split; [destruct (is_table it); auto|]. split; [eauto|].
    eexists. split; [reflexivity|]. unfold section_of.
    destruct (headings it); [simpl; lia|].
    clear. generalize (List.last (s :: l) EmptyString). intros s0.
    generalize 100. intros n. revert s0.
    induction n as [|n IHn]; intros [|a s0]; simpl; try lia.
    specialize (IHn s0). lia.
  - destruct (IH (S k) i c Hc) as (H1 & H2 & H3).
    replace (k + S i) with (S k + i) by lia. auto.
Qed.

Lemma staged_ids (source_name : string) (items : list staged_item) :
  forall k x,
    In x (map chunk_id (staged_loop source_name k items)) ->
    exists j, k <= j /\ x = source_name +:+ "_chunk_" +:+ fmt_04d j.
Proof.
  induction items as [|it items IH]; intros k x Hin; [destruct Hin|].
  cbn [staged_loop] in Hin.
  destruct (staged_step source_name k it) as [c|] eqn:E; [|apply (IH k x Hin)].
  cbn [map] in Hin. destruct Hin as [<- | Hin].
  - exists k. split; [lia|]. unfold staged_step in E.
    destruct (contextualized it); [|discriminate].
    destruct (_ || _); [discriminate|]. injection E as <-. reflexivity.
  - destruct (IH (S k) x Hin) as (j & Hj & ->). exists j. split; [lia | reflexivity].
Qed.

(** X10.  In the list the staged loop builds, the i-th chunk has chunk
    index [i] however many yielded chunks were skipped (exception or short
    text) before it; every chunk has at least 10 characters of stripped
    content, content type ['table'] or ['text'], a page number and a
    section title of at most 100 characters; and the chunk ids are pairwise
    different. *)
Theorem staged_chunks_indexed (source_name : string) (items : list staged_item) :
  (forall i c,
     nth_error (staged_loop source_name 0 items) i = Some c ->
     chunk_index c = Some i
     /\ 10 <= String.length (strip (content c))
     /\ (content_type c = "table" \/ content_type c = "text")
     /\ (exists p, page_number c = Some p)
     /\ (exists s, section_title c = Some s /\ String.length s <= 100))
  /\ List.NoDup (map chunk_id (staged_loop source_name 0 items))
  /\ length (staged_loop source_name 0 items) <= length items.
Proof.
  split; [|split].
  - intros i c Hc.
    destruct (staged_chunk_facts source_name items 0 i c Hc)
      as (H1 & _ & H3 & H4 & H5 & H6). auto.
  - generalize 0. induction items as [|it items IH]; intros k; [constructor|].
    cbn [staged_loop].
    destruct (staged_step source_name k it) as [c|] eqn:E; [|apply IH].
    cbn [map]. constructor; [|apply IH].
    intros Hin. destruct (staged_ids source_name items (S k) _ Hin) as (j & Hj & Heq).
    assert (Hid : chunk_id c = source_name +:+ "_chunk_" +:+ fmt_04d k).
    { unfold staged_step in E. destruct (contextualized it); [|discriminate].
      destruct (_ || _); [discriminate|]. injection E as <-. reflexivity. }
    rewrite Hid in Heq. apply chunk_id_injective in Heq. lia.
  - generalize 0. induction items as [|it items IH]; intros k; [simpl; lia|].
    cbn [staged_loop]. destruct (staged_step source_name k it); cbn [length];
      [specialize (IH (S k)) | specialize (IH k)]; lia.
Qed.

Lemma staged_chunks_indexed_witness :
  map (fun c => (chunk_index c, content_type c, page_number c, section_title c))
      (staged_loop "report.pdf" 0 sample_items)
  = [(Some 0, "text", Some 4, Some "Revenue");
     (Some 1, "table", Some 1, Some "Unknown Section")].
Proof.
  pose proof (proj1 (staged_chunks_indexed "report.pdf" sample_items) 1) as H.
  destruct (staged_loop "report.pdf" 0 sample_items) as [|c0 [|c1 rest]] eqn:E;
    try (vm_compute in E; discriminate).
  destruct (H c1 eq_refl) as (Hidx & _).
  vm_compute in E. injection E as <- <- <-. reflexivity.
Defined.

End ChunkIds.

(* ===================================================================== *)
(** * More on the orchestrator *)
(* ===================================================================== *)

Module PipelineMore.
Import PyStr PyStrFacts PyVal Fs Writer WriterFacts Pipeline Ocr.

(** ** The file left by the writer *)

Lemma apply_writes (path : string) (ws : list (list piece)) :
  forall (fs : gmap string (list (list piece))) (w0 : list (list piece)),
    fs !! path = Some w0 ->
    apply_ops fs (map (OpWrite path) ws) !! path = Some (w0 ++ ws).
Proof.
  induction ws as [|w ws IH]; intros fs w0 H.
  - now rewrite app_nil_r.
  - replace (w0 ++ w :: ws) with ((w0 ++ [w]) ++ ws) by now rewrite <- app_assoc.
    unfold apply_ops in *. cbn [map fold_left]. apply IH.
    unfold apply_op. rewrite H. apply lookup_insert_eq.
Qed.

Lemma apply_ops_app {A : Type} (fs : gmap string (list A)) (a b : list (fs_op A)) :
  apply_ops fs (a ++ b) = apply_ops (apply_ops fs a) b.
Proof. apply fold_left_app. Qed.

(** After a call that opened the output file, the path holds what the call
    wrote. *)
Lemma tokens_after_run (fs : gmap string (list (list piece))) (path : string)
      (rq : request) (doc : document) :
  conversion rq = Some doc ->
  tokens_at (apply_ops fs (process_markdown_file_ops path rq)) path
  = Some (file_content (process_markdown_file rq)).
Proof.
  intros Hconv. unfold process_markdown_file_ops, file_content.
  assert (Hissued : exists ws, issued (process_markdown_file rq) = Some ws).
  { unfold process_markdown_file. rewrite Hconv.
    destruct (text_loop _ _ _) as [st ok]. destruct ok; eexists; reflexivity. }
  destruct Hissued as [ws ->].
  pose proof (apply_writes path ws (<[path := []]> fs) [] (lookup_insert_eq _ _ _))
    as Hw.
  unfold tokens_at, apply_ops in *. cbn [fold_left]. rewrite fold_left_app.
  cbn [fold_left]. unfold apply_op at 1. unfold apply_op at 2.
  rewrite Hw. reflexivity.
Qed.

(** ** The late append *)

(** X11.  The OCR append is a read-modify-write that keeps what is there:
    on a file that reads back as a document with chunks [cs] it succeeds,
    and afterwards the file reads back as the same document (same [name]
    and [id]) with chunks [cs] followed by the new chunks, in order. *)
Theorem ocr_append_keeps_document
        (fs : gmap string (list (list piece))) (path name id : string)
        (ts : list piece) (cs new_chunks : list pyval) :
  tokens_at fs path = Some ts ->
  parse_document ts = Some (expected_document name id cs) ->
  exists ops ts',
    ocr_append fs path new_chunks = Some ops
    /\ tokens_at (apply_ops fs ops) path = Some ts'
    /\ parse_document ts' = Some (expected_document name id (cs ++ new_chunks)).
Proof.
  intros Hts Hdoc. unfold ocr_append. rewrite Hts, Hdoc.
  unfold expected_document. cbn [dict_get String.eqb Ascii.eqb Bool.eqb dict_set].
  eexists _, _. split; [reflexivity|].
  cbn [apply_ops fold_left apply_op]. unfold tokens_at.
  rewrite lookup_insert_eq. split; [reflexivity|].
  rewrite lookup_insert_eq. reflexivity.
Qed.

Lemma ocr_append_keeps_document_witness :
  exists ops ts',
    ocr_append {[ "out/a.json" := [[Value (expected_document "a" "1" [PInt 7])]] ]}
               "out/a.json" [PInt 8] = Some ops
    /\ tokens_at (apply_ops {[ "out/a.json" :=
                               [[Value (expected_document "a" "1" [PInt 7])]] ]} ops)
                 "out/a.json" = Some ts'
    /\ parse_document ts' = Some (expected_document "a" "1" [PInt 7; PInt 8]).
Proof.
  apply (ocr_append_keeps_document _ "out/a.json" "a" "1"
           [Value (expected_document "a" "1" [PInt 7])] [PInt 7] [PInt 8]).
  - unfold tokens_at. rewrite lookup_singleton_eq. reflexivity.
  - reflexivity.
Defined.

(** X12.  For a markdown source with image OCR on: when the chunker
    reaches its normal return with metadata the encoder accepts and OCR
    returns [k >= 1] results, [process] reports success with
    [num_ocr_chunks = k], and the output file reads back as the document
    holding the chunks the chunker wrote followed by the [k] OCR chunks. *)
Theorem process_with_ocr_reads_back
        (w : world) (pl : pipeline) (source out : string) (id name : option string)
        (st : pstate) (item : ocr_item) (items : list ocr_item) :
  is_markdown_source source = true ->
  let rq := markdown_request w source in
  serializable (PDict (metadata rq)) = true ->
  completed (process_markdown_file rq) = true ->
  ocr_results w source = Some (item :: items) ->
  let r := process w pl source out id name true st in
  success (fst (fst r)) = true
  /\ num_chunks (fst (fst r)) = returned (process_markdown_file rq)
  /\ num_ocr_chunks (fst (fst r)) = S (length items)
  /\ exists ts,
       tokens_at (files (snd r)) out = Some ts
       /\ parse_document ts
          = Some (expected_document (Writer.name rq) (Writer.id rq)
                    (written_chunks (process_markdown_file rq)
                     ++ map (ocr_chunk id name) (item :: items))).
Proof.
  intros Hmd rq Hser Hdone Hocr.
  destruct (process_completed rq Hdone) as (doc & st2 & Hconv & _ & _).
  pose proof (tokens_after_run (files st) out rq doc Hconv) as Htok.
  pose proof (completed_run_reads_back rq Hser Hdone) as Hdoc.
  destruct (ocr_append_keeps_document _ out _ _ _ _
              (map (ocr_chunk id name) (item :: items)) Htok Hdoc)
    as (ops & ts' & Happ & Htok' & Hdoc').
  unfold process. rewrite Hmd. fold rq. rewrite Hocr.
  cbn [files temp_dir_exists]. rewrite Happ.
  cbn [fst snd success num_chunks num_ocr_chunks succeeded length].
  split; [reflexivity|]. split; [reflexivity|]. split; [reflexivity|].
  exists ts'. split; [|exact Hdoc'].
  unfold finally_cleanup. destruct (cleanup_temp pl && _); exact Htok'.
Qed.

Lemma process_with_ocr_reads_back_witness :
  num_ocr_chunks (fst (fst (process sample_world given_temp_pipeline "notes.md"
                                    "out/notes_chunks.json" None None true
                                    fresh_state))) = 1.
Proof.
  refine (proj1 (proj2 (proj2
            (process_with_ocr_reads_back sample_world given_temp_pipeline "notes.md"
               "out/notes_chunks.json" None None fresh_state
               {| image_index := 1; extracted_text := "Total 42";
                  image_format := "png" |} [] _ _ _ _)))).
  - vm_compute. reflexivity.
  - vm_compute. reflexivity.
  - vm_compute. reflexivity.
  - reflexivity.
Defined.

(** ** The temporary directory *)

Lemma finally_removes (pl : pipeline) (st : pstate) :
  cleanup_temp pl = true -> temp_dir_exists (finally_cleanup pl st) = false.
Proof.
  intros H. unfold finally_cleanup. rewrite H.
  destruct (temp_dir_exists st) eqn:E; [reflexivity | exact E].
Qed.

Lemma process_removes_own_dir (w : world) (pl : pipeline) (source out : string)
      (id name : option string) (ocr : bool) (st : pstate) :
  cleanup_temp pl = true ->
  temp_dir_exists (snd (process w pl source out id name ocr st)) = false.
Proof.
  intros H. unfold process.
  destruct (if is_markdown_source source then _ else _) as [mp|];
    [|apply (finally_removes pl _ H)].
  destruct ocr; [|apply (finally_removes pl _ H)].
  destruct (ocr_results w mp) as [[|item items]|];
    try apply (finally_removes pl _ H).
  destruct (ocr_append _ _ _); apply (finally_removes pl _ H).
Qed.

(** X13.  A pipeline that created its own temporary directory converts at
    most one source: after any call of [process], successful or not, the
    directory is gone, and every later call on a source that is not
    markdown fails with the conversion error, while a markdown source is
    still chunked. *)
Theorem own_directory_serves_one_call
        (w : world) (pl : pipeline) (first out1 : string) (id1 name1 : option string)
        (ocr1 : bool) (st : pstate) (next out2 : string) (id2 name2 : option string)
        (ocr2 : bool) :
  cleanup_temp pl = true ->
  let st1 := snd (process w pl first out1 id1 name1 ocr1 st) in
  let r := fst (fst (process w pl next out2 id2 name2 ocr2 st1)) in
  temp_dir_exists st1 = false
  /\ (is_markdown_source next = false ->
      success r = false
      /\ error r = Some ("Failed to convert '" +:+ next +:+ "' to markdown"))
  /\ (is_markdown_source next = true -> ocr2 = false ->
      success r = true
      /\ num_chunks r = returned (process_markdown_file (markdown_request w next))).
Proof.
  intros Hown st1 r.
  pose proof (process_removes_own_dir w pl first out1 id1 name1 ocr1 st Hown) as Hgone.
  fold st1 in Hgone. split; [exact Hgone|]. split.
  - intros Hmd. unfold r, process, convert_single_async. rewrite Hmd, Hgone.
    destruct (validate_input_ok w next); cbn [negb]; [|split; reflexivity].
    destruct (engine_succeeds w next); cbn [negb]; split; reflexivity.
  - intros Hmd ->. unfold r, process. rewrite Hmd. split; reflexivity.
Qed.

Lemma own_directory_serves_one_call_witness :
  success (fst (fst (process sample_world own_temp_pipeline "b.pdf" "out/b.json"
                       None None false
                       (snd (process sample_world own_temp_pipeline "a.pdf"
                               "out/a.json" None None false fresh_state)))))
  = false.
Proof.
  refine (proj1 (proj1 (proj2
            (own_directory_serves_one_call sample_world own_temp_pipeline
               "a.pdf" "out/a.json" None None false fresh_state
               "b.pdf" "out/b.json" None None false _)) _)).
  - reflexivity.
  - vm_compute. reflexivity.
Defined.

(** ** Image results *)

Lemma ocr_from_facts (matches : list image) :
  forall idx i r,
    nth_error (ocr_from idx matches) i = Some r ->
    idx + i <= image_index r < idx + length matches
    /\ extracted_text r <> EmptyString.
Proof.
  induction matches as [|img matches IH]; intros idx i r Hr; [destruct i; discriminate|].
  cbn [ocr_from] in Hr.
  destruct (process_single_image idx img) as [r0|] eqn:E.
  - destruct i as [|i]; simpl in Hr.
    + injection Hr as <-. unfold process_single_image in E.
      destruct (recognised img) as [[|l ls]|]; try discriminate.
      destruct (is_empty (strip _)) eqn:Ee; [discriminate|].
      injection E as <-. cbn [image_index extracted_text length]. split; [lia|].
      now apply is_empty_false.
    + destruct (IH (S idx) i r Hr) as [Hrange Htext]. cbn [length].
      split; [lia | exact Htext].
  - destruct (IH (S idx) i r Hr) as [Hrange Htext]. cbn [length].
    split; [lia | exact Htext].
Qed.

Lemma ocr_from_skip (before : list image) :
  forall idx img after,
    process_single_image (idx + length before) img = None ->
    ocr_from idx (before ++ img :: after)
    = ocr_from idx before ++ ocr_from (S (idx + length before)) after.
Proof.
  induction before as [|b before IH]; intros idx img after Hnone.
  - cbn [app ocr_from length] in *. rewrite Nat.add_0_r in *. now rewrite Hnone.
  - cbn [app ocr_from length] in *.
    replace (idx + S (length before)) with (S idx + length before) in * by lia.
    destruct (process_single_image idx b); cbn [app]; now rewrite (IH (S idx)).
Qed.

(** X15.  The results of [extract_and_ocr_images] are listed by strictly
    increasing image index, each index lies between 1 and the number of
    images found, no result has an empty text, and an image whose
    recognition raises or yields nothing only loses its own entry: the
    entries of the images before and after it are what they would be
    anyway, with their positions among all images as indices. *)
Theorem ocr_results_ordered (matches : list image) :
  (forall i r,
     nth_error (extract_and_ocr_images matches) i = Some r ->
     1 <= image_index r <= length matches /\ extracted_text r <> EmptyString)
  /\ (forall i j r r',
        nth_error (extract_and_ocr_images matches) i = Some r ->
        nth_error (extract_and_ocr_images matches) j = Some r' ->
        i < j -> image_index r < image_index r')
  /\ (forall before img after,
        matches = before ++ img :: after ->
        process_single_image (S (length before)) img = None ->
        extract_and_ocr_images matches
        = ocr_from 1 before ++ ocr_from (S (S (length before))) after).
Proof.
  unfold extract_and_ocr_images. split; [|split].
  - intros i r Hr. destruct (ocr_from_facts matches 1 i r Hr) as [H1 H2].
    split; [lia | exact H2].
  - generalize 1. induction matches as [|img matches IH]; intros idx i j r r' Hi Hj Hlt;
      [destruct i; discriminate|].
    cbn [ocr_from] in Hi, Hj.
    destruct (process_single_image idx img) as [r0|] eqn:E;
      [|apply (IH (S idx) i j r r' Hi Hj Hlt)].
    destruct j as [|j]; [lia|]. simpl in Hj.
    destruct i as [|i]; simpl in Hi.
    + injection Hi as <-.
      destruct (ocr_from_facts matches (S idx) j r' Hj) as [Hrange _].
      unfold process_single_image in E.
      destruct (recognised img) as [[|l ls]|]; try discriminate.
      destruct (is_empty (strip _)); [discriminate|].
      injection E as <-. cbn [image_index]. lia.
    + apply (IH (S idx) i j r r' Hi Hj). lia.
  - intros before img after -> Hnone. apply (ocr_from_skip before 1 img after Hnone).
Qed.

Lemma ocr_results_ordered_witness :
  map image_index
      (extract_and_ocr_images
         [ {| img_format := "png"; recognised := Some ["Total"; "42"] |};
           {| img_format := "jpeg"; recognised := None |};
           {| img_format := "png"; recognised := Some ["  "] |};
           {| img_format := "png"; recognised := Some ["Q1 2025"] |} ])
  = [1; 4].
Proof.
  exact (f_equal (map image_index)
           (proj2 (proj2 (ocr_results_ordered _))
              [ {| img_format := "png"; recognised := Some ["Total"; "42"] |} ]
              {| img_format := "jpeg"; recognised := None |}
              [ {| img_format := "png"; recognised := Some ["  "] |};
                {| img_format := "png"; recognised := Some ["Q1 2025"] |} ]
              eq_refl eq_refl)).
Defined.

End PipelineMore.

(* ===================================================================== *)
(** * [md_converter]: saving markdown and choosing file names *)
(* ===================================================================== *)

Module ConverterMore.
Import PyStr PyStrFacts Fs Pipeline Converter ChunkIds.

(** ** [save_markdown_async] *)

(** X16.  [save_markdown_async] replaces the file in one step: after any
    number of its operations the output path holds either what it held
    before or the complete new text; at the end it holds the new text, the
    temporary file is gone, and no other path has changed. *)
Theorem save_markdown_atomic
        (fs : gmap string (list string)) (content output_path : string) (k : nat) :
  with_suffix output_path ".tmp" <> output_path ->
  let ops := save_markdown_async_ops content output_path in
  (apply_ops fs (firstn k ops) !! output_path = fs !! output_path
   \/ apply_ops fs (firstn k ops) !! output_path = Some [content])
  /\ apply_ops fs ops !! output_path = Some [content]
  /\ apply_ops fs ops !! with_suffix output_path ".tmp" = None
  /\ forall p, p <> output_path -> p <> with_suffix output_path ".tmp" ->
               apply_ops fs ops !! p = fs !! p.
Proof.
  intros Hne. unfold save_markdown_async_ops.
  set (tmp := with_suffix output_path ".tmp") in *.
  assert (Hrename : forall g : gmap string (list string),
             apply_op (<[tmp := [] ++ [content]]> g) (OpRename tmp output_path)
             = <[output_path := [content]]> (delete tmp (<[tmp := [content]]> g))).
  { intros g. unfold apply_op. now rewrite lookup_insert_eq. }
  assert (Hwrite : forall g : gmap string (list string),
             apply_op (<[tmp := []]> g) (OpWrite tmp content)
             = <[tmp := [] ++ [content]]> (<[tmp := []]> g)).
  { intros g. unfold apply_op. now rewrite lookup_insert_eq. }
  cbv zeta. split; [|split; [|split]].
  - destruct k as [|[|[|[|[|k]]]]]; cbn [firstn apply_ops fold_left];
      try (left; cbn [apply_op]; try rewrite Hwrite;
           rewrite ?lookup_insert_ne by congruence; reflexivity).
    right. destruct k as [|[|k]]; cbn [firstn apply_ops fold_left];
      change (apply_op fs (OpLockAcquire output_path)) with fs;
      change (apply_op fs (OpOpenW tmp)) with (<[tmp := []]> fs);
      rewrite Hwrite;
      change (apply_op (<[tmp := [] ++ [content]]> (<[tmp := []]> fs)) (OpClose tmp))
        with (<[tmp := [] ++ [content]]> (<[tmp := []]> fs));
      rewrite Hrename; cbn [apply_op]; apply lookup_insert_eq.
  - cbn [apply_ops fold_left].
    change (apply_op fs (OpLockAcquire output_path)) with fs.
    change (apply_op fs (OpOpenW tmp)) with (<[tmp := []]> fs).
    rewrite Hwrite.
    change (apply_op (<[tmp := [] ++ [content]]> (<[tmp := []]> fs)) (OpClose tmp))
      with (<[tmp := [] ++ [content]]> (<[tmp := []]> fs)).
    rewrite Hrename. cbn [apply_op]. apply lookup_insert_eq.
  - cbn [apply_ops fold_left].
    change (apply_op fs (OpLockAcquire output_path)) with fs.
    change (apply_op fs (OpOpenW tmp)) with (<[tmp := []]> fs).
    rewrite Hwrite.
    change (apply_op (<[tmp := [] ++ [content]]> (<[tmp := []]> fs)) (OpClose tmp))
      with (<[tmp := [] ++ [content]]> (<[tmp := []]> fs)).
    rewrite Hrename. cbn [apply_op].
    rewrite lookup_insert_ne by congruence. apply lookup_delete_eq.
  - intros p Hp Htmp. cbn [apply_ops fold_left].
    change (apply_op fs (OpLockAcquire output_path)) with fs.
    change (apply_op fs (OpOpenW tmp)) with (<[tmp := []]> fs).
    rewrite Hwrite.
    change (apply_op (<[tmp := [] ++ [content]]> (<[tmp := []]> fs)) (OpClose tmp))
      with (<[tmp := [] ++ [content]]> (<[tmp := []]> fs)).
    rewrite Hrename. cbn [apply_op].
    rewrite lookup_insert_ne by congruence.
    rewrite lookup_delete_ne by congruence.
    rewrite !lookup_insert_ne by congruence. reflexivity.
Qed.

Lemma save_markdown_atomic_witness :
  apply_ops {[ "tmp/report.md" := ["old text"] ]}
            (firstn 4 (save_markdown_async_ops "# Report" "tmp/report.md"))
    !! "tmp/report.md" = Some ["old text"].
Proof.
  destruct (proj1 (save_markdown_atomic {[ "tmp/report.md" := ["old text"] ]}
                     "# Report" "tmp/report.md" 4 ltac:(vm_compute; discriminate)))
    as [H | H].
  - rewrite H. apply lookup_singleton_eq.
  - exfalso. vm_compute in H. discriminate.
Defined.

(** ** [get_unique_filename] *)

Lemma string_length_app (a b : string) :
  String.length (a +:+ b) = String.length a + String.length b.
Proof. induction a as [|c a IH]; simpl; [reflexivity | now rewrite IH]. Qed.

Lemma append_cancel_r (a b x : string) : a +:+ x = b +:+ x -> a = b.
Proof.
  revert b. induction a as [|c a IH]; intros [|d b] H.
  - reflexivity.
  - exfalso. apply (f_equal String.length) in H.
    rewrite ?string_length_app in H. cbn [String.length] in H.
    rewrite ?string_length_app in H. lia.
  - exfalso. apply (f_equal String.length) in H.
    rewrite ?string_length_app in H. cbn [String.length] in H.
    rewrite ?string_length_app in H. lia.
  - injection H as -> H. f_equal. apply (IH b H).
Qed.

Lemma candidate_injective (base_name output_dir extension : string) (j k : nat) :
  candidate base_name output_dir extension j
  = candidate base_name output_dir extension k -> j = k.
Proof.
  unfold candidate, path_join. intros H.
  destruct j as [|j], k as [|k]; [reflexivity | | |].
  - exfalso. do 3 apply append_cancel_l in H.
    apply (f_equal String.length) in H. rewrite !string_length_app in H.
    simpl in H. lia.
  - exfalso. do 3 apply append_cancel_l in H.
    apply (f_equal String.length) in H. rewrite !string_length_app in H.
    simpl in H. lia.
  - do 4 apply append_cancel_l in H. apply append_cancel_r in H.
    now apply str_of_nat_injective.
Qed.

Lemma unique_loop_some (fuel : nat) (existing : gset string)
      (base_name output_dir extension : string) :
  forall k p,
    unique_loop fuel existing base_name output_dir extension k = Some p ->
    exists n, p = candidate base_name output_dir extension (k + n)
              /\ (p ∉ existing)
              /\ forall j, k <= j < k + n ->
                           candidate base_name output_dir extension j ∈ existing.
Proof.
  induction fuel as [|f IH]; intros k p H; [discriminate|].
  cbn [unique_loop] in H.
  destruct (decide (candidate base_name output_dir extension k ∈ existing)) as [Hin|Hout].
  - destruct (IH (S k) p H) as (n & Hp & Hfree & Hbelow).
    exists (S n). split; [rewrite Hp; f_equal; lia|]. split; [exact Hfree|].
    intros j Hj. destruct (Nat.eq_dec j k) as [->|]; [exact Hin|].
    apply Hbelow. lia.
  - injection H as <-. exists 0. rewrite Nat.add_0_r.
    split; [reflexivity|]. split; [exact Hout|]. intros j Hj. lia.
Qed.

Lemma unique_loop_none (fuel : nat) (existing : gset string)
      (base_name output_dir extension : string) :
  forall k,
    unique_loop fuel existing base_name output_dir extension k = None ->
    forall j, k <= j < k + fuel ->
              candidate base_name output_dir extension j ∈ existing.
Proof.
  induction fuel as [|f IH]; intros k H j Hj; [lia|].
  cbn [unique_loop] in H.
  destruct (decide (candidate base_name output_dir extension k ∈ existing)) as [Hin|Hout];
    [|discriminate].
  destruct (Nat.eq_dec j k) as [->|]; [exact Hin|].
  apply (IH (S k) H). lia.
Qed.

(** A set cannot hold more candidates than it has elements. *)
Lemma candidates_bounded (existing : gset string)
      (base_name output_dir extension : string) (n : nat) :
  (forall j, j < n -> candidate base_name output_dir extension j ∈ existing) ->
  n <= size existing.
Proof.
  intros Hall.
  set (l := candidate base_name output_dir extension <$> seq 0 n).
  assert (Hnodup : NoDup l).
  { apply NoDup_fmap_2; [|apply NoDup_seq].
    intros j k Hjk. now apply candidate_injective in Hjk. }
  assert (Hsub : (list_to_set l : gset string) ⊆ existing).
  { intros x Hx. apply elem_of_list_to_set in Hx.
    apply list_elem_of_fmap in Hx as (j & -> & Hj).
    apply elem_of_seq in Hj. apply Hall. lia. }
  apply subseteq_size in Hsub.
  rewrite (size_list_to_set l Hnodup) in Hsub.
  unfold l in Hsub. rewrite length_fmap, length_seq in Hsub. exact Hsub.
Qed.

(** X17.  [get_unique_filename] always returns: its loop ends after at most
    as many rounds as there are existing paths.  The name it returns does
    not exist, it is [base.ext] if that is free and otherwise
    [base_k.ext] for the smallest [k >= 1] that is free. *)
Theorem get_unique_filename_fresh
        (existing : gset string) (base_name output_dir extension : string) :
  exists p k,
    get_unique_filename existing base_name output_dir extension = Some p
    /\ p = candidate base_name output_dir extension k
    /\ (p ∉ existing)
    /\ forall j, j < k -> candidate base_name output_dir extension j ∈ existing.
Proof.
  unfold get_unique_filename.
  destruct (unique_loop (S (size existing)) existing base_name output_dir extension 0)
    as [p|] eqn:E.
  - destruct (unique_loop_some _ _ _ _ _ _ _ E) as (n & Hp & Hfree & Hbelow).
    exists p, n. split; [reflexivity|]. split; [exact Hp|]. split; [exact Hfree|].
    intros j Hj. apply Hbelow. lia.
  - exfalso.
    pose proof (candidates_bounded existing base_name output_dir extension
                  (S (size existing))
                  (fun j Hj => unique_loop_none _ _ _ _ _ _ E j ltac:(lia))).
    lia.
Qed.

(** A directory that already holds [report.md] and [report_1.md]. *)
Example unique_name_example :
  get_unique_filename {[ "tmp/report.md"; "tmp/report_1.md" ]} "report" "tmp" ".md"
  = Some "tmp/report_2.md".
Proof. vm_compute. reflexivity. Qed.

End ConverterMore.

(* ===================================================================== *)
(** * More on the table heuristic *)
(* ===================================================================== *)

Module TableHeuristicMore.
Import PyStr PyStrFacts TableHeuristic TableHeuristicFacts TableHeuristicClaims.

(** ** Table anchors *)

Lemma table_line_not_separator (s : string) :
  is_table_line s = true -> startswith "|--" s = false.
Proof.
  unfold is_table_line. intros H. apply andb_true_iff in H as [_ H].
  now apply negb_true_iff in H.
Qed.

Lemma starts_facts (ls : list string) :
  forall i flag a,
    In a (find_table_starts ls i flag) ->
    i <= a < i + length ls
    /\ is_table_line (strip (nth (a - i) ls EmptyString)) = true
    /\ (a = i -> flag = false)
    /\ (i < a -> is_table_line (strip (nth (a - i - 1) ls EmptyString)) = false).
Proof.
  induction ls as [|l ls IH]; intros i flag a Hin; [destruct Hin|].
  cbn [find_table_starts] in Hin. cbn [length].
  destruct (is_table_line (strip l)) eqn:Etab.
  - destruct flag; cbn [negb andb] in Hin.
    + destruct (IH (S i) true a Hin) as (Hr & Ht & Hf & Hp).
      assert (a <> S i) by (intros ->; specialize (Hf eq_refl); discriminate).
      split; [lia|]. split; [|split; [lia|]].
      * replace (a - i) with (S (a - S i)) by lia. exact Ht.
      * intros _. replace (a - i - 1) with (S (a - S i - 1)) by lia. apply Hp. lia.
    + destruct Hin as [<- | Hin].
      * split; [lia|]. split; [|split; [reflexivity | lia]].
        rewrite Nat.sub_diag. exact Etab.
      * destruct (IH (S i) true a Hin) as (Hr & Ht & Hf & Hp).
        assert (a <> S i) by (intros ->; specialize (Hf eq_refl); discriminate).
        split; [lia|]. split; [|split; [lia|]].
        -- replace (a - i) with (S (a - S i)) by lia. exact Ht.
        -- intros _. replace (a - i - 1) with (S (a - S i - 1)) by lia. apply Hp. lia.
  - cbn [negb andb] in Hin.
    assert (Hgen : exists flag', In a (find_table_starts ls (S i) flag')).
    { destruct (startswith "|--" (strip l)); cbn [negb] in Hin; eauto. }
    destruct Hgen as [flag' Hin'].
    destruct (IH (S i) flag' a Hin') as (Hr & Ht & _ & Hp).
    split; [lia|]. split; [|split; [lia|]].
    + replace (a - i) with (S (a - S i)) by lia. exact Ht.
    + intros _. destruct (Nat.eq_dec a (S i)) as [->|Hne].
      * replace (S i - i - 1) with 0 by lia. exact Etab.
      * replace (a - i - 1) with (S (a - S i - 1)) by lia. apply Hp. lia.
Qed.

Lemma starts_increasing (ls : list string) :
  forall i flag p q a b,
    p < q ->
    nth_error (find_table_starts ls i flag) p = Some a ->
    nth_error (find_table_starts ls i flag) q = Some b ->
    a < b.
Proof.
  induction ls as [|l ls IH]; intros i flag p q a b Hpq Ha Hb;
    [destruct p; discriminate|].
  cbn [find_table_starts] in Ha, Hb.
  destruct (is_table_line (strip l) && negb flag).
  - destruct q as [|q]; [lia|]. simpl in Hb.
    destruct p as [|p]; simpl in Ha.
    + injection Ha as <-. apply nth_error_In in Hb.
      destruct (starts_facts ls (S i) true b Hb) as (Hr & _). lia.
    + apply (IH (S i) true p q a b); [lia | exact Ha | exact Hb].
  - destruct (negb (is_table_line (strip l)) && negb (startswith "|--" (strip l)));
      eapply IH; eauto.
Qed.

Lemma starts_cover (ls : list string) :
  forall i flag j,
    j < length ls ->
    is_table_line (strip (nth j ls EmptyString)) = true ->
    flag = true \/ exists a, In a (find_table_starts ls i flag) /\ a <= i + j.
Proof.
  induction ls as [|l ls IH]; intros i flag j Hj Htab; [simpl in Hj; lia|].
  cbn [find_table_starts].
  destruct flag; [now left | right]. cbn [negb]. rewrite andb_true_r.
  destruct (is_table_line (strip l)) eqn:El.
  - exists i. split; [now left | lia].
  - cbn [negb andb].
    destruct j as [|j]; [simpl in Htab; congruence|].
    simpl in Hj, Htab.
    assert (Hrest : exists a, In a (find_table_starts ls (S i) false) /\ a <= S i + j).
    { destruct (IH (S i) false j ltac:(lia) Htab) as [Habs | H]; [discriminate | exact H]. }
    destruct Hrest as (a & Hin & Hle).
    exists a. split; [|lia].
    destruct (startswith "|--" (strip l)); exact Hin.
Qed.

(** X18.  The table anchors found in a markdown text are line indices in
    strictly increasing order; each anchor is a line that starts with ['|']
    and not with ['|--'] and is not preceded by such a line; and every such
    line lies at or after some anchor. *)
Theorem table_anchors_mark_runs (content : string) :
  let lines := split_nl content in
  let starts := table_starts_of content in
  (forall a, In a starts ->
     a < length lines
     /\ is_table_line (line_at lines a) = true
     /\ (0 < a -> is_table_line (line_at lines (a - 1)) = false))
  /\ (forall p q a b,
        p < q -> nth_error starts p = Some a -> nth_error starts q = Some b ->
        a < b)
  /\ (forall j, j < length lines -> is_table_line (line_at lines j) = true ->
                exists a, In a starts /\ a <= j).
Proof.
  cbv zeta. unfold table_starts_of, line_at. split; [|split].
  - intros a Hin.
    destruct (starts_facts _ 0 false a Hin) as (Hr & Ht & _ & Hp).
    rewrite Nat.sub_0_r in *. split; [lia|]. split; [exact Ht|]. exact Hp.
  - intros p q a b. apply starts_increasing.
  - intros j Hj Ht.
    destruct (starts_cover _ 0 false j Hj Ht) as [Habs | H]; [discriminate | exact H].
Qed.

Lemma table_anchors_mark_runs_witness :
  table_starts_of example_markdown = [2]
  /\ is_table_line (line_at (split_nl example_markdown) 1) = false.
Proof.
  split; [vm_compute; reflexivity|].
  refine (proj2 (proj2 (proj1 (table_anchors_mark_runs example_markdown) 2 _)) _).
  - vm_compute. left. reflexivity.
  - lia.
Defined.

(** ** The subtitle *)

Lemma scan_back_subtitle (lines : list string) (start : nat) (idxs : list nat) :
  forall potential s,
    snd (fst (scan_back lines start idxs potential)) = Some s ->
    exists i,
      In i idxs /\ startswith "##" (line_at lines i) = true
      /\ find_subtitle lines (S i) (start - S i) = Some s
      /\ fst (fst (scan_back lines start idxs potential))
         = Some (strip (lstrip_hash (line_at lines i))).
Proof.
  induction idxs as [|i rest IH]; intros potential s H; [discriminate|].
  cbn [scan_back] in H |- *.
  destruct (is_empty (line_at lines i)).
  - destruct (IH _ _ H) as (j & Hj & Hrest). exists j. split; [now right | exact Hrest].
  - destruct (startswith "##" (line_at lines i)) eqn:Ehead.
    + exists i. cbn [fst snd] in *.
      split; [now left|]. split; [exact Ehead|]. split; [exact H | reflexivity].
    + destruct (fallback_ok (line_at lines i));
        destruct (IH _ _ H) as (j & Hj & Hrest); exists j;
        (split; [now right | exact Hrest]).
Qed.

Lemma first_heading_split (lines : list string) (idxs : list nat) (i0 : nat) :
  In i0 idxs -> startswith "##" (line_at lines i0) = true ->
  exists l1 i l2,
    idxs = l1 ++ i :: l2
    /\ startswith "##" (line_at lines i) = true
    /\ forall j, In j l1 -> startswith "##" (line_at lines j) = false.
Proof.
  induction idxs as [|a idxs IH]; intros Hin Hh; [destruct Hin|].
  destruct (startswith "##" (line_at lines a)) eqn:Ea.
  - exists [], a, idxs. split; [reflexivity|]. split; [exact Ea | intros j []].
  - destruct Hin as [-> | Hin]; [congruence|].
    destruct (IH Hin Hh) as (l1 & i & l2 & -> & Hi & Hl1).
    exists (a :: l1), i, l2. split; [reflexivity|]. split; [exact Hi|].
    intros j [<- | Hj]; [exact Ea | now apply Hl1].
Qed.

Lemma first_fallback_some (lines : list string) (idxs : list nat) (p : string) :
  first_fallback lines idxs = Some p ->
  exists j, In j idxs /\ fallback_ok (line_at lines j) = true /\ p = line_at lines j.
Proof.
  induction idxs as [|a idxs IH]; cbn [first_fallback]; [discriminate|].
  destruct (fallback_ok (line_at lines a)) eqn:Ea.
  - intros [= <-]. exists a. split; [now left|]. split; [exact Ea | reflexivity].
  - intros H. destruct (IH H) as (j & Hj & Hrest). exists j.
    split; [now right | exact Hrest].
Qed.

(** X19.  A subtitle is returned only for a table with an anchor and a
    line starting with [##] among the four lines before it: with [i] the
    closest such line, the subtitle is the stripped text of a line strictly
    between [i] and the anchor that starts with ['('] and ends with [')'].
    The title returned with it is the heading's text when that is not
    empty.  When the heading text is empty, the title is a plain title line
    between heading and anchor, or else the empty string. *)
Theorem subtitle_needs_heading
        (md : option string) (idx : nat) (grid : list (list string)) (s : string) :
  let r := extract_markdown_table_title_and_header md idx grid in
  subtitle_of r = Some s ->
  parenthesised s
  /\ exists content start i k,
       let lines := split_nl content in
       let heading := strip (lstrip_hash (line_at lines i)) in
       md = Some content
       /\ nth_error (table_starts_of content) idx = Some start
       /\ i < k < start /\ start <= i + 4
       /\ startswith "##" (line_at lines i) = true
       /\ (forall j, i < j < start -> startswith "##" (line_at lines j) = false)
       /\ line_at lines k = s
       /\ (heading <> EmptyString -> title_of r = Some heading)
       /\ (heading = EmptyString ->
           title_of r = Some EmptyString
           \/ exists j, i < j < start /\ plain_title_line (line_at lines j)
                        /\ title_of r = Some (line_at lines j)).
Proof.
  cbv zeta. unfold extract_markdown_table_title_and_header.
  destruct md as [content|]; [|discriminate].
  destruct grid as [|row grid]; [discriminate|].
  destruct (is_empty content); [discriminate|].
  fold (table_starts_of content).
  destruct (nth_error (table_starts_of content) idx) as [start|] eqn:Estart;
    [|discriminate].
  set (lines := split_nl content).
  assert (Hhead : forall sub,
             snd (fst (scan_back lines start (down_from start 4) None)) = Some sub ->
             exists l1 i l2,
               down_from start 4 = l1 ++ i :: l2
               /\ startswith "##" (line_at lines i) = true
               /\ forall j, In j l1 -> startswith "##" (line_at lines j) = false).
  { intros sub Hsub.
    destruct (scan_back_subtitle lines start (down_from start 4) None sub Hsub)
      as (i0 & Hin & Hh & _).
    exact (first_heading_split lines _ i0 Hin Hh). }
  destruct (scan_back lines start (down_from start 4) None)
    as [[t sub] pot] eqn:Escan.
  unfold subtitle_of, title_of. cbn [fst snd]. intros ->.
  destruct (Hhead s eq_refl) as (l1 & i & l2 & Hsplit & Hi & Hl1).
  rewrite Hsplit, (scan_back_heading lines start l1 l2 i None Hl1 Hi) in Escan.
  cbn [keep_or] in Escan. injection Escan as <- Hfind <-.
  destruct (down_from_split _ _ _ _ _ Hsplit) as (Hlt & Hle & Hbetween).
  apply find_subtitle_some in Hfind as (k & Hk & Hline & Hpar & _).
  apply is_subtitle_spec in Hpar.
  split; [exact Hpar|].
  exists content, start, i, k. cbv zeta. fold lines.
  split; [reflexivity|]. split; [exact Estart|]. split; [lia|]. split; [lia|].
  split; [exact Hi|].
  split; [intros j Hj; apply Hl1, Hbetween, Hj|].
  split; [exact Hline|].
  cbn [truthy]. split.
  - intros Hne. apply is_empty_false in Hne. rewrite Hne. reflexivity.
  - intros ->. cbn [is_empty negb andb].
    destruct (first_fallback lines l1) as [p|] eqn:Efb; cbn [truthy].
    + destruct (first_fallback_some lines l1 p Efb) as (j & Hj & Hok & ->).
      destruct (is_empty (line_at lines j)) eqn:Ee; cbn [negb].
      * now left.
      * right. exists j. split; [apply Hbetween, Hj|].
        split; [now apply fallback_ok_spec | reflexivity].
    + now left.
Qed.

Lemma subtitle_needs_heading_witness :
  title_of (extract_markdown_table_title_and_header
              (Some example_markdown) 0 example_grid)
  = Some "Revenue by Segment".
Proof.
  destruct (subtitle_needs_heading (Some example_markdown) 0 example_grid
              "(in millions)")
    as (_ & content & start & i & k & Hmd & Hstart & _ & _ & _ & _ & _ & Htitle & _).
  - vm_compute. reflexivity.
  - injection Hmd as <-.
    assert (start = 2) as -> by (vm_compute in Hstart; congruence).
    vm_compute. reflexivity.
Defined.

(** A subtitle next to an empty title: the heading consists of the marker
    only and no plain line lies between it and the table. *)
Example subtitle_with_empty_title :
  extract_markdown_table_title_and_header
    (Some ("##" +:+ nl +:+ "(USD)" +:+ nl +:+ "|A|B|")) 0 [["A"; "B"]]
  = (Some EmptyString, 1, Some "(USD)").
Proof. vm_compute. reflexivity. Qed.

End TableHeuristicMore.

(* ===================================================================== *)
(** * The table utilities of the chunker *)
(* ===================================================================== *)

Module TableToolsFacts.
Import PyStr PyStrFacts TableTools ConverterMore.

(** ** Strings *)

Lemma append_assoc_s (a b c : string) : (a +:+ b) +:+ c = a +:+ (b +:+ c).
Proof.
  induction a as [|x a IH]; [reflexivity|].
  change (String x ((a +:+ b) +:+ c) = String x (a +:+ (b +:+ c))).
  now f_equal.
Qed.

Lemma append_empty_r (a : string) : a +:+ EmptyString = a.
Proof.
  induction a as [|x a IH]; [reflexivity|].
  change (String x (a +:+ EmptyString) = String x a).
  now f_equal.
Qed.

Lemma repeat_char_length (c : ascii) (n : nat) : String.length (repeat_char c n) = n.
Proof. induction n as [|n IH]; simpl; [reflexivity | now rewrite IH]. Qed.

Lemma all_chars_app (p : ascii -> bool) (a b : string) :
  all_chars p (a +:+ b) = all_chars p a && all_chars p b.
Proof.
  induction a as [|x a IH]; simpl; [reflexivity|].
  now rewrite IH, andb_assoc.
Qed.

Lemma all_chars_repeat (p : ascii -> bool) (c : ascii) (n : nat) :
  p c = true -> all_chars p (repeat_char c n) = true.
Proof. intros H. induction n as [|n IH]; simpl; [reflexivity | now rewrite H, IH]. Qed.

Lemma all_chars_impl (p q : ascii -> bool) (s : string) :
  (forall c, p c = true -> q c = true) ->
  all_chars p s = true -> all_chars q s = true.
Proof.
  intros Hpq. induction s as [|c s IH]; simpl; [reflexivity|].
  intros H. apply andb_true_iff in H as [Hc Hs].
  now rewrite (Hpq _ Hc), (IH Hs).
Qed.

(** ** Stripping *)

Lemma lstrip_by_length (p : ascii -> bool) (s : string) :
  String.length (lstrip_by p s) <= String.length s.
Proof.
  induction s as [|c s IH]; simpl; [lia|].
  destruct (p c); simpl; lia.
Qed.

Lemma rstrip_by_length (p : ascii -> bool) (s : string) :
  String.length (rstrip_by p s) <= String.length s.
Proof.
  induction s as [|c s IH]; simpl; [lia|].
  destruct (is_empty (rstrip_by p s) && p c); simpl; lia.
Qed.

Lemma rstrip_by_idem (p : ascii -> bool) (s : string) :
  rstrip_by p (rstrip_by p s) = rstrip_by p s.
Proof.
  induction s as [|c s IH]; simpl; [reflexivity|].
  destruct (is_empty (rstrip_by p s) && p c) eqn:E; simpl; [reflexivity|].
  now rewrite IH, E.
Qed.

Lemma lstrip_by_head (p : ascii -> bool) (s : string) :
  match lstrip_by p s with
  | EmptyString => True
  | String c _ => p c = false
  end.
Proof.
  induction s as [|c s IH]; simpl; [exact I|].
  destruct (p c) eqn:E; [exact IH | simpl; exact E].
Qed.

Lemma rstrip_by_cons (p : ascii -> bool) (c : ascii) (s : string) :
  p c = false -> rstrip_by p (String c s) = String c (rstrip_by p s).
Proof. intros H. simpl. now rewrite H, andb_false_r. Qed.

Lemma strip_idem (s : string) : strip (strip s) = strip s.
Proof.
  unfold strip.
  pose proof (lstrip_by_head isspace s) as Hh.
  destruct (lstrip_by isspace s) as [|c r]; [reflexivity|].
  rewrite (rstrip_by_cons _ _ _ Hh).
  cbn [lstrip_by]. rewrite Hh.
  rewrite (rstrip_by_cons _ _ _ Hh). now rewrite rstrip_by_idem.
Qed.

(** A stripped text is empty or starts with a character that is no
    white space, and stripping on the right leaves it alone. *)
Lemma stripped_shape (s : string) :
  strip s = s ->
  rstrip_by isspace s = s
  /\ match s with EmptyString => True | String c _ => isspace c = false end.
Proof.
  intros H. destruct s as [|c r]; [split; [reflexivity | exact I]|].
  destruct (isspace c) eqn:E.
  - exfalso. apply (f_equal String.length) in H. unfold strip in H.
    cbn [lstrip_by] in H. rewrite E in H.
    pose proof (rstrip_by_length isspace (lstrip_by isspace r)).
    pose proof (lstrip_by_length isspace r). simpl in H. lia.
  - split; [|reflexivity]. unfold strip in H. cbn [lstrip_by] in H.
    now rewrite E in H.
Qed.

Lemma lstrip_spaces (n : nat) (s : string) :
  lstrip_by isspace (repeat_char " " n +:+ s) = lstrip_by isspace s.
Proof. induction n as [|n IH]; [reflexivity | exact IH]. Qed.

Lemma rstrip_spaces (n : nat) (s : string) :
  rstrip_by isspace (s +:+ repeat_char " " n) = rstrip_by isspace s.
Proof.
  induction s as [|c s IH].
  - change (EmptyString +:+ repeat_char " " n) with (repeat_char " " n).
    cbn [rstrip_by]. induction n as [|n IHn]; [reflexivity|].
    cbn [repeat_char rstrip_by]. now rewrite IHn.
  - change (String c s +:+ repeat_char " " n)
      with (String c (s +:+ repeat_char " " n)).
    cbn [rstrip_by]. now rewrite IH.
Qed.

Lemma strip_padded (a b : nat) (c : string) :
  strip c = c ->
  strip (repeat_char " " a +:+ c +:+ repeat_char " " b) = c.
Proof.
  intros H. destruct (stripped_shape c H) as [Hr Hh].
  unfold strip. rewrite lstrip_spaces.
  destruct c as [|x r].
  - change (EmptyString +:+ repeat_char " " b) with (repeat_char " " b).
    rewrite <- (append_empty_r (repeat_char " " b)).
    rewrite lstrip_spaces. reflexivity.
  - change (String x r +:+ repeat_char " " b)
      with (String x (r +:+ repeat_char " " b)).
    cbn [lstrip_by]. rewrite Hh.
    change (String x (r +:+ repeat_char " " b))
      with (String x r +:+ repeat_char " " b).
    now rewrite rstrip_spaces.
Qed.

Lemma rstrip_by_last (p : ascii -> bool) (s : string) (c : ascii) :
  p c = false ->
  rstrip_by p (s +:+ String c EmptyString) = s +:+ String c EmptyString.
Proof.
  intros H. induction s as [|a s IH].
  - change (EmptyString +:+ String c EmptyString) with (String c EmptyString).
    cbn [rstrip_by is_empty andb]. now rewrite H.
  - change (String a s +:+ String c EmptyString)
      with (String a (s +:+ String c EmptyString)).
    cbn [rstrip_by]. rewrite IH. destruct s; reflexivity.
Qed.

(** A text between two pipes is its own stripped form. *)
Lemma strip_piped (m : string) :
  strip ("|" +:+ m +:+ "|") = "|" +:+ m +:+ "|".
Proof.
  unfold strip.
  change ("|" +:+ m +:+ "|") with (String "|" (m +:+ "|")).
  cbn [lstrip_by]. change (isspace "|") with false. cbv iota.
  change (String "|" (m +:+ "|")) with (String "|" m +:+ "|").
  now apply rstrip_by_last.
Qed.

Lemma all_chars_lstrip (p q : ascii -> bool) (s : string) :
  all_chars p s = true -> all_chars p (lstrip_by q s) = true.
Proof.
  induction s as [|c s IH]; simpl; [reflexivity|].
  intros H. destruct (q c); [|exact H].
  apply andb_true_iff in H as [_ H]. now apply IH.
Qed.

Lemma all_chars_rstrip (p q : ascii -> bool) (s : string) :
  all_chars p s = true -> all_chars p (rstrip_by q s) = true.
Proof.
  induction s as [|c s IH]; simpl; [reflexivity|].
  intros H. apply andb_true_iff in H as [Hc H].
  destruct (is_empty (rstrip_by q s) && q c); simpl; [reflexivity|].
  now rewrite Hc, IH.
Qed.

Lemma all_chars_strip (p : ascii -> bool) (s : string) :
  all_chars p s = true -> all_chars p (strip s) = true.
Proof. intros H. unfold strip. now apply all_chars_rstrip, all_chars_lstrip. Qed.

(** ** Consecutive duplicates *)









(** ** The markdown form of a table *)

Lemma join_length (sep : string) (l : list string) :
  String.length (join sep l)
  = list_sum (map String.length l) + String.length sep * (length l - 1).
Proof.
  induction l as [|x r IH]; [simpl; lia|].
  cbn [join]. destruct r as [|y r].
  - simpl. lia.
  - rewrite !string_length_app, IH. cbn [map list_sum length].
    replace (S (S (length r)) - 1) with (S (S (length r) - 1)) by lia.
    rewrite Nat.mul_succ_r. unfold list_sum. cbn [fold_right]. lia.
Qed.

Lemma ljust_length (w : nat) (s : string) :
  String.length s <= w -> String.length (ljust w s) = w.
Proof.
  intros H. unfold ljust. rewrite string_length_app, repeat_char_length. lia.
Qed.

Lemma max_cols_bound (t : list (list string)) (row : list string) :
  In row t -> length row <= max_cols t.
Proof.
  induction t as [|r t IH]; intros Hin; [destruct Hin|].
  cbn [max_cols fold_right]. fold (max_cols t).
  destruct Hin as [-> | Hin]; [lia | specialize (IH Hin); lia].
Qed.

Lemma col_widths_length (t : list (list string)) :
  length (col_widths t) = max_cols t.
Proof. unfold col_widths. now rewrite length_map, length_seq. Qed.

Lemma fold_width_bound (col_idx : nat) (t : list (list string)) :
  forall acc,
    let f := fun max_width (row : list string) =>
               if col_idx <? length row
               then Nat.max max_width (String.length (nth col_idx row EmptyString))
               else max_width in
    acc <= fold_left f t acc
    /\ forall row, In row t -> col_idx < length row ->
                   String.length (nth col_idx row EmptyString) <= fold_left f t acc.
Proof.
  cbv zeta. induction t as [|r t IH]; intros acc; cbn [fold_left].
  - split; [lia | intros row []].
  - destruct (IH (if col_idx <? length r
                  then Nat.max acc (String.length (nth col_idx r EmptyString))
                  else acc)) as [Hacc Hrows].
    split.
    + revert Hacc. destruct (col_idx <? length r); intros Hacc; [|exact Hacc].
      etransitivity; [apply Nat.le_max_l | exact Hacc].
    + intros row [-> | Hin] Hlt; [|now apply Hrows].
      apply Nat.ltb_lt in Hlt. rewrite Hlt in Hacc |- *.
      etransitivity; [apply Nat.le_max_r | exact Hacc].
Qed.

Lemma col_width_bound (t : list (list string)) (row : list string) (col_idx : nat) :
  In row t -> col_idx < length row ->
  String.length (nth col_idx row EmptyString) <= col_width t col_idx.
Proof.
  intros Hin Hlt. unfold col_width.
  pose proof (proj2 (fold_width_bound col_idx t 0) row Hin Hlt). lia.
Qed.

Lemma map_lookup_Some {A B : Type} (f : A -> B) (l : list A) (i : nat) (y : B) :
  map f l !! i = Some y -> exists x, l !! i = Some x /\ y = f x.
Proof.
  revert i. induction l as [|a l IH]; intros [|i] H; simpl in H; try discriminate.
  - injection H as <-. exists a. split; reflexivity.
  - destruct (IH i H) as (x & Hx & ->). exists x. split; [exact Hx | reflexivity].
Qed.

Lemma col_widths_lookup (t : list (list string)) (i w : nat) :
  col_widths t !! i = Some w -> w = col_width t i /\ i < max_cols t.
Proof.
  unfold col_widths. intros H.
  apply map_lookup_Some in H as (j & Hj & ->).
  apply lookup_seq in Hj. destruct Hj as [-> Hlt].
  split; [reflexivity | exact Hlt].
Qed.

Lemma padded_row_length (n : nat) (row : list string) :
  length row <= n -> length (padded_row n row) = n.
Proof. intros H. unfold padded_row. rewrite length_app, repeat_length. lia. Qed.

Lemma repeat_lookup {A : Type} (x y : A) (n i : nat) :
  repeat x n !! i = Some y -> y = x.
Proof.
  revert i. induction n as [|n IH]; intros [|i] H; simpl in H;
    try discriminate; [congruence | eauto].
Qed.

Lemma padded_row_fits (t : list (list string)) (row : list string) :
  In row t ->
  Forall2 (fun w c => String.length c <= w)
          (col_widths t) (padded_row (max_cols t) row).
Proof.
  intros Hin. pose proof (max_cols_bound t row Hin) as Hlen.
  apply Forall2_same_length_lookup_2.
  - now rewrite col_widths_length, padded_row_length.
  - intros i w c Hw Hc. apply col_widths_lookup in Hw as [-> _].
    unfold padded_row in Hc. apply lookup_app_Some in Hc as [Hc | [_ Hc]].
    + rewrite <- (nth_lookup_Some _ _ EmptyString _ Hc).
      apply col_width_bound; [exact Hin | exact (lookup_lt_Some _ _ _ Hc)].
    + apply repeat_lookup in Hc. subst c. simpl. lia.
Qed.

Lemma formatted_lengths (widths : list nat) (cells : list string) :
  Forall2 (fun w c => String.length c <= w) widths cells ->
  map String.length
      (map (fun wc : nat * string => ljust (fst wc) (snd wc)) (combine widths cells))
  = widths.
Proof.
  induction 1 as [|w c widths cells Hwc _ IH]; [reflexivity|].
  cbn [combine map fst snd]. now rewrite (ljust_length _ _ Hwc), IH.
Qed.

Lemma row_line_length (t : list (list string)) (row : list string) :
  In row t -> 0 < max_cols t ->
  String.length (row_line (col_widths t) row)
  = list_sum (col_widths t) + 3 * max_cols t + 1.
Proof.
  intros Hin Hpos. unfold row_line.
  rewrite !string_length_app, join_length, col_widths_length.
  rewrite (formatted_lengths _ _ (padded_row_fits t row Hin)).
  rewrite length_map, length_combine, col_widths_length.
  rewrite (padded_row_length _ _ (max_cols_bound t row Hin)).
  simpl String.length. lia.
Qed.

Lemma dashes_sum (widths : list nat) :
  list_sum (map String.length (map (fun w => repeat_char "-" (w + 2)) widths))
  = list_sum widths + 2 * length widths.
Proof.
  induction widths as [|w widths IH]; [reflexivity|].
  cbn [map length]. unfold list_sum in *. cbn [fold_right].
  rewrite repeat_char_length, IH. lia.
Qed.

Lemma separator_line_length (widths : list nat) :
  0 < length widths ->
  String.length (separator_line widths)
  = list_sum widths + 3 * length widths + 1.
Proof.
  intros Hpos. unfold separator_line.
  rewrite !string_length_app, join_length, dashes_sum, length_map.
  simpl String.length. lia.
Qed.

Lemma col_widths_min (t : list (list string)) :
  List.Forall (fun w => 3 <= w) (col_widths t).
Proof.
  unfold col_widths. apply List.Forall_forall. intros w Hw.
  apply in_map_iff in Hw as (i & <- & _). unfold col_width. lia.
Qed.

(** X21.  For a table with at least one cell, [_table_to_markdown] writes
    one line per row and one separator line after the first; every column
    is at least three characters wide; and all lines, the separator
    included, have the same length: the column widths plus three
    characters per column plus one. *)
Theorem table_markdown_aligned (table_data : list (list string)) :
  0 < max_cols table_data ->
  let lines := table_markdown_lines table_data in
  length lines = S (length table_data)
  /\ List.Forall (fun w => 3 <= w) (col_widths table_data)
  /\ List.Forall
       (fun l => String.length l
                 = list_sum (col_widths table_data) + 3 * max_cols table_data + 1)
       lines.
Proof.
  intros Hpos. cbv zeta. unfold table_markdown_lines.
  destruct table_data as [|first rest] eqn:E; [simpl in Hpos; lia|].
  rewrite <- E in *.
  split; [subst; cbn [length]; now rewrite length_map|].
  split; [apply col_widths_min|].
  constructor; [apply row_line_length; [subst; now left | exact Hpos]|].
  constructor.
  - rewrite separator_line_length; rewrite col_widths_length; [reflexivity | exact Hpos].
  - apply List.Forall_forall. intros l Hl.
    apply in_map_iff in Hl as (row & <- & Hrow).
    apply row_line_length; [subst; now right | exact Hpos].
Qed.

Lemma table_markdown_aligned_witness :
  List.Forall (fun l => String.length l = 26) (table_markdown_lines sample_table).
Proof.
  refine (proj2 (proj2 (table_markdown_aligned sample_table _))).
  vm_compute. lia.
Defined.

(** ** Parsing a markdown table *)

Lemma no_newline_all_chars (s : string) :
  no_newline s = all_chars (fun a => negb (Ascii.eqb a "010")) s.
Proof. induction s as [|c s IH]; simpl; [reflexivity | now rewrite IH]. Qed.

Lemma split_nl_split_on (s : string) : split_nl s = split_on "010" s.
Proof. induction s as [|c s IH]; simpl; [reflexivity | now rewrite IH]. Qed.

Lemma split_on_pieces (p : ascii -> bool) (c : ascii) (s : string) :
  all_chars p s = true ->
  List.Forall (fun x => all_chars (fun a => negb (Ascii.eqb a c) && p a) x = true)
              (split_on c s).
Proof.
  induction s as [|a s IH]; cbn [split_on all_chars]; intros H.
  - constructor; [reflexivity | constructor].
  - apply andb_true_iff in H as [Ha Hs]. specialize (IH Hs).
    destruct (Ascii.eqb a c) eqn:E.
    + constructor; [reflexivity | exact IH].
    + destruct (split_on c s) as [|h t].
      * constructor; [|constructor]. cbn [all_chars]. now rewrite E, Ha.
      * inversion IH as [|? ? Hh Ht]; subst.
        constructor; [|exact Ht]. cbn [all_chars]. now rewrite E, Ha, Hh.
Qed.

Lemma Forall_removelast {A : Type} (P : A -> Prop) (l : list A) :
  List.Forall P l -> List.Forall P (removelast l).
Proof.
  induction 1 as [|x l Hx Hl IH]; [constructor|].
  cbn [removelast]. destruct l; [constructor|].
  constructor; [exact Hx | exact IH].
Qed.

Lemma Forall_drop_empty_head (P : string -> Prop) (l : list string) :
  List.Forall P l -> List.Forall P (drop_empty_head l).
Proof.
  intros H. unfold drop_empty_head. destruct l as [|c r]; [constructor|].
  destruct (is_empty c); [now inversion H | exact H].
Qed.

Lemma Forall_drop_empty_last (P : string -> Prop) (l : list string) :
  List.Forall P l -> List.Forall P (drop_empty_last l).
Proof.
  intros H. unfold drop_empty_last. destruct l as [|c r]; [constructor|].
  destruct (is_empty _); [now apply Forall_removelast | exact H].
Qed.

Lemma parse_row_clean (line : string) (row : list string) :
  no_newline line = true ->
  parse_row line = Some row ->
  row <> [] /\ List.Forall (fun c => clean_cell c = true) row.
Proof.
  intros Hnl. unfold parse_row.
  destruct (is_empty (strip line)); [discriminate|].
  destruct (all_chars separator_char (strip line)); [discriminate|].
  assert (Hcells : List.Forall (fun c => clean_cell c = true)
                     (drop_empty_last
                        (drop_empty_head (map strip (split_on "|" (strip line)))))).
  { apply Forall_drop_empty_last, Forall_drop_empty_head.
    apply List.Forall_forall. intros c Hc.
    apply in_map_iff in Hc as (piece & <- & Hpiece).
    rewrite no_newline_all_chars in Hnl.
    pose proof (split_on_pieces _ "|" _ (all_chars_strip _ _ Hnl)) as Hp.
    pose proof (proj1 (List.Forall_forall _ _) Hp piece Hpiece) as Hplain.
    unfold clean_cell. rewrite strip_idem, String.eqb_refl.
    apply all_chars_strip. exact Hplain. }
  destruct (drop_empty_last _) as [|c r]; [discriminate|].
  intros [= <-]. split; [discriminate | exact Hcells].
Qed.

Lemma split_nl_lines (s : string) :
  List.Forall (fun l => no_newline l = true) (split_nl s).
Proof.
  rewrite split_nl_split_on.
  assert (H : all_chars (fun _ => true) s = true)
    by (induction s; simpl; auto).
  pose proof (split_on_pieces _ "010" _ H) as Hp.
  eapply List.Forall_impl; [|exact Hp].
  intros l Hl. rewrite no_newline_all_chars.
  eapply all_chars_impl; [|exact Hl].
  intros c Hc. now apply andb_true_iff in Hc as [Hc _].
Qed.

Lemma collect_rows_clean (lines : list string) :
  List.Forall (fun l => no_newline l = true) lines ->
  List.Forall (fun row => row <> [] /\ List.Forall (fun c => clean_cell c = true) row)
              (collect_rows lines)
  /\ length (collect_rows lines) <= length lines.
Proof.
  induction 1 as [|line lines Hl _ [IH1 IH2]]; cbn [collect_rows length].
  - split; [constructor | lia].
  - destruct (parse_row line) as [row|] eqn:E.
    + split; [|cbn [length]; lia].
      constructor; [exact (parse_row_clean _ _ Hl E) | exact IH1].
    + split; [exact IH1 | lia].
Qed.

(** X22.  Every row that [_parse_markdown_table] returns has at least
    one cell, and every cell is stripped and contains neither a pipe nor a
    line break; there are at most as many rows as the text has lines. *)
Theorem parse_markdown_table_rows (markdown : string) :
  List.Forall
    (fun row => row <> [] /\ List.Forall (fun c => clean_cell c = true) row)
    (parse_markdown_table markdown)
  /\ length (parse_markdown_table markdown)
     <= length (split_nl (strip markdown)).
Proof.
  unfold parse_markdown_table. apply collect_rows_clean, split_nl_lines.
Qed.

(** ** From a table to markdown and back *)

Lemma split_on_first (c : ascii) (x rest : string) :
  all_chars (fun a => negb (Ascii.eqb a c)) x = true ->
  split_on c (x +:+ String c rest) = x :: split_on c rest.
Proof.
  induction x as [|a x IH]; intros H.
  - change (EmptyString +:+ String c rest) with (String c rest).
    cbn [split_on]. now rewrite Ascii.eqb_refl.
  - change (String a x +:+ String c rest) with (String a (x +:+ String c rest)).
    cbn [all_chars] in H. apply andb_true_iff in H as [Ha Hx].
    apply negb_true_iff in Ha. cbn [split_on]. now rewrite Ha, (IH Hx).
Qed.

Lemma repeat_char_snoc (c : ascii) (n : nat) :
  repeat_char c n +:+ String c EmptyString = repeat_char c (S n).
Proof.
  induction n as [|n IH]; [reflexivity|].
  change (String c (repeat_char c n +:+ String c EmptyString)
          = String c (repeat_char c (S n))).
  now f_equal.
Qed.

Lemma strip_formatted (w : nat) (c : string) :
  strip c = c -> strip (" " +:+ ljust w c +:+ " ") = c.
Proof.
  intros H. unfold ljust.
  rewrite append_assoc_s, repeat_char_snoc.
  exact (strip_padded 1 _ c H).
Qed.

Lemma join_cells (formatted_cells : list string) :
  formatted_cells <> [] ->
  " " +:+ join " | " formatted_cells +:+ " |" = cells_line formatted_cells.
Proof.
  induction formatted_cells as [|f r IH]; intros Hne; [now destruct Hne|].
  cbn [join cells_line]. destruct r as [|g r].
  - cbn [cells_line]. now rewrite append_empty_r.
  - rewrite <- IH by discriminate.
    rewrite !append_assoc_s. reflexivity.
Qed.

Lemma split_cells_line (formatted_cells : list string) :
  List.Forall (fun f => all_chars (fun a => negb (Ascii.eqb a "|")) f = true)
              formatted_cells ->
  split_on "|" (cells_line formatted_cells)
  = map (fun f => " " +:+ f +:+ " ") formatted_cells ++ [EmptyString].
Proof.
  induction 1 as [|f r Hf _ IH]; [reflexivity|].
  cbn [cells_line map app].
  change (" " +:+ f +:+ " |" +:+ cells_line r)
    with (" " +:+ f +:+ " " +:+ String "|" (cells_line r)).
  rewrite <- (append_assoc_s f), <- (append_assoc_s " ").
  rewrite split_on_first, IH; [reflexivity|].
  rewrite !all_chars_app, Hf. reflexivity.
Qed.

Lemma drop_empty_last_snoc (cells : list string) :
  drop_empty_last (cells ++ [EmptyString]) = cells.
Proof.
  unfold drop_empty_last. rewrite last_last, removelast_last.
  destruct (cells ++ [EmptyString]) eqn:E; [|reflexivity].
  now destruct cells.
Qed.

(** The cells a row is formatted from, and what they are formatted to. *)
Lemma formatted_facts (widths : list nat) (cells : list string) :
  length widths = length cells ->
  List.Forall (fun c => clean_cell c = true) cells ->
  let formatted_cells :=
    map (fun wc : nat * string => ljust (fst wc) (snd wc)) (combine widths cells) in
  map strip (map (fun f => " " +:+ f +:+ " ") formatted_cells) = cells
  /\ List.Forall (fun f => all_chars plain_char f = true) formatted_cells
  /\ (has_content cells = true ->
      all_chars separator_char (cells_line formatted_cells) = false).
Proof.
  cbv zeta. revert cells.
  induction widths as [|w widths IH]; intros [|c cells] Hlen Hclean;
    try discriminate.
  - split; [reflexivity|]. split; [constructor | discriminate].
  - injection Hlen as Hlen. inversion Hclean as [|? ? Hc Hrest]; subst.
    destruct (IH cells Hlen Hrest) as (Hstrip & Hplain & Hcontent).
    unfold clean_cell in Hc. apply andb_true_iff in Hc as [Hs Hp].
    apply String.eqb_eq in Hs.
    cbn [combine map fst snd]. split; [|split].
    + now rewrite (strip_formatted w c Hs), Hstrip.
    + constructor; [|exact Hplain].
      unfold ljust. rewrite all_chars_app, Hp.
      now apply all_chars_repeat.
    + cbn [has_content existsb cells_line]. intros H.
      rewrite !all_chars_app.
      apply orb_true_iff in H as [H | H].
      * apply negb_true_iff in H. unfold ljust. rewrite all_chars_app, H.
        cbn [all_chars andb]. now rewrite andb_false_r.
      * rewrite (Hcontent H). now rewrite !andb_false_r.
Qed.

Lemma plain_no_pipe (s : string) :
  all_chars plain_char s = true ->
  all_chars (fun a => negb (Ascii.eqb a "|")) s = true.
Proof.
  apply all_chars_impl. intros c H. now apply andb_true_iff in H as [H _].
Qed.

Lemma plain_no_newline (s : string) :
  all_chars plain_char s = true -> no_newline s = true.
Proof.
  rewrite no_newline_all_chars.
  apply all_chars_impl. intros c H. now apply andb_true_iff in H as [_ H].
Qed.

Lemma padded_row_clean (n : nat) (row : list string) :
  List.Forall (fun c => clean_cell c = true) row ->
  List.Forall (fun c => clean_cell c = true) (padded_row n row).
Proof.
  intros H. unfold padded_row. apply List.Forall_app. split; [exact H|].
  apply List.Forall_forall. intros c Hc. apply repeat_spec in Hc. now subst c.
Qed.

Lemma padded_row_content (n : nat) (row : list string) :
  has_content row = true -> has_content (padded_row n row) = true.
Proof.
  unfold has_content, padded_row. intros H. rewrite existsb_app, H. reflexivity.
Qed.

Lemma has_content_nonempty (row : list string) :
  has_content row = true -> 0 < length row.
Proof. destruct row; [discriminate | simpl; lia]. Qed.

Lemma row_line_piped (widths : list nat) (row : list string) :
  exists m, row_line widths row = "|" +:+ m +:+ "|".
Proof.
  unfold row_line.
  set (formatted_cells := map _ _).
  exists (" " +:+ join " | " formatted_cells +:+ " ").
  rewrite (append_assoc_s " " (join " | " formatted_cells +:+ " ") "|").
  rewrite (append_assoc_s (join " | " formatted_cells) " " "|").
  reflexivity.
Qed.

(** A formatted row is read back as the padded row. *)
Lemma parse_row_line (widths : list nat) (row : list string) :
  length row <= length widths ->
  List.Forall (fun c => clean_cell c = true) row ->
  has_content row = true ->
  parse_row (row_line widths row) = Some (padded_row (length widths) row).
Proof.
  intros Hlen Hclean Hcontent.
  pose proof (has_content_nonempty _ Hcontent) as Hpos.
  set (cells := padded_row (length widths) row).
  assert (Hcl : length widths = length cells)
    by (unfold cells; now rewrite padded_row_length).
  destruct (formatted_facts widths cells Hcl (padded_row_clean _ _ Hclean))
    as (Hstrip & Hplain & Hsep).
  specialize (Hsep (padded_row_content _ _ Hcontent)).
  assert (Estrip : strip (row_line widths row) = row_line widths row)
    by (destruct (row_line_piped widths row) as (m & ->); apply strip_piped).
  unfold row_line in *. fold cells in Estrip |- *.
  set (formatted_cells :=
         map (fun wc : nat * string => ljust (fst wc) (snd wc))
             (combine widths cells)) in *.
  assert (Hne : formatted_cells <> []).
  { intros E. apply (f_equal (@length string)) in E.
    unfold formatted_cells in E.
    rewrite length_map, length_combine, <- Hcl in E. simpl in E. lia. }
  assert (Eline : "| " +:+ join " | " formatted_cells +:+ " |"
                  = String "|" (cells_line formatted_cells)).
  { rewrite <- (join_cells _ Hne). reflexivity. }
  unfold parse_row. rewrite Estrip, Eline.
  cbn [is_empty all_chars]. rewrite Hsep, andb_false_r.
  cbn [split_on]. change (Ascii.eqb "|" "|") with true. cbv iota.
  rewrite split_cells_line
    by (eapply List.Forall_impl; [|exact Hplain]; intros f; apply plain_no_pipe).
  cbn [map]. rewrite map_app, Hstrip.
  change (strip EmptyString) with EmptyString.
  cbn [map drop_empty_head is_empty]. rewrite drop_empty_last_snoc.
  destruct cells as [|c r] eqn:E; [|reflexivity].
  simpl in Hcl. lia.
Qed.

Lemma all_chars_join (p : ascii -> bool) (sep : string) (l : list string) :
  all_chars p sep = true ->
  List.Forall (fun x => all_chars p x = true) l ->
  all_chars p (join sep l) = true.
Proof.
  intros Hsep. induction 1 as [|x r Hx _ IH]; [reflexivity|].
  cbn [join]. destruct r as [|y r]; [exact Hx|].
  now rewrite !all_chars_app, Hx, Hsep, IH.
Qed.

Lemma dashes_chars (p : ascii -> bool) (widths : list nat) :
  p "-"%char = true ->
  List.Forall (fun x => all_chars p x = true)
              (map (fun w => repeat_char "-" (w + 2)) widths).
Proof.
  intros H. apply List.Forall_forall. intros x Hx.
  apply in_map_iff in Hx as (w & <- & _). now apply all_chars_repeat.
Qed.

(** The separator line is read back as no row. *)
Lemma parse_separator_line (widths : list nat) :
  parse_row (separator_line widths) = None.
Proof.
  unfold parse_row, separator_line. rewrite strip_piped.
  change (is_empty ("|" +:+ _ +:+ "|")) with false. cbv iota.
  rewrite !all_chars_app, all_chars_join;
    [reflexivity | reflexivity | now apply dashes_chars].
Qed.

Lemma join_piped (lines : list string) :
  lines <> [] ->
  List.Forall (fun l => exists m, l = "|" +:+ m +:+ "|") lines ->
  exists m, join (String "010" EmptyString) lines = "|" +:+ m +:+ "|".
Proof.
  intros Hne H. induction H as [|l r (m & ->) _ IH]; [now destruct Hne|].
  cbn [join]. destruct r as [|l' r]; [now exists m|].
  destruct (IH ltac:(discriminate)) as (m' & ->).
  exists (m +:+ "|" +:+ String "010" EmptyString +:+ "|" +:+ m').
  rewrite !append_assoc_s. reflexivity.
Qed.

Lemma split_nl_single (l : string) : no_newline l = true -> split_nl l = [l].
Proof.
  induction l as [|c l IH]; [reflexivity|].
  cbn [no_newline split_nl]. intros H.
  apply andb_true_iff in H as [Hc Hl]. apply negb_true_iff in Hc.
  now rewrite Hc, (IH Hl).
Qed.

Lemma split_nl_join (lines : list string) :
  lines <> [] ->
  List.Forall (fun l => no_newline l = true) lines ->
  split_nl (join (String "010" EmptyString) lines) = lines.
Proof.
  intros Hne H. induction H as [|l r Hl _ IH]; [now destruct Hne|].
  cbn [join]. destruct r as [|l' r]; [now apply split_nl_single|].
  change (l +:+ String "010" EmptyString +:+ join (String "010" EmptyString) (l' :: r))
    with (l +:+ String "010" (join (String "010" EmptyString) (l' :: r))).
  rewrite (split_nl_first_line _ _ Hl), IH; [reflexivity | discriminate].
Qed.

Lemma row_line_no_newline (widths : list nat) (row : list string) :
  List.Forall (fun c => clean_cell c = true) row ->
  no_newline (row_line widths row) = true.
Proof.
  intros Hclean. rewrite no_newline_all_chars. unfold row_line.
  rewrite !all_chars_app. rewrite all_chars_join; [reflexivity | reflexivity |].
  apply List.Forall_forall. intros f Hf.
  apply in_map_iff in Hf as ([w c] & <- & Hin). cbn [fst snd].
  apply in_combine_r in Hin.
  pose proof (proj1 (List.Forall_forall _ _)
                    (padded_row_clean (length widths) row Hclean) c Hin) as Hc.
  unfold clean_cell in Hc. apply andb_true_iff in Hc as [_ Hc].
  unfold ljust. rewrite all_chars_app.
  rewrite <- no_newline_all_chars, (plain_no_newline _ Hc).
  now apply all_chars_repeat.
Qed.

Lemma separator_line_no_newline (widths : list nat) :
  no_newline (separator_line widths) = true.
Proof.
  rewrite no_newline_all_chars. unfold separator_line.
  rewrite !all_chars_app, all_chars_join;
    [reflexivity | reflexivity | now apply dashes_chars].
Qed.

Lemma collect_row_lines (widths : list nat) (rows : list (list string)) :
  List.Forall (fun row => length row <= length widths
                          /\ List.Forall (fun c => clean_cell c = true) row
                          /\ has_content row = true) rows ->
  collect_rows (map (row_line widths) rows)
  = map (padded_row (length widths)) rows.
Proof.
  induction 1 as [|row rows (Hlen & Hclean & Hcontent) _ IH]; [reflexivity|].
  cbn [map collect_rows].
  now rewrite (parse_row_line widths row Hlen Hclean Hcontent), IH.
Qed.

Lemma padded_row_full (n : nat) (row : list string) :
  length row = n -> padded_row n row = row.
Proof.
  intros <-. unfold padded_row. rewrite Nat.sub_diag. apply app_nil_r.
Qed.

(** X23.  A table whose cells are stripped and free of pipes and line
    breaks, and each of whose rows has a cell with a character outside
    ['-|: '], is read back by [_parse_markdown_table] from the text that
    [_table_to_markdown] writes for it, every row padded with empty cells
    to the width of the widest row; a table whose rows all have that width
    is read back unchanged. *)
Theorem table_markdown_round_trip (table_data : list (list string)) :
  forallb (forallb clean_cell) table_data = true ->
  forallb has_content table_data = true ->
  parse_markdown_table (table_to_markdown table_data)
  = map (padded_row (max_cols table_data)) table_data
  /\ ((forall row, In row table_data -> length row = max_cols table_data) ->
      parse_markdown_table (table_to_markdown table_data) = table_data).
Proof.
  intros Hclean Hcontent.
  assert (Hmain : parse_markdown_table (table_to_markdown table_data)
                  = map (padded_row (max_cols table_data)) table_data).
  { destruct table_data as [|first rest]; [reflexivity|].
    set (t := first :: rest) in *.
    set (P := fun row : list string =>
                length row <= length (col_widths t)
                /\ List.Forall (fun c => clean_cell c = true) row
                /\ has_content row = true).
    assert (Hrows : forall row, In row t -> P row).
    { intros row Hrow. unfold P.
      rewrite col_widths_length. split; [now apply max_cols_bound|].
      rewrite forallb_forall in Hclean, Hcontent.
      split; [|now apply Hcontent].
      apply List.Forall_forall. intros c Hc.
      exact (proj1 (forallb_forall _ _) (Hclean row Hrow) c Hc). }
    assert (Hfirst : P first) by (apply Hrows; now left).
    assert (Hrest : List.Forall P rest)
      by (apply List.Forall_forall; intros row Hrow; apply Hrows; now right).
    unfold parse_markdown_table, table_to_markdown.
    assert (Hlines : table_markdown_lines t
                     = row_line (col_widths t) first
                       :: separator_line (col_widths t)
                       :: map (row_line (col_widths t)) rest) by reflexivity.
    set (lines := table_markdown_lines t) in *.
    assert (Hne : lines <> []) by (rewrite Hlines; discriminate).
    assert (Hpiped : List.Forall (fun l => exists m, l = "|" +:+ m +:+ "|") lines).
    { rewrite Hlines. constructor; [apply row_line_piped|].
      constructor; [now eexists|].
      apply List.Forall_forall. intros l Hl.
      apply in_map_iff in Hl as (row & <- & _). apply row_line_piped. }
    assert (Hnl : List.Forall (fun l => no_newline l = true) lines).
    { rewrite Hlines.
      constructor; [apply row_line_no_newline; apply Hfirst|].
      constructor; [apply separator_line_no_newline|].
      apply List.Forall_forall. intros l Hl.
      apply in_map_iff in Hl as (row & <- & Hrow).
      apply row_line_no_newline.
      exact (proj1 (proj2 (proj1 (List.Forall_forall _ _) Hrest row Hrow))). }
    destruct (join_piped lines Hne Hpiped) as (m & Hm).
    rewrite Hm, strip_piped, <- Hm, (split_nl_join lines Hne Hnl), Hlines.
    cbn [collect_rows].
    destruct Hfirst as (Hl1 & Hc1 & Hh1).
    rewrite (parse_row_line _ _ Hl1 Hc1 Hh1), parse_separator_line.
    rewrite (collect_row_lines _ _ Hrest), col_widths_length.
    reflexivity. }
  split; [exact Hmain|].
  intros Hrect. rewrite Hmain.
  transitivity (map (fun row : list string => row) table_data);
    [|apply List.map_id].
  apply map_ext_in.
  intros row Hrow. apply padded_row_full. now apply Hrect.
Qed.

Lemma table_markdown_round_trip_witness :
  parse_markdown_table (table_to_markdown sample_table)
  = map (padded_row 3) sample_table.
Proof.
  refine (proj1 (table_markdown_round_trip sample_table _ _));
    vm_compute; reflexivity.
Defined.

End TableToolsFacts.
